(** * The feed harvesting subsystem of grepr ([reddit_fetcher.py])

    A shallow embedding of [reddit_fetcher.py] (with the constants of
    [config.py] it imports) and the properties of its harvesting logic:
    transport selection, public pagination, score filtering, top-comment
    enrichment and the full / incremental entry points.

    Conventions of the embedding.
    - Values parsed from JSON are Python values [pyval]; dictionaries are
      association lists whose first binding of a key is the one [dict.get]
      sees (a parsed object has each key once).
    - Numbers read from the transports are integers: scores are integers
      and the timestamps of posts are taken in whole seconds.  The clock is
      a binary64 float: [time.time()] is the argument [now] of
      [fetch_new_posts], and the cutoff is computed and compared as the
      floating-point arithmetic does.
    - A generator consumed by a [for] loop is the function that takes the
      loop body [body : Post.t -> S -> M S] and the loop-carried state; the
      body runs at each [yield], so requests issued by the consumer are
      interleaved with the page requests exactly as in the source.  Both
      [for] loops over the generators run them to exhaustion.
    - The outside world is an [Env]: what the public endpoint answers to a
      request given the requests issued so far, and what the PRAW client
      does.  [World] holds the request logs and the module-level
      [_reddit_instance].
    - [time.sleep] and logging have no effect on results and are left out. *)

From Stdlib Require Import ZArith List String Ascii Bool Lia DecimalString SpecFloat.
Import ListNotations.
Local Open Scope string_scope.
Local Open Scope list_scope.
Local Open Scope Z_scope.

Set Implicit Arguments.

(** ** Python values and the operations the module applies to them *)

#[warnings="-register-all"]
Inductive pyval : Type :=
| PNone
| PBool (b : bool)
| PInt (z : Z)
| PStr (s : string)
| PList (l : list pyval)
| PDict (kv : list (string * pyval)).

Inductive Exn : Type :=
| RequestException
| AttributeError
| TypeError
| KeyError
| IndexError
| ValueError
| OverflowError.

(** Outcome of a computation: a value, a raised exception, or [Timeout]
    when the fuel given to the pagination loop ran out. *)
Inductive Res (A : Type) : Type :=
| Ret (a : A)
| Raise (e : Exn)
| Timeout.
Arguments Raise {A} e.
Arguments Timeout {A}.

Definition bool_int (b : bool) : Z := if b then 1 else 0.

(** [bool(v)] *)
Definition truthy (v : pyval) : bool :=
  match v with
  | PNone => false
  | PBool b => b
  | PInt z => negb (z =? 0)
  | PStr s => negb (s =? "")%string
  | PList l => match l with [] => false | _ => true end
  | PDict kv => match kv with [] => false | _ => true end
  end.

Fixpoint assoc (k : string) (kv : list (string * pyval)) : option pyval :=
  match kv with
  | [] => None
  | (k', v) :: rest => if (k' =? k)%string then Some v else assoc k rest
  end.

(** [o.get(k, d)]: only dictionaries have the method. *)
Definition py_get (o : pyval) (k : string) (d : pyval) : Res pyval :=
  match o with
  | PDict kv => Ret (match assoc k kv with Some v => v | None => d end)
  | _ => Raise AttributeError
  end.

(** [len(o)] *)
Definition py_len (o : pyval) : Res Z :=
  match o with
  | PStr s => Ret (Z.of_nat (String.length s))
  | PList l => Ret (Z.of_nat (List.length l))
  | PDict kv => Ret (Z.of_nat (List.length kv))
  | _ => Raise TypeError
  end.

(** [o[i]] for a non-negative integer [i].  The keys of a parsed JSON
    object are strings, so an integer subscript of a dictionary is a
    [KeyError]. *)
Definition py_item (o : pyval) (i : nat) : Res pyval :=
  match o with
  | PList l => match nth_error l i with Some v => Ret v | None => Raise IndexError end
  | PStr s => match String.get i s with
              | Some c => Ret (PStr (String c EmptyString))
              | None => Raise IndexError
              end
  | PDict _ => Raise KeyError
  | _ => Raise TypeError
  end.

(** [o[:n]] *)
Definition py_slice (o : pyval) (n : nat) : Res pyval :=
  match o with
  | PStr s => Ret (PStr (String.substring 0 n s))
  | PList l => Ret (PList (firstn n l))
  | _ => Raise TypeError
  end.

(** [o >= z] for an integer [z]; [bool] is a subclass of [int]. *)
Definition py_ge (o : pyval) (z : Z) : Res bool :=
  match o with
  | PInt a => Ret (z <=? a)
  | PBool b => Ret (z <=? bool_int b)
  | _ => Raise TypeError
  end.

(** ** Floats

    A [float] is a binary64 number: [spec_float] at precision 53 and
    maximal exponent 1024, with rounding to nearest, ties to even. *)

(** The float nearest to [m * 2 ^ e]. *)
Definition float_of (m e : Z) : spec_float := binary_normalize 53 1024 m e false.

(** The conversion of an integer operand of a float operation: it rounds
    to the nearest float and raises when the integer is too large. *)
Definition float_of_int (z : Z) : Res spec_float :=
  match float_of z 0 with
  | S754_infinity _ => Raise OverflowError
  | x => Ret x
  end.

(** [x - z] for a float [x] and an integer [z]. *)
Definition float_sub_int (x : spec_float) (z : Z) : Res spec_float :=
  match float_of_int z with
  | Ret y => Ret (SFsub 53 1024 x y)
  | Raise e => Raise e
  | Timeout => Timeout
  end.

(** [a >= x] for an integer [a] and a float [x]: the comparison is exact,
    the integer is not converted. *)
Definition int_ge_float (a : Z) (x : spec_float) : bool :=
  match x with
  | S754_nan => false
  | S754_infinity s => s
  | S754_zero _ => 0 <=? a
  | S754_finite s m e =>
      if 0 <=? e then cond_Zopp s (Zpos m) * 2 ^ e <=? a
      else cond_Zopp s (Zpos m) <=? a * 2 ^ (- e)
  end.

(** [o >= x] for a float [x]. *)
Definition py_ge_float (o : pyval) (x : spec_float) : Res bool :=
  match o with
  | PInt a => Ret (int_ge_float a x)
  | PBool b => Ret (int_ge_float (bool_int b) x)
  | _ => Raise TypeError
  end.

(** [o == s] for a string literal [s]. *)
Definition py_eq_str (o : pyval) (s : string) : bool :=
  match o with
  | PStr s' => (s' =? s)%string
  | _ => false
  end.

Fixpoint chars (s : string) : list pyval :=
  match s with
  | EmptyString => []
  | String c rest => PStr (String c EmptyString) :: chars rest
  end.

(** The elements a [for] loop over [o] visits. *)
Definition py_iter (o : pyval) : Res (list pyval) :=
  match o with
  | PList l => Ret l
  | PStr s => Ret (chars s)
  | PDict kv => Ret (map (fun p => PStr (fst p)) kv)
  | _ => Raise TypeError
  end.

(** ** [datetime.utcfromtimestamp(t).strftime("%Y-%m-%d %H:%M:%S")] *)

Definition decimal (z : Z) : string := NilZero.string_of_int (Z.to_int z).

Definition pad (width : nat) (z : Z) : string :=
  let s := decimal z in
  (fix zeros (n : nat) : string :=
     match n with O => s | S n' => String "0"%char (zeros n') end)
    (width - String.length s)%nat.

(** Proleptic Gregorian date of a day count from 1970-01-01. *)
Definition civil_from_days (days : Z) : Z * Z * Z :=
  let z := days + 719468 in
  let era := z / 146097 in
  let doe := z - era * 146097 in
  let yoe := (doe - doe / 1460 + doe / 36524 - doe / 146096) / 365 in
  let doy := doe - (365 * yoe + yoe / 4 - yoe / 100) in
  let mp := (5 * doy + 2) / 153 in
  let d := doy - (153 * mp + 2) / 5 + 1 in
  let m := if mp <? 10 then mp + 3 else mp - 9 in
  let y := yoe + era * 400 in
  (if m <=? 2 then y + 1 else y, m, d).

(** [None] when the date falls outside the years 1 to 9999, where
    [utcfromtimestamp] raises.  The year is printed on four digits, as
    [%Y] does for the years from 1000 on. *)
Definition utc_strftime (t : Z) : option string :=
  let '(y, m, d) := civil_from_days (t / 86400) in
  let secs := t mod 86400 in
  if (1 <=? y) && (y <=? 9999) then
    Some (pad 4 y ++ "-" ++ pad 2 m ++ "-" ++ pad 2 d ++ " " ++
          pad 2 (secs / 3600) ++ ":" ++ pad 2 (secs mod 3600 / 60) ++ ":" ++
          pad 2 (secs mod 60))%string
  else None.

(** The same on a parsed JSON value. *)
Definition py_utc_strftime (o : pyval) : Res string :=
  match o with
  | PInt z => match utc_strftime z with Some s => Ret s | None => Raise ValueError end
  | PBool b => match utc_strftime (bool_int b) with Some s => Ret s | None => Raise ValueError end
  | _ => Raise TypeError
  end.

(** ** Records produced by the module *)

(** The mapping [fetch_top_comment_*] returns. *)
Module Comment.
Record t : Type := {
  comment_id : pyval;
  comment_body : pyval;
  comment_score : pyval;
  comment_author : pyval
}.
End Comment.

(** The mapping the post generators yield.  [comment] is [Some c] once
    [post.update(top_comment)] has merged the four comment keys in. *)
Module Post.
Record t : Type := {
  id : pyval;
  subreddit : string;
  title : pyval;
  selftext : pyval;
  score : pyval;
  num_comments : pyval;
  created_utc : pyval;
  created_at : pyval;
  url : string;
  author : pyval;
  upvote_ratio : pyval;
  comment : option Comment.t
}.

(** [post.update(top_comment)] *)
Definition update (p : t) (c : Comment.t) : t :=
  {| id := id p; subreddit := subreddit p; title := title p;
     selftext := selftext p; score := score p;
     num_comments := num_comments p; created_utc := created_utc p;
     created_at := created_at p; url := url p; author := author p;
     upvote_ratio := upvote_ratio p; comment := Some c |}.

(** The post without the merged comment keys. *)
Definition bare (p : t) : t :=
  {| id := id p; subreddit := subreddit p; title := title p;
     selftext := selftext p; score := score p;
     num_comments := num_comments p; created_utc := created_utc p;
     created_at := created_at p; url := url p; author := author p;
     upvote_ratio := upvote_ratio p; comment := None |}.
End Post.

(** ** The PRAW client, as far as the module uses it *)

(** A [praw.Reddit] instance, identified by the number of PRAW calls made
    before it was constructed. *)
Record Reddit : Type := { serial : nat }.

(** A submission of a listing: the attributes the module reads. *)
Record Submission : Type := {
  sub_id : string;
  sub_title : string;
  sub_selftext : option string;
  sub_score : Z;
  sub_num_comments : Z;
  sub_created_utc : Z;
  sub_permalink : string;
  sub_author : option string;
  sub_upvote_ratio : pyval
}.

(** A comment of a submission's comment forest. *)
Record PrawComment : Type := {
  pc_id : string;
  pc_body : option string;
  pc_score : Z;
  pc_author : option string
}.

Inductive PrawCall : Type :=
| CallReddit
| CallMe (r : Reddit)
| CallTop (r : Reddit) (subreddit time_filter : string) (limit : Z)
| CallComments (r : Reddit) (post_id : pyval).

(** ** The public endpoint *)

(** [requests.get(url, headers, params)]: the listing page of a community
    ([t], [limit] and the optional [after] parameter) or the comment thread
    of a post. *)
Inductive Request : Type :=
| TopPage (subreddit time_filter : string) (limit : Z) (after : option pyval)
| CommentThread (subreddit : string) (post_id : pyval).

(** The three statements of the [try] block around a request:
    [requests.get], [raise_for_status] and [response.json()] either give
    the parsed body or raise a [requests.RequestException]. *)
Inductive HttpResult : Type :=
| HttpOk (body : pyval)
| HttpFail.

(** ** Environment, configuration and state *)

Record Env : Type := {
  (** the answer to a request, given the requests issued before it *)
  http : list Request -> Request -> HttpResult;
  (** does [praw.Reddit(...)] return (rather than raise) *)
  praw_Reddit : list PrawCall -> bool;
  (** does [reddit.user.me()] return *)
  praw_me : list PrawCall -> bool;
  (** [reddit.subreddit(s).top(time_filter, limit)]: the submissions the
      listing delivers, and whether it then raises instead of ending *)
  praw_top : list PrawCall -> Reddit -> string -> string -> Z -> list Submission * bool;
  (** the comment forest of [reddit.submission(id)] after
      [replace_more(limit=0)], or [None] when one of the calls raises *)
  praw_comments : list PrawCall -> Reddit -> pyval -> option (list PrawComment);
  (** [str] of a list or a dictionary *)
  repr_container : pyval -> string
}.

(** The constants imported from [config.py], and [PRAW_AVAILABLE]. *)
Record Config : Type := {
  SUBREDDITS : list string;
  MIN_SCORE : Z;
  POSTS_PER_REQUEST : Z;
  TIME_FILTER : string;
  REDDIT_API_ENABLED : bool;
  PRAW_AVAILABLE : bool
}.

(** [config.py] as written, for the two settings read from the process
    environment. *)
Definition config_py (api_enabled praw_available : bool) : Config :=
  {| SUBREDDITS := ["vosfinances"; "vossous"; "Bogleheads";
                    "eupersonalfinance"; "ETFs_Europe"];
     MIN_SCORE := 10;
     POSTS_PER_REQUEST := 100;
     TIME_FILTER := "all";
     REDDIT_API_ENABLED := api_enabled;
     PRAW_AVAILABLE := praw_available |}.

Record World : Type := {
  http_log : list Request;
  praw_log : list PrawCall;
  reddit_instance : option Reddit  (* the global [_reddit_instance] *)
}.

Definition start : World :=
  {| http_log := []; praw_log := []; reddit_instance := None |}.

Definition log_http (req : Request) (w : World) : World :=
  {| http_log := http_log w ++ [req]; praw_log := praw_log w;
     reddit_instance := reddit_instance w |}.

Definition log_praw (c : PrawCall) (w : World) : World :=
  {| http_log := http_log w; praw_log := praw_log w ++ [c];
     reddit_instance := reddit_instance w |}.

Definition set_instance (r : Reddit) (w : World) : World :=
  {| http_log := http_log w; praw_log := praw_log w;
     reddit_instance := Some r |}.

(** ** Computations: state, exceptions and fuel *)

Definition M (A : Type) : Type := World -> Res A * World.

Definition ret {A} (a : A) : M A := fun w => (Ret a, w).

Definition bind {A B} (m : M A) (k : A -> M B) : M B :=
  fun w =>
    match m w with
    | (Ret a, w') => k a w'
    | (Raise e, w') => (Raise e, w')
    | (Timeout, w') => (Timeout, w')
    end.

Definition lift {A} (r : Res A) : M A := fun w => (r, w).

(** Sequencing of expressions that may raise but touch no state. *)
Definition rbind {A B} (r : Res A) (k : A -> Res B) : Res B :=
  match r with
  | Ret a => k a
  | Raise e => Raise e
  | Timeout => Timeout
  end.

(** [try: m  except <the exceptions h accepts>: handler] *)
Definition try_except {A} (m : M A) (h : Exn -> option (M A)) : M A :=
  fun w =>
    match m w with
    | (Raise e, w') =>
        match h e with
        | Some handler => handler w'
        | None => (Raise e, w')
        end
    | r => r
    end.

Definition is_RequestException (e : Exn) : bool :=
  match e with RequestException => true | _ => false end.

Declare Scope fetch_scope.
Delimit Scope fetch_scope with fetch.
Notation "x <- m ;; k" := (bind m (fun x => k))
  (at level 61, m at next level, right associativity) : fetch_scope.
Notation "' pat <- m ;; k" := (bind m (fun x => match x with pat => k end))
  (at level 61, pat pattern, m at next level, right associativity) : fetch_scope.
Notation "x <~ r ;; k" := (rbind r (fun x => k))
  (at level 61, r at next level, right associativity) : fetch_scope.
Local Open Scope fetch_scope.

(** [for x in xs: s = f x s] *)
Fixpoint for_in {A S} (xs : list A) (f : A -> S -> M S) (s : S) : M S :=
  match xs with
  | [] => ret s
  | x :: rest => s' <- f x s ;; for_in rest f s'
  end.

(** ** [reddit_fetcher.py] *)

Section Fetcher.

Variable env : Env.
Variable cfg : Config.

(** [str(v)], as the f-strings apply it. *)
Definition py_str (v : pyval) : string :=
  match v with
  | PNone => "None"
  | PBool b => if b then "True" else "False"
  | PInt z => decimal z
  | PStr s => s
  | _ => repr_container env v
  end.

(** [requests.get(...)], [raise_for_status()], [response.json()] *)
Definition requests_get (req : Request) : M pyval :=
  fun w =>
    match http env (http_log w) req with
    | HttpOk body => (Ret body, log_http req w)
    | HttpFail => (Raise RequestException, log_http req w)
    end.

Definition api_selected : bool :=
  REDDIT_API_ENABLED cfg && PRAW_AVAILABLE cfg.

(** The global is assigned as soon as the constructor returns, before
    the connection test. *)
Definition get_reddit_client : M (option Reddit) :=
  fun w =>
    if negb (REDDIT_API_ENABLED cfg) || negb (PRAW_AVAILABLE cfg) then (Ret None, w)
    else
      match reddit_instance w with
      | Some r => (Ret (Some r), w)
      | None =>
          if praw_Reddit env (praw_log w) then
            let r := {| serial := List.length (praw_log w) |} in
            let w1 := set_instance r (log_praw CallReddit w) in
            if praw_me env (praw_log w1)
            then (Ret (Some r), log_praw (CallMe r) w1)
            else (Ret None, log_praw (CallMe r) w1)
          else (Ret None, log_praw CallReddit w)
      end.

(** *** Public transport *)

(** What one iteration of [for post in posts] computes before its
    [yield]: [Ret None] when the score is below [MIN_SCORE], the mapping
    to yield otherwise. *)
Definition public_post (subreddit : string) (post : pyval) : Res (option Post.t) :=
  post_data <~ py_get post "data" (PDict []) ;;
  score <~ py_get post_data "score" (PInt 0) ;;
  accepted <~ py_ge score (MIN_SCORE cfg) ;;
  if accepted : bool then
    created_utc <~ py_get post_data "created_utc" (PInt 0) ;;
    created_at <~ (if truthy created_utc
                   then (c <~ py_utc_strftime created_utc ;; Ret (PStr c))
                   else Ret PNone) ;;
    id <~ py_get post_data "id" PNone ;;
    title <~ py_get post_data "title" PNone ;;
    text <~ py_get post_data "selftext" (PStr "") ;;
    selftext <~ py_slice text 2000 ;;
    num_comments <~ py_get post_data "num_comments" (PInt 0) ;;
    permalink <~ py_get post_data "permalink" PNone ;;
    author <~ py_get post_data "author" PNone ;;
    upvote_ratio <~ py_get post_data "upvote_ratio" (PInt 0) ;;
    Ret (Some {| Post.id := id;
                 Post.subreddit := subreddit;
                 Post.title := title;
                 Post.selftext := selftext;
                 Post.score := score;
                 Post.num_comments := num_comments;
                 Post.created_utc := created_utc;
                 Post.created_at := created_at;
                 Post.url := ("https://reddit.com" ++ py_str permalink)%string;
                 Post.author := author;
                 Post.upvote_ratio := upvote_ratio;
                 Post.comment := None |})
  else Ret None.

(** The [for post in posts] loop of one page; [total_fetched] is carried
    along with the consumer's state. *)
Fixpoint public_for {S} (subreddit : string) (posts : list pyval)
         (body : Post.t -> S -> M S) (s : S) (total_fetched : Z) : M (S * Z) :=
  match posts with
  | [] => ret (s, total_fetched)
  | post :: rest =>
      built <- lift (public_post subreddit post) ;;
      match built with
      | Some p =>
          s' <- body p s ;;                                   (* yield *)
          public_for subreddit rest body s' (total_fetched + 1)
      | None => public_for subreddit rest body s total_fetched
      end
  end.

Definition page_request (subreddit time_filter : string) (limit : Z)
           (after : pyval) (total_fetched : Z) : Request :=
  TopPage subreddit time_filter (Z.min (limit - total_fetched) 100)
          (if truthy after then Some after else None).

(** The [while total_fetched < limit] loop; one unit of fuel per page
    request. *)
Fixpoint public_loop {S} (fuel : nat) (subreddit time_filter : string) (limit : Z)
         (after : pyval) (total_fetched : Z)
         (body : Post.t -> S -> M S) (s : S) : M S :=
  match fuel with
  | O => lift Timeout
  | Datatypes.S fuel' =>
      if total_fetched <? limit then
        response <- try_except
                      (data <- requests_get
                                 (page_request subreddit time_filter limit after total_fetched) ;;
                       ret (Some data))
                      (fun e => if is_RequestException e then Some (ret None) else None) ;;
        match response with
        | None => ret s                                       (* break *)
        | Some data =>
            listing <- lift (py_get data "data" (PDict [])) ;;
            posts <- lift (py_get listing "children" (PList [])) ;;
            if negb (truthy posts) then ret s                 (* break *)
            else
              items <- lift (py_iter posts) ;;
              '(s', total') <- public_for subreddit items body s total_fetched ;;
              listing' <- lift (py_get data "data" (PDict [])) ;;
              after' <- lift (py_get listing' "after" PNone) ;;
              if negb (truthy after') then ret s'             (* break *)
              else public_loop fuel' subreddit time_filter limit after' total' body s'
        end
      else ret s
  end.

Definition fetch_subreddit_posts_public {S} (fuel : nat)
           (subreddit time_filter : string) (limit : Z)
           (body : Post.t -> S -> M S) (s : S) : M S :=
  public_loop fuel subreddit time_filter limit PNone 0 body s.

(** What [fetch_top_comment_public] computes from the parsed body. *)
Definition top_comment_of (data : pyval) : Res (option Comment.t) :=
  n <~ py_len data ;;
  if 1 <? n then
    second <~ py_item data 1 ;;
    listing <~ py_get second "data" (PDict []) ;;
    comments <~ py_get listing "children" (PList []) ;;
    if truthy comments then
      first <~ py_item comments 0 ;;
      kind <~ py_get first "kind" PNone ;;
      if py_eq_str kind "t1" then
        first' <~ py_item comments 0 ;;
        comment_data <~ py_get first' "data" (PDict []) ;;
        cid <~ py_get comment_data "id" PNone ;;
        text <~ py_get comment_data "body" (PStr "") ;;
        cbody <~ py_slice text 1000 ;;
        cscore <~ py_get comment_data "score" (PInt 0) ;;
        cauthor <~ py_get comment_data "author" PNone ;;
        Ret (Some {| Comment.comment_id := cid;
                     Comment.comment_body := cbody;
                     Comment.comment_score := cscore;
                     Comment.comment_author := cauthor |})
      else Ret None
    else Ret None
  else Ret None.

Definition fetch_top_comment_public (post_id : pyval) (subreddit : string)
  : M (option Comment.t) :=
  try_except
    (data <- requests_get (CommentThread subreddit post_id) ;;
     lift (top_comment_of data))
    (fun e => if is_RequestException e then Some (ret None) else None).

(** *** Authenticated transport *)

(** [text or ""] *)
Definition or_empty (text : option string) : string :=
  match text with
  | Some s => s
  | None => ""
  end.

(** [str(author) if author else "[deleted]"] *)
Definition author_str (author : option string) : pyval :=
  match author with
  | Some name => PStr name
  | None => PStr "[deleted]"
  end.

(** What one iteration of [for post in sub.top(...)] computes before its
    [yield]; [Raise] is an exception raised inside the [try] block. *)
Definition praw_post (subreddit : string) (post : Submission) : Res (option Post.t) :=
  if MIN_SCORE cfg <=? sub_score post then
    match utc_strftime (sub_created_utc post) with
    | None => Raise ValueError
    | Some created_at =>
        Ret (Some {| Post.id := PStr (sub_id post);
                     Post.subreddit := subreddit;
                     Post.title := PStr (sub_title post);
                     Post.selftext :=
                       PStr (String.substring 0 2000 (or_empty (sub_selftext post)));
                     Post.score := PInt (sub_score post);
                     Post.num_comments := PInt (sub_num_comments post);
                     Post.created_utc := PInt (sub_created_utc post);
                     Post.created_at := PStr created_at;
                     Post.url := ("https://reddit.com" ++ sub_permalink post)%string;
                     Post.author := author_str (sub_author post);
                     Post.upvote_ratio := sub_upvote_ratio post;
                     Post.comment := None |})
    end
  else Ret None.

(** The [for post in sub.top(...)] loop inside the [try] block.  The
    boolean tells whether the loop ran through the delivered submissions
    ([true]) or stopped on an exception raised inside the block
    ([false]).  An exception of the consumer is not raised inside the
    generator: it propagates. *)
Fixpoint praw_for {S} (subreddit : string) (listing : list Submission)
         (body : Post.t -> S -> M S) (s : S) : M (bool * S) :=
  match listing with
  | [] => ret (true, s)
  | post :: rest =>
      match praw_post subreddit post with
      | Ret (Some p) =>
          s' <- body p s ;;                                   (* yield *)
          praw_for subreddit rest body s'
      | Ret None => praw_for subreddit rest body s
      | _ => ret (false, s)
      end
  end.

Definition praw_call_top (r : Reddit) (subreddit time_filter : string) (limit : Z)
  : M (list Submission * bool) :=
  fun w => (Ret (praw_top env (praw_log w) r subreddit time_filter limit),
            log_praw (CallTop r subreddit time_filter limit) w).

Definition fetch_subreddit_posts_praw {S} (fuel : nat)
           (subreddit time_filter : string) (limit : Z)
           (body : Post.t -> S -> M S) (s : S) : M S :=
  reddit <- get_reddit_client ;;
  match reddit with
  | None => fetch_subreddit_posts_public fuel subreddit time_filter limit body s
  | Some r =>
      '(listing, fails) <- praw_call_top r subreddit time_filter limit ;;
      '(completed, s') <- praw_for subreddit listing body s ;;
      if completed && negb fails then ret s'
      else                                                    (* except Exception *)
        fetch_subreddit_posts_public fuel subreddit time_filter limit body s'
  end.

Definition praw_call_comments (r : Reddit) (post_id : pyval)
  : M (option (list PrawComment)) :=
  fun w => (Ret (praw_comments env (praw_log w) r post_id),
            log_praw (CallComments r post_id) w).

Definition fetch_top_comment_praw (post_id : pyval) (subreddit : string)
  : M (option Comment.t) :=
  reddit <- get_reddit_client ;;
  match reddit with
  | None => fetch_top_comment_public post_id subreddit
  | Some r =>
      comments <- praw_call_comments r post_id ;;
      match comments with
      | Some (top_comment :: _) =>
          ret (Some {| Comment.comment_id := PStr (pc_id top_comment);
                       Comment.comment_body :=
                         PStr (String.substring 0 1000 (or_empty (pc_body top_comment)));
                       Comment.comment_score := PInt (pc_score top_comment);
                       Comment.comment_author := author_str (pc_author top_comment) |})
      | Some [] => ret None
      | None => ret None              (* except Exception, then [return None] *)
      end
  end.

(** *** Main API *)

Definition fetch_subreddit_posts {S} (fuel : nat)
           (subreddit time_filter : string) (limit : Z)
           (body : Post.t -> S -> M S) (s : S) : M S :=
  if api_selected
  then fetch_subreddit_posts_praw fuel subreddit time_filter limit body s
  else fetch_subreddit_posts_public fuel subreddit time_filter limit body s.

Definition fetch_top_comment (post_id : pyval) (subreddit : string)
  : M (option Comment.t) :=
  if api_selected
  then fetch_top_comment_praw post_id subreddit
  else fetch_top_comment_public post_id subreddit.

(** [top_comment = fetch_top_comment(post["id"], subreddit)] and the
    conditional [post.update(top_comment)]. *)
Definition enrich (subreddit : string) (post : Post.t) : M Post.t :=
  top_comment <- fetch_top_comment (Post.id post) subreddit ;;
  ret (match top_comment with
       | Some c => Post.update post c
       | None => post
       end).

(** Body of the loop of [fetch_all_posts] over one community's posts. *)
Definition all_posts_body (with_comments : bool) (subreddit : string)
           (post : Post.t) (all_posts : list Post.t) : M (list Post.t) :=
  post' <- (if with_comments then enrich subreddit post else ret post) ;;
  ret (all_posts ++ [post']).

Definition fetch_all_posts (fuel : nat) (with_comments : bool) (limit_per_sub : Z)
  : M (list Post.t) :=
  for_in (SUBREDDITS cfg)
         (fun subreddit all_posts =>
            fetch_subreddit_posts fuel subreddit (TIME_FILTER cfg) limit_per_sub
              (all_posts_body with_comments subreddit) all_posts)
         [].

(** The two nested loops of [fetch_new_posts], for any inner body. *)
Definition day_window_loop {S} (fuel : nat)
           (body : string -> Post.t -> S -> M S) (s : S) : M S :=
  for_in (SUBREDDITS cfg)
         (fun subreddit acc =>
            fetch_subreddit_posts fuel subreddit "day" 100 (body subreddit) acc)
         s.

(** Body of the inner loop of [fetch_new_posts]. *)
Definition new_posts_body (cutoff_time : spec_float) (with_comments : bool)
           (subreddit : string)
           (post : Post.t) (all_posts : list Post.t) : M (list Post.t) :=
  recent <- lift (py_ge_float (Post.created_utc post) cutoff_time) ;;
  if recent : bool then
    post' <- (if with_comments then enrich subreddit post else ret post) ;;
    ret (all_posts ++ [post'])
  else ret all_posts.

(** [now] is the value of [time.time()]. *)
Definition fetch_new_posts (fuel : nat) (now : spec_float) (since_hours : Z)
           (with_comments : bool)
  : M (list Post.t) :=
  cutoff_time <- lift (float_sub_int now (since_hours * 3600)) ;;
  day_window_loop fuel (new_posts_body cutoff_time with_comments) [].

End Fetcher.

(** ** The public wire format

    A well-formed page of the public protocol: a listing object holding
    item wrappers and an optional continuation token; and the two-element
    body of a comment thread. *)

Record Item : Type := {
  it_id : string;
  it_title : string;
  it_selftext : string;
  it_score : Z;
  it_num_comments : Z;
  it_created_utc : Z;
  it_permalink : string;
  it_author : string;
  it_upvote_ratio : pyval
}.

Definition item_json (it : Item) : pyval :=
  PDict [("kind", PStr "t3");
         ("data", PDict [("id", PStr (it_id it));
                         ("title", PStr (it_title it));
                         ("selftext", PStr (it_selftext it));
                         ("score", PInt (it_score it));
                         ("num_comments", PInt (it_num_comments it));
                         ("created_utc", PInt (it_created_utc it));
                         ("permalink", PStr (it_permalink it));
                         ("author", PStr (it_author it));
                         ("upvote_ratio", it_upvote_ratio it)])].

Definition token_json (after : option string) : pyval :=
  match after with
  | Some a => PStr a
  | None => PNone
  end.

Definition page_json (items : list Item) (after : option string) : pyval :=
  PDict [("kind", PStr "Listing");
         ("data", PDict [("after", token_json after);
                         ("children", PList (map item_json items))])].

(** The post the module is expected to build from a well-formed item. *)
Definition post_of_item (subreddit : string) (it : Item) : Post.t :=
  {| Post.id := PStr (it_id it);
     Post.subreddit := subreddit;
     Post.title := PStr (it_title it);
     Post.selftext := PStr (String.substring 0 2000 (it_selftext it));
     Post.score := PInt (it_score it);
     Post.num_comments := PInt (it_num_comments it);
     Post.created_utc := PInt (it_created_utc it);
     Post.created_at :=
       match utc_strftime (it_created_utc it) with
       | Some c => if it_created_utc it =? 0 then PNone else PStr c
       | None => PNone
       end;
     Post.url := ("https://reddit.com" ++ it_permalink it)%string;
     Post.author := PStr (it_author it);
     Post.upvote_ratio := it_upvote_ratio it;
     Post.comment := None |}.

(** [utcfromtimestamp] accepts the item's creation time. *)
Definition item_dated (it : Item) : Prop :=
  utc_strftime (it_created_utc it) <> None.

Definition accepted (cfg : Config) (it : Item) : bool :=
  MIN_SCORE cfg <=? it_score it.

(** A transport that answers the k-th request issued after the history
    [h0] with the k-th element of [responses], whatever is asked. *)
Definition served (env : Env) (h0 : list Request) (responses : list HttpResult) : Prop :=
  forall (h : list Request) (req : Request) (k : nat) (r : HttpResult),
    List.length h = (List.length h0 + k)%nat ->
    nth_error responses k = Some r ->
    http env h req = r.

(** The consumer that collects what a generator yields: [list(gen)]. *)
Definition collect (p : Post.t) (acc : list Post.t) : M (list Post.t) :=
  ret (acc ++ [p]).

(** An environment without PRAW whose endpoint answers from a script, and
    [HttpFail] once the script is exhausted. *)
Definition scripted (responses : list HttpResult) : Env :=
  {| http := fun h _ => nth (List.length h) responses HttpFail;
     praw_Reddit := fun _ => false;
     praw_me := fun _ => false;
     praw_top := fun _ _ _ _ _ => ([], true);
     praw_comments := fun _ _ _ => None;
     repr_container := fun _ => "" |}.

Definition item_scored (score : Z) : Item :=
  {| it_id := ("p" ++ decimal score)%string; it_title := "title"; it_selftext := "text";
     it_score := score; it_num_comments := 3; it_created_utc := 1700000000;
     it_permalink := "/r/vosfinances/comments/x/"; it_author := "alice";
     it_upvote_ratio := PInt 1 |}.

(** ** Predicates on posts *)

(** [score >= MIN_SCORE] holds of the post's score. *)
Definition score_ok (cfg : Config) (p : Post.t) : Prop :=
  py_ge (Post.score p) (MIN_SCORE cfg) = Ret true.

(** [len(v) <= n] *)
Definition len_le (n : Z) (v : pyval) : Prop :=
  exists k, py_len v = Ret k /\ k <= n.

Definition is_str (v : pyval) : Prop := exists s, v = PStr s.

(** A post as a generator hands it over: accepted by the score filter,
    with a capped body, tagged with its community and not yet enriched. *)
Definition fresh_post (cfg : Config) (sub : string) (p : Post.t) : Prop :=
  score_ok cfg p /\ len_le 2000 (Post.selftext p) /\
  Post.comment p = None /\ Post.subreddit p = sub.

Definition comment_ok (c : Comment.t) : Prop :=
  len_le 1000 (Comment.comment_body c).

(** A post as the entry points return it. *)
Definition returned_ok (cfg : Config) (p : Post.t) : Prop :=
  score_ok cfg p /\ len_le 2000 (Post.selftext p) /\
  match Post.comment p with
  | Some c => comment_ok c
  | None => True
  end.

Definition caps_ok (p : Post.t) : Prop :=
  len_le 2000 (Post.selftext p) /\
  match Post.comment p with
  | Some c => len_le 1000 (Comment.comment_body c)
  | None => True
  end.

(** The posts the public loop can hand to its consumer. *)
Definition public_built (env : Env) (cfg : Config) (sub : string) (p : Post.t) : Prop :=
  exists post, public_post env cfg sub post = Ret (Some p).

(** The posts either transport can hand to a consumer. *)
Definition praw_built (cfg : Config) (sub : string) (p : Post.t) : Prop :=
  exists post, praw_post cfg sub post = Ret (Some p).

Definition built (env : Env) (cfg : Config) (sub : string) (p : Post.t) : Prop :=
  public_built env cfg sub p \/ praw_built cfg sub p.

Definition author_or_deleted (author : option string) : string :=
  match author with
  | Some name => name
  | None => "[deleted]"
  end.

(** ** Relations between runs *)

(** [mrel Rw R m1 m2]: started in worlds related by [Rw], the two
    computations end in related worlds with the same kind of outcome, and
    with results related by [R] when they return. *)
Definition rel_out (Rw : World -> World -> Prop) {A B} (R : A -> B -> Prop)
           (o1 : Res A * World) (o2 : Res B * World) : Prop :=
  Rw (snd o1) (snd o2) /\
  match fst o1, fst o2 with
  | Ret a, Ret b => R a b
  | Raise e1, Raise e2 => e1 = e2
  | Timeout, Timeout => True
  | _, _ => False
  end.

Definition mrel (Rw : World -> World -> Prop) {A B} (R : A -> B -> Prop)
           (m1 : M A) (m2 : M B) : Prop :=
  forall w1 w2, Rw w1 w2 -> rel_out Rw R (m1 w1) (m2 w2).

(** Two runs end alike: same outcome, same public requests. *)
Definition same_harvest {A} (o1 o2 : Res A * World) : Prop :=
  fst o1 = fst o2 /\ http_log (snd o1) = http_log (snd o2).

(** The two worlds have issued the same public requests. *)
Definition same_requests (w1 w2 : World) : Prop :=
  http_log w1 = http_log w2.

(** The same, the first world holding no client. *)
Definition same_requests_no_client (w1 w2 : World) : Prop :=
  http_log w1 = http_log w2 /\ reddit_instance w1 = None.

(** The configuration of a process that uses the public transport alone. *)
Definition public_only (cfg : Config) : Config :=
  {| SUBREDDITS := SUBREDDITS cfg;
     MIN_SCORE := MIN_SCORE cfg;
     POSTS_PER_REQUEST := POSTS_PER_REQUEST cfg;
     TIME_FILTER := TIME_FILTER cfg;
     REDDIT_API_ENABLED := false;
     PRAW_AVAILABLE := PRAW_AVAILABLE cfg |}.

Definition map_out {A B} (f : A -> B) (o : Res A * World) : Res B * World :=
  (match fst o with
   | Ret a => Ret (f a)
   | Raise e => Raise e
   | Timeout => Timeout
   end, snd o).

(** How many requests a world has issued beyond another, nothing else
    having changed. *)
Definition issued (n : nat) (w w' : World) : Prop :=
  exists reqs, List.length reqs = n /\
               w' = {| http_log := http_log w ++ reqs;
                       praw_log := praw_log w;
                       reddit_instance := reddit_instance w |}.

(** ** Scripts of pages *)

(** The state of a consumer that computes [f] on each post it is handed. *)
Definition feed {S} (f : Post.t -> S -> S) (posts : list Post.t) (s : S) : S :=
  fold_left (fun s p => f p s) posts s.

(** The posts expected from the items of a page. *)
Definition accepted_posts (cfg : Config) (sub : string) (items : list Item) : list Post.t :=
  map (post_of_item sub) (filter (accepted cfg) items).

(** What ends a script: a page without continuation token, or a request
    that fails. *)
Inductive Ending : Type :=
| LastPage (items : list Item)
| Failure.

Definition page_response (pg : list Item * string) : HttpResult :=
  HttpOk (page_json (fst pg) (Some (snd pg))).

Definition single_page (items : list Item) : HttpResult :=
  HttpOk (page_json items None).

Definition ending_response (e : Ending) : HttpResult :=
  match e with
  | LastPage items => HttpOk (page_json items None)
  | Failure => HttpFail
  end.

Definition ending_items (e : Ending) : list Item :=
  match e with
  | LastPage items => items
  | Failure => []
  end.

Definition script_items (pages : list (list Item * string)) : list Item :=
  List.concat (map fst pages).

Definition count_accepted (cfg : Config) (items : list Item) : Z :=
  Z.of_nat (List.length (filter (accepted cfg) items)).

Definition well_paged (pg : list Item * string) : Prop :=
  fst pg <> [] /\ snd pg <> "".

(** ** What an interrupted listing has yielded *)

(** The posts the listing loop yields from the delivered submissions: the
    accepted ones, up to the first submission whose timestamp makes
    [utcfromtimestamp] raise. *)
Fixpoint praw_yielded (cfg : Config) (sub : string) (listing : list Submission)
  : list Post.t :=
  match listing with
  | [] => []
  | post :: rest =>
      match praw_post cfg sub post with
      | Ret (Some p) => p :: praw_yielded cfg sub rest
      | Ret None => praw_yielded cfg sub rest
      | _ => []
      end
  end.

(** Does the loop run through the delivered submissions. *)
Fixpoint praw_completes (cfg : Config) (sub : string) (listing : list Submission) : bool :=
  match listing with
  | [] => true
  | post :: rest =>
      match praw_post cfg sub post with
      | Ret _ => praw_completes cfg sub rest
      | _ => false
      end
  end.

(** ** The incremental harvest, traced *)

(** A consumer that also records every post it is handed. *)
Definition traced {S} (body : Post.t -> S -> M S)
           (p : Post.t) (st : S * list Post.t) : M (S * list Post.t) :=
  s' <- body p (fst st) ;; ret (s', snd st ++ [p]).

(** [fetch_new_posts] with its inner loop body traced: the returned list
    together with the posts the day-window fetches handed over. *)
Definition fetch_new_posts_traced (env : Env) (cfg : Config) (fuel : nat)
           (now : spec_float) (since_hours : Z) (with_comments : bool)
  : M (list Post.t * list Post.t) :=
  cutoff_time <- lift (float_sub_int now (since_hours * 3600)) ;;
  day_window_loop env cfg fuel
    (fun subreddit =>
       traced (new_posts_body env cfg cutoff_time with_comments subreddit))
    ([], []).

(** The creation time is at or after the cutoff. *)
Definition recent (cutoff : spec_float) (p : Post.t) : bool :=
  match py_ge_float (Post.created_utc p) cutoff with
  | Ret b => b
  | _ => false
  end.

(** What the traced run keeps true: the returned posts, without their
    merged comments, are the recent ones among the posts handed over, and
    all of those passed the score filter. *)
Definition recent_subset (cfg : Config) (cutoff : spec_float)
           (st : list Post.t * list Post.t) : Prop :=
  map Post.bare (fst st) = filter (recent cutoff) (snd st) /\
  Forall (score_ok cfg) (snd st).

(** The recent ones among the accepted posts of a community's page. *)
Definition recent_posts (cfg : Config) (cutoff : spec_float) (sub : string)
           (items : list Item)
  : list Post.t :=
  filter (recent cutoff) (map (post_of_item sub) (filter (accepted cfg) items)).

(** Community by community, in the configured order. *)
Fixpoint day_window_expected (cfg : Config) (cutoff : spec_float)
         (subs : list string) (pages : list (list Item)) : list Post.t :=
  match subs, pages with
  | sub :: subs', items :: pages' =>
      recent_posts cfg cutoff sub items ++ day_window_expected cfg cutoff subs' pages'
  | _, _ => []
  end.

Definition keep_recent (cutoff : spec_float) (p : Post.t) (acc : list Post.t)
  : list Post.t :=
  if recent cutoff p then acc ++ [p] else acc.

(** ** Concrete environments *)

Definition public_cfg : Config := config_py false false.
Definition praw_cfg : Config := config_py true true.

Definition page_one : list Item * string :=
  ([item_scored 50; item_scored 5; item_scored 20], "abc").

(** The example of the specification: scores 50, 5, 20 and the token
    "abc", then one item of score 8 and no token. *)
Definition spec_env : Env :=
  scripted [page_response page_one; HttpOk (page_json [item_scored 8] None)].

(** A full first page: a hundred items of scores 10 to 109 and a token. *)
Definition full_page : list Item * string :=
  (map (fun n => item_scored (Z.of_nat n + 10)) (seq 0 100), "abc").

(** The full page, followed by a last page holding a score of 30. *)
Definition more_env : Env :=
  scripted [page_response full_page; HttpOk (page_json [item_scored 30] None)].

(** The first page, then a request that fails. *)
Definition broken_env : Env :=
  scripted [page_response page_one; HttpFail].

Definition comment_json (cid text author : pyval) (score : Z) : pyval :=
  PDict [("kind", PStr "t1");
         ("data", PDict [("id", cid); ("body", text);
                         ("score", PInt score); ("author", author)])].

(** The two-element body of a comment thread. *)
Definition thread_json (comments : list pyval) : pyval :=
  PList [PDict [("kind", PStr "Listing"); ("data", PDict [("children", PList [])])];
         PDict [("kind", PStr "Listing"); ("data", PDict [("children", PList comments)])]].

(** An endpoint that answers by the request alone: [items] for the
    listing of "vosfinances", an empty page for any other community, and
    [thread] for every comment thread. *)
Definition web (items : list pyval) (thread : HttpResult) (req : Request) : HttpResult :=
  match req with
  | TopPage sub _ _ _ =>
      if (sub =? "vosfinances")%string
      then HttpOk (PDict [("kind", PStr "Listing");
                          ("data", PDict [("after", PNone); ("children", PList items)])])
      else HttpOk (page_json [] None)
  | CommentThread _ _ => thread
  end.

Definition example_env (connect me : bool) (listing : list Submission * bool)
           (comments : option (list PrawComment)) (answer : Request -> HttpResult) : Env :=
  {| http := fun _ req => answer req;
     praw_Reddit := fun _ => connect;
     praw_me := fun _ => me;
     praw_top := fun _ _ _ _ _ => listing;
     praw_comments := fun _ _ _ => comments;
     repr_container := fun _ => "" |}.

Definition a_thread : HttpResult :=
  HttpOk (thread_json [comment_json (PStr "c1") (PStr "nice") (PStr "bob") 7]).

Definition a_comment : Comment.t :=
  {| Comment.comment_id := PStr "c1";
     Comment.comment_body := PStr "nice";
     Comment.comment_score := PInt 7;
     Comment.comment_author := PStr "bob" |}.

Definition commented_env : Env :=
  example_env false false ([], true) None (web [item_json (item_scored 50)] a_thread).

(** The client is obtained, every listing request raises at once and every
    comment request raises; the public endpoint serves one post and its
    top comment. *)
Definition raising_env : Env :=
  example_env true true ([], true) None (web [item_json (item_scored 50)] a_thread).

(** The constructor returns, the connection test raises. *)
Definition unauthenticated_env : Env :=
  example_env true false ([], true) None (web [item_json (item_scored 50)] a_thread).

(** The constructor raises. *)
Definition unreachable_env : Env :=
  example_env false false ([], true) None (web [item_json (item_scored 50)] a_thread).

(** A listing object where the two-element thread is expected. *)
Definition listing_thread : HttpResult :=
  HttpOk (PDict [("kind", PStr "Listing"); ("data", PDict [("children", PList [])])]).

Definition misshapen_env : Env :=
  example_env false false ([], true) None (web [item_json (item_scored 50)] listing_thread).

(** An endpoint whose every page holds one post under the minimum score
    and a continuation token. *)
Definition endless_env : Env :=
  example_env false false ([], true) None
              (fun _ => HttpOk (page_json [item_scored 5] (Some "next"))).

(** A page whose list of children holds [null]. *)
Definition null_child_env : Env :=
  example_env false false ([], true) None (web [PNone] a_thread).

Definition submission_50 : Submission :=
  {| sub_id := "p50"; sub_title := "title"; sub_selftext := Some "text";
     sub_score := 50; sub_num_comments := 3; sub_created_utc := 1700000000;
     sub_permalink := "/r/vosfinances/comments/x/"; sub_author := Some "alice";
     sub_upvote_ratio := PInt 1 |}.

(** The authenticated listing delivers the post of score 50 and raises;
    the public endpoint holds the posts of scores 50 and 20. *)
Definition interrupted_env : Env :=
  example_env true true ([submission_50], true) None
              (web [item_json (item_scored 50); item_json (item_scored 20)] a_thread).

Definition connected : World :=
  {| http_log := []; praw_log := [CallReddit; CallMe {| serial := 0 |}];
     reddit_instance := Some {| serial := 0 |} |}.

Definition anonymous_item : pyval :=
  PDict [("kind", PStr "t3");
         ("data", PDict [("id", PStr "p1"); ("title", PStr "title"); ("score", PInt 50)])].

Definition anonymous_thread : HttpResult :=
  HttpOk (thread_json [PDict [("kind", PStr "t1");
                              ("data", PDict [("id", PStr "c1"); ("body", PStr "nice")])]]).

(** A public page item and a public comment without an "author" key. *)
Definition anonymous_env : Env :=
  example_env false false ([], true) None (web [anonymous_item] anonymous_thread).

Definition anonymous_post : Post.t :=
  {| Post.id := PStr "p1";
     Post.subreddit := "vosfinances";
     Post.title := PStr "title";
     Post.selftext := PStr "";
     Post.score := PInt 50;
     Post.num_comments := PInt 0;
     Post.created_utc := PInt 0;
     Post.created_at := PNone;
     Post.url := "https://reddit.comNone";
     Post.author := PNone;
     Post.upvote_ratio := PInt 0;
     Post.comment := Some {| Comment.comment_id := PStr "c1";
                             Comment.comment_body := PStr "nice";
                             Comment.comment_score := PInt 0;
                             Comment.comment_author := PNone |} |}.

Definition item_at (score created : Z) : Item :=
  {| it_id := ("p" ++ decimal score)%string; it_title := "title"; it_selftext := "text";
     it_score := score; it_num_comments := 3; it_created_utc := created;
     it_permalink := "/r/vosfinances/comments/x/"; it_author := "alice";
     it_upvote_ratio := PInt 1 |}.

(** One day-window page per configured community; the first holds posts
    created after, before and exactly at the cutoff of the run below, and
    one post under the minimum score. *)
Definition day_pages : list (list Item) :=
  [[item_at 50 1700010000; item_at 40 1700000000;
    item_at 5 1700050000; item_at 20 1700003600];
   []; []; []; []].

Definition day_env : Env := scripted (map single_page day_pages).

(** * Further definitions *)

(** ** What a computation does to the world *)

(** [keeps P m]: wherever [m] starts, the world it ends in is related by
    [P] to the one it started in. *)
Definition keeps (P : World -> World -> Prop) {A} (m : M A) : Prop :=
  forall w, P w (snd (m w)).

(** The requests a world has issued beyond another all satisfy [ok]. *)
Definition requests_since (ok : Request -> Prop) (w w' : World) : Prop :=
  exists reqs, http_log w' = http_log w ++ reqs /\ Forall ok reqs.

(** A request [fetch_all_posts] may issue: a listing page of a configured
    community, with the configured time filter and a page size between 1
    and 100 that does not exceed the limit, or, when comments are asked
    for, the comment thread of a post of a configured community. *)
Definition harvest_request (cfg : Config) (time_filter : string) (with_comments : bool)
           (limit : Z) (req : Request) : Prop :=
  match req with
  | TopPage sub tf page_size _ =>
      In sub (SUBREDDITS cfg) /\ tf = time_filter /\
      1 <= page_size <= 100 /\ page_size <= limit
  | CommentThread sub _ => with_comments = true /\ In sub (SUBREDDITS cfg)
  end.

(** PRAW calls other than the construction of a client and its test. *)
Definition quiet_call (c : PrawCall) : Prop :=
  match c with
  | CallReddit | CallMe _ => False
  | _ => True
  end.

(** The client [r] is cached in [w'], and nothing has constructed or
    tested a client since [w]. *)
Definition kept_quietly (r : Reddit) (w w' : World) : Prop :=
  reddit_instance w' = Some r /\
  exists calls, praw_log w' = praw_log w ++ calls /\ Forall quiet_call calls.

Definition client_kept (r : Reddit) (w w' : World) : Prop :=
  reddit_instance w = Some r -> kept_quietly r w w'.

(** PRAW is left alone. *)
Definition praw_untouched (w w' : World) : Prop :=
  praw_log w' = praw_log w /\ reddit_instance w' = reddit_instance w.

(** [bool(REDDIT_CLIENT_ID and REDDIT_CLIENT_SECRET)], on the two values
    [os.getenv] returns. *)
Definition reddit_api_enabled (client_id client_secret : option string) : bool :=
  match client_id, client_secret with
  | Some i, Some s => negb (i =? "")%string && negb (s =? "")%string
  | _, _ => false
  end.

(** ** Pages that are requested *)

(** Each of the pages is requested: fewer than [limit] posts have been
    accepted, [total] before them, when its turn comes. *)
Fixpoint requested (cfg : Config) (limit total : Z) (pages : list (list Item * string))
  : Prop :=
  match pages with
  | [] => True
  | pg :: rest =>
      total < limit /\ requested cfg limit (total + count_accepted cfg (fst pg)) rest
  end.

(** The continuation token in hand after the pages. *)
Definition last_token (after : pyval) (pages : list (list Item * string)) : pyval :=
  fold_left (fun _ pg => PStr (snd pg)) pages after.

(** The list of item wrappers of a parsed page, as the loop reads it. *)
Definition children_of (data : pyval) : Res pyval :=
  listing <~ py_get data "data" (PDict []) ;;
  py_get listing "children" (PList []).

(** ** Further concrete environments *)

(** The first page of the specification's example, then an answer that is
    an empty JSON object. *)
Definition emptied_env : Env :=
  scripted [page_response page_one; HttpOk (PDict [])].

(** The post built from an item that has a score and nothing else. *)
Definition default_post (subreddit : string) (score : pyval) : Post.t :=
  {| Post.id := PNone;
     Post.subreddit := subreddit;
     Post.title := PNone;
     Post.selftext := PStr "";
     Post.score := score;
     Post.num_comments := PInt 0;
     Post.created_utc := PInt 0;
     Post.created_at := PNone;
     Post.url := "https://reddit.comNone";
     Post.author := PNone;
     Post.upvote_ratio := PInt 0;
     Post.comment := None |}.

(** The keys of an item, other than "score", that the loop reads. *)
Definition optional_keys : list string :=
  ["created_utc"; "id"; "title"; "selftext"; "num_comments"; "permalink";
   "author"; "upvote_ratio"].

(** ** The full harvest, traced and against a script *)

(** [fetch_all_posts] with its inner loop body traced: the returned list
    together with the posts the generators handed over. *)
Definition fetch_all_posts_traced (env : Env) (cfg : Config) (fuel : nat)
           (with_comments : bool) (limit_per_sub : Z)
  : M (list Post.t * list Post.t) :=
  for_in (SUBREDDITS cfg)
         (fun subreddit st =>
            fetch_subreddit_posts env cfg fuel subreddit (TIME_FILTER cfg) limit_per_sub
              (traced (all_posts_body env cfg with_comments subreddit)) st)
         ([], []).

(** What the endpoint answers during one community's fetch: pages that
    carry a token, then a page without token or a failure. *)
Definition Exchange : Type := (list (list Item * string) * Ending)%type.

Definition exchange_responses (ex : Exchange) : list HttpResult :=
  map page_response (fst ex) ++ [ending_response (snd ex)].

Definition exchange_items (ex : Exchange) : list Item :=
  script_items (fst ex) ++ ending_items (snd ex).

(** The pages are non-empty, the items well formed, the limit is not
    reached before the ending and the fuel suffices. *)
Definition exchange_ok (cfg : Config) (limit : Z) (fuel : nat) (ex : Exchange) : Prop :=
  Forall well_paged (fst ex) /\
  Forall item_dated (exchange_items ex) /\
  count_accepted cfg (script_items (fst ex)) < limit /\
  (List.length (fst ex) < fuel)%nat.

(** The accepted posts, community by community in the given order. *)
Fixpoint harvest_expected (cfg : Config) (subs : list string) (exs : list Exchange)
  : list Post.t :=
  match subs, exs with
  | sub :: subs', ex :: exs' =>
      accepted_posts cfg sub (exchange_items ex) ++ harvest_expected cfg subs' exs'
  | _, _ => []
  end.

(** Two pages for the first community, a failure for the second, one page
    for the third and empty pages for the last two. *)
Definition harvest_exchanges : list Exchange :=
  [([page_one], LastPage [item_scored 8]);
   ([], Failure);
   ([], LastPage [item_scored 30]);
   ([], LastPage []);
   ([], LastPage [])].

Definition harvest_env : Env :=
  scripted (List.concat (map exchange_responses harvest_exchanges)).



(** ** [config.py]: community names *)

Definition newline : string := String "010"%char EmptyString.

Definition in_range (lo hi c : ascii) : bool :=
  (nat_of_ascii lo <=? nat_of_ascii c)%nat && (nat_of_ascii c <=? nat_of_ascii hi)%nat.

(** The class [[a-zA-Z0-9_]]. *)
Definition name_char (c : ascii) : bool :=
  in_range "a" "z" c || in_range "A" "Z" c || in_range "0" "9" c || (c =? "_")%char.

(** [cls{lo,hi}] followed by the rest [k] of the pattern, as the
    backtracking matcher tries it: one more character of the class first,
    the rest of the pattern here when that fails and [lo] is reached. *)
Fixpoint repeat_class (cls : ascii -> bool) (lo hi : nat) (k : string -> bool)
         (s : string) : bool :=
  match hi with
  | O => (lo =? 0)%nat && k s
  | Datatypes.S hi' =>
      match s with
      | String c rest =>
          if cls c
          then repeat_class cls (Nat.pred lo) hi' k rest || ((lo =? 0)%nat && k s)
          else (lo =? 0)%nat && k s
      | EmptyString => (lo =? 0)%nat && k s
      end
  end.

(** [$] without [re.MULTILINE]: the end of the string, or just before a
    newline that ends the string. *)
Definition dollar (s : string) : bool := (s =? "")%string || (s =? newline)%string.

(** [bool(re.match(r'^[a-zA-Z0-9_]{3,21}$', name))] *)
Definition validate_subreddit_name (name : string) : bool :=
  repeat_class name_char 3 21 dollar name.

Definition _raw_subreddits : list string :=
  ["vosfinances"; "vossous"; "Bogleheads"; "eupersonalfinance"; "ETFs_Europe"].

Fixpoint string_forall (cls : ascii -> bool) (s : string) : bool :=
  match s with
  | EmptyString => true
  | String c rest => cls c && string_forall cls rest
  end.

(** ** The record store read by [recategorize_autre.py],
       [enrich_existing.py] and [dashboard.py]

    The three scripts read the same endpoint page by page.  A request is
    its [params]; the store answers given the requests received so far,
    or the request raises.  The scripts thread the log of requests. *)

Record Query : Type := {
  q_limit : Z;
  q_offset : Z;
  q_where : option string
}.

Record Response : Type := {
  status_code : Z;
  json : Res pyval            (* [r.json()] *)
}.

Definition Store : Type := list Query -> Query -> Res Response.

(** What the three loops do with an answer:
    [records = r.json().get("list", [])], [if not records: break],
    [all_records.extend(records)], and [len(records)] for the last test. *)
Definition read_page (r : Response) : Res (option (list pyval * Z)) :=
  data <~ json r ;;
  records <~ py_get data "list" (PList []) ;;
  if truthy records
  then items <~ py_iter records ;; n <~ py_len records ;; Ret (Some (items, n))
  else Ret None.

(** [recategorize_autre.get_autre_posts] *)
Fixpoint get_autre_posts_loop (db : Store) (fuel : nat) (offset : Z)
         (all_records : list pyval) (log : list Query)
  : Res (list pyval) * list Query :=
  match fuel with
  | O => (Timeout, log)
  | Datatypes.S fuel' =>
      let params := {| q_limit := 100; q_offset := offset;
                       q_where := Some "(category,eq,Autre)" |} in
      match r <~ db log params ;; read_page r with
      | Ret None => (Ret all_records, log ++ [params])
      | Ret (Some (items, n)) =>
          if n <? 100 then (Ret (all_records ++ items), log ++ [params])
          else get_autre_posts_loop db fuel' (offset + 100) (all_records ++ items)
                                    (log ++ [params])
      | Raise e => (Raise e, log ++ [params])
      | Timeout => (Timeout, log ++ [params])
      end
  end.

Definition get_autre_posts (db : Store) (fuel : nat) (log : list Query)
  : Res (list pyval) * list Query :=
  get_autre_posts_loop db fuel 0 [] log.

(** [enrich_existing.get_db_posts_needing_update]: the same loop without
    [where], then the comprehension. *)
Fixpoint get_db_posts_loop (db : Store) (fuel : nat) (limit offset : Z)
         (all_records : list pyval) (log : list Query)
  : Res (list pyval) * list Query :=
  match fuel with
  | O => (Timeout, log)
  | Datatypes.S fuel' =>
      let params := {| q_limit := limit; q_offset := offset; q_where := None |} in
      match r <~ db log params ;; read_page r with
      | Ret None => (Ret all_records, log ++ [params])
      | Ret (Some (items, n)) =>
          if n <? limit then (Ret (all_records ++ items), log ++ [params])
          else get_db_posts_loop db fuel' limit (offset + limit) (all_records ++ items)
                                 (log ++ [params])
      | Raise e => (Raise e, log ++ [params])
      | Timeout => (Timeout, log ++ [params])
      end
  end.

(** [not r.get("extracted_data") or not r.get("montant_max")] *)
Definition needs_update (r : pyval) : Res bool :=
  extracted <~ py_get r "extracted_data" PNone ;;
  if truthy extracted
  then montant <~ py_get r "montant_max" PNone ;; Ret (negb (truthy montant))
  else Ret true.

Fixpoint keep_needing_update (all_records : list pyval) : Res (list pyval) :=
  match all_records with
  | [] => Ret []
  | r :: rest =>
      keep <~ needs_update r ;;
      kept <~ keep_needing_update rest ;;
      Ret (if keep then r :: kept else kept)
  end.

Definition get_db_posts_needing_update (db : Store) (fuel : nat) (log : list Query)
  : Res (list pyval) * list Query :=
  match get_db_posts_loop db fuel 100 0 [] log with
  | (Ret all_records, log') => (keep_needing_update all_records, log')
  | other => other
  end.

(** [dashboard.fetch_posts], without the cache of its decorator: nothing
    is requested when the token or the table id is unset or empty, and an
    answer whose status is not 200 ends the loop. *)
Definition unset (v : option string) : bool :=
  match v with
  | None => true
  | Some s => (s =? "")%string
  end.

Fixpoint fetch_posts_loop (db : Store) (fuel : nat) (offset : Z)
         (all_posts : list pyval) (log : list Query)
  : Res (list pyval) * list Query :=
  match fuel with
  | O => (Timeout, log)
  | Datatypes.S fuel' =>
      let params := {| q_limit := 1000; q_offset := offset; q_where := None |} in
      match db log params with
      | Ret response =>
          if negb (status_code response =? 200) then (Ret all_posts, log ++ [params])
          else
            match read_page response with
            | Ret None => (Ret all_posts, log ++ [params])
            | Ret (Some (items, n)) =>
                if n <? 1000 then (Ret (all_posts ++ items), log ++ [params])
                else fetch_posts_loop db fuel' (offset + 1000) (all_posts ++ items)
                                      (log ++ [params])
            | Raise e => (Raise e, log ++ [params])
            | Timeout => (Timeout, log ++ [params])
            end
      | Raise e => (Raise e, log ++ [params])
      | Timeout => (Timeout, log ++ [params])
      end
  end.

Definition fetch_posts (NOCODB_API_TOKEN NOCODB_TABLE_ID : option string)
           (db : Store) (fuel : nat) (log : list Query)
  : Res (list pyval) * list Query :=
  if unset NOCODB_API_TOKEN || unset NOCODB_TABLE_ID then (Ret [], log)
  else fetch_posts_loop db fuel 0 [] log.

(** A store that holds, for each [where] clause, the records it selects,
    and answers every request with the slice asked for. *)
Definition page_of (records : list pyval) (q : Query) : list pyval :=
  firstn (Z.to_nat (q_limit q)) (skipn (Z.to_nat (q_offset q)) records).

Definition holds (db : Store) (view : option string -> list pyval) : Prop :=
  forall log q,
  exists r data,
    db log q = Ret r /\ status_code r = 200 /\ json r = Ret data /\
    py_get data "list" (PList []) = Ret (PList (page_of (view (q_where q)) q)).

Definition mk_query (page : nat) (where_ : option string) (offset : Z) : Query :=
  {| q_limit := Z.of_nat page; q_offset := offset; q_where := where_ |}.

(** The requests of a complete reading of [n] records by pages of [page]. *)
Definition reading (page : nat) (where_ : option string) (n : nat) : list Query :=
  map (fun i => mk_query page where_ (Z.of_nat page * Z.of_nat i))
      (seq 0 (n / page + 1)).

Definition is_dict (v : pyval) : Prop :=
  match v with PDict _ => True | _ => False end.

(** [not r.get(k)] on a dictionary. *)
Definition lacks (k : string) (r : pyval) : bool :=
  match r with
  | PDict kv => match assoc k kv with Some v => negb (truthy v) | None => true end
  | _ => false
  end.

Definition table_store (view : option string -> list pyval) : Store :=
  fun _ q =>
    Ret {| status_code := 200;
           json := Ret (PDict [("list", PList (page_of (view (q_where q)) q));
                               ("pageInfo", PDict [])]) |}.

(** An answer that carries an error message and no records. *)
Definition refusing_store (status : Z) : Store :=
  fun _ _ =>
    Ret {| status_code := status;
           json := Ret (PDict [("msg", PStr "Authentication required")]) |}.

Definition record (n : Z) (extracted montant : pyval) : pyval :=
  PDict [("Id", PInt n); ("extracted_data", extracted); ("montant_max", montant)].

Definition small_view (where_ : option string) : list pyval :=
  match where_ with
  | None => [record 1 (PStr "{}") (PInt 1500); record 2 (PStr "") PNone;
             record 3 (PStr "{}") PNone]
  | Some _ => [record 2 (PStr "") PNone]
  end.

Definition wide_view (where_ : option string) : list pyval :=
  repeat (record 1 PNone PNone) 150.

(** ** Dictionaries keyed by values

    [load_all_raw_posts] and the category count of [run_grepr] build
    dictionaries whose keys are values read from the posts.  A key is kept
    up to Python equality of hashable values ([True] and [1] are one key);
    lists and dictionaries are unhashable.  Bindings are in insertion
    order. *)

Inductive Key : Type :=
| KNone
| KNum (z : Z)
| KStr (s : string).

Definition key_eqb (a b : Key) : bool :=
  match a, b with
  | KNone, KNone => true
  | KNum x, KNum y => x =? y
  | KStr s, KStr t => (s =? t)%string
  | _, _ => false
  end.

(** [hash(v)] *)
Definition py_hash (v : pyval) : Res Key :=
  match v with
  | PNone => Ret KNone
  | PBool b => Ret (KNum (bool_int b))
  | PInt z => Ret (KNum z)
  | PStr s => Ret (KStr s)
  | PList _ | PDict _ => Raise TypeError
  end.

Fixpoint lookup {V} (k : Key) (d : list (Key * V)) : option V :=
  match d with
  | [] => None
  | (k', v) :: rest => if key_eqb k' k then Some v else lookup k rest
  end.

(** [d[k] = v] *)
Fixpoint store {V} (k : Key) (v : V) (d : list (Key * V)) : list (Key * V) :=
  match d with
  | [] => [(k, v)]
  | (k', v') :: rest => if key_eqb k' k then (k', v) :: rest else (k', v') :: store k v rest
  end.

(** *** [enrich_existing.load_all_raw_posts] *)

(** The body of [for post in posts]. *)
Definition add_post (post : pyval) (all_posts : list (Key * pyval))
  : Res (list (Key * pyval)) :=
  reddit_id <~ py_get post "id" PNone ;;
  if truthy reddit_id
  then
    k <~ py_hash reddit_id ;;
    match lookup k all_posts with
    | Some _ => Ret all_posts
    | None => Ret (store k post all_posts)
    end
  else Ret all_posts.

Fixpoint add_posts (posts : list pyval) (all_posts : list (Key * pyval))
  : Res (list (Key * pyval)) :=
  match posts with
  | [] => Ret all_posts
  | post :: rest => all_posts' <~ add_post post all_posts ;; add_posts rest all_posts'
  end.

(** The two file formats; [None] is the [continue]. *)
Definition file_posts (data : pyval) : option pyval :=
  match data with
  | PDict kv => assoc "posts" kv
  | PList _ => Some data
  | _ => None
  end.

(** [files]: what [json.load] gives for each file, in the order of
    [DATA_DIR.glob]. *)
Fixpoint load_all_raw_posts_from (files : list (Res pyval)) (all_posts : list (Key * pyval))
  : Res (list (Key * pyval)) :=
  match files with
  | [] => Ret all_posts
  | file :: rest =>
      data <~ file ;;
      match file_posts data with
      | Some posts =>
          items <~ py_iter posts ;;
          all_posts' <~ add_posts items all_posts ;;
          load_all_raw_posts_from rest all_posts'
      | None => load_all_raw_posts_from rest all_posts
      end
  end.

Definition load_all_raw_posts (files : list (Res pyval)) : Res (list (Key * pyval)) :=
  load_all_raw_posts_from files [].

(** The key under which a post is filed, if any: its truthy ["id"]. *)
Definition id_key (post : pyval) : option Key :=
  match post with
  | PDict kv =>
      match assoc "id" kv with
      | Some v => if truthy v then
                    match py_hash v with Ret k => Some k | _ => None end
                  else None
      | None => None
      end
  | _ => None
  end.

(** An object whose ["id"], when truthy, is hashable. *)
Definition post_ok (post : pyval) : Prop :=
  match post with
  | PDict kv =>
      match assoc "id" kv with
      | Some (PList (_ :: _)) | Some (PDict (_ :: _)) => False
      | _ => True
      end
  | _ => False
  end.

(** A file that loads and holds the posts [posts] in one of the two
    formats, or has another shape and holds none. *)
Definition file_holds (file : Res pyval) (posts : list pyval) : Prop :=
  file = Ret (PList posts) \/
  (exists kv, file = Ret (PDict kv) /\ assoc "posts" kv = Some (PList posts)) \/
  (posts = [] /\ exists data, file = Ret data /\ file_posts data = None).

(** What one post does to the dictionary when nothing raises. *)
Definition file_post (all_posts : list (Key * pyval)) (post : pyval) : list (Key * pyval) :=
  match id_key post with
  | Some k => match lookup k all_posts with
              | Some _ => all_posts
              | None => store k post all_posts
              end
  | None => all_posts
  end.

Definition filed_under (k : Key) (post : pyval) : bool :=
  match id_key post with
  | Some k' => key_eqb k' k
  | None => false
  end.

Definition raw_post (id_ : pyval) (title_ : string) : pyval :=
  PDict [("id", id_); ("title", PStr title_)].

Definition raw_files : list (Res pyval) :=
  [Ret (PDict [("metadata", PDict []);
               ("posts", PList [raw_post (PStr "a") "first"; raw_post PNone "no id"])]);
   Ret (PStr "notes");
   Ret (PList [raw_post (PStr "a") "second"; raw_post (PStr "b") "third"])].

(** *** The category count of [main.run_grepr] *)

(** [cat = post.get("category", "Autre")] and
    [categories[cat] = categories.get(cat, 0) + 1] *)
Definition count_post (post : pyval) (categories : list (Key * Z)) : Res (list (Key * Z)) :=
  cat <~ py_get post "category" (PStr "Autre") ;;
  k <~ py_hash cat ;;
  Ret (store k (match lookup k categories with Some n => n | None => 0 end + 1) categories).

Fixpoint count_categories (posts : list pyval) (categories : list (Key * Z))
  : Res (list (Key * Z)) :=
  match posts with
  | [] => Ret categories
  | post :: rest =>
      categories' <~ count_post post categories ;; count_categories rest categories'
  end.

Definition category_breakdown (posts : list pyval) : Res (list (Key * Z)) :=
  count_categories posts [].

(** The key a post is counted under, when it has one. *)
Definition category_key (post : pyval) : option Key :=
  match post with
  | PDict kv =>
      match py_hash (match assoc "category" kv with Some v => v | None => PStr "Autre" end) with
      | Ret k => Some k
      | _ => None
      end
  | _ => None
  end.

Definition counted_under (k : Key) (post : pyval) : bool :=
  match category_key post with
  | Some k' => key_eqb k' k
  | None => false
  end.

(** [categories.get(k, 0)] *)
Definition get_count (k : Key) (categories : list (Key * Z)) : Z :=
  match lookup k categories with Some n => n | None => 0 end.

Definition sum_counts (categories : list (Key * Z)) : Z :=
  fold_right Z.add 0 (map snd categories).

Definition uncategorized (n : nat) : list pyval :=
  repeat (PDict [("id", PStr "p"); ("score", PInt 12)]) n.

(** ** Leaving a generator: [main.quick_test]

    [quick_test] leaves its [for] loop over [fetch_subreddit_posts] with
    [break]: the generator is abandoned where it stands and runs no
    further.  The generators are given again for a loop body that tells
    whether the consumer goes on ([Next]) or leaves ([Stop]). *)

Inductive Flow (S : Type) : Type :=
| Next (s : S)
| Stop (s : S).

Section Leaving.

Variable env : Env.
Variable cfg : Config.

Fixpoint public_for_break {S} (subreddit : string) (posts : list pyval)
         (body : Post.t -> S -> M (Flow S)) (s : S) (total_fetched : Z) : M (Flow S * Z) :=
  match posts with
  | [] => ret (Next s, total_fetched)
  | post :: rest =>
      built <- lift (public_post env cfg subreddit post) ;;
      match built with
      | Some p =>
          flow <- body p s ;;                                 (* yield *)
          match flow with
          | Next s' => public_for_break subreddit rest body s' (total_fetched + 1)
          | Stop s' => ret (Stop s', total_fetched)
          end
      | None => public_for_break subreddit rest body s total_fetched
      end
  end.

Fixpoint public_loop_break {S} (fuel : nat) (subreddit time_filter : string) (limit : Z)
         (after : pyval) (total_fetched : Z)
         (body : Post.t -> S -> M (Flow S)) (s : S) : M S :=
  match fuel with
  | O => lift Timeout
  | Datatypes.S fuel' =>
      if total_fetched <? limit then
        response <- try_except
                      (data <- requests_get env
                                 (page_request subreddit time_filter limit after total_fetched) ;;
                       ret (Some data))
                      (fun e => if is_RequestException e then Some (ret None) else None) ;;
        match response with
        | None => ret s
        | Some data =>
            listing <- lift (py_get data "data" (PDict [])) ;;
            posts <- lift (py_get listing "children" (PList [])) ;;
            if negb (truthy posts) then ret s
            else
              items <- lift (py_iter posts) ;;
              '(flow, total') <- public_for_break subreddit items body s total_fetched ;;
              match flow with
              | Stop s' => ret s'                             (* the consumer left *)
              | Next s' =>
                  listing' <- lift (py_get data "data" (PDict [])) ;;
                  after' <- lift (py_get listing' "after" PNone) ;;
                  if negb (truthy after') then ret s'
                  else public_loop_break fuel' subreddit time_filter limit after' total'
                                         body s'
              end
        end
      else ret s
  end.

Definition fetch_subreddit_posts_public_break {S} (fuel : nat)
           (subreddit time_filter : string) (limit : Z)
           (body : Post.t -> S -> M (Flow S)) (s : S) : M S :=
  public_loop_break fuel subreddit time_filter limit PNone 0 body s.

(** [Some true]: the loop ran through the delivered submissions;
    [Some false]: an exception was raised inside the block; [None]: the
    consumer left. *)
Fixpoint praw_for_break {S} (subreddit : string) (listing : list Submission)
         (body : Post.t -> S -> M (Flow S)) (s : S) : M (option bool * S) :=
  match listing with
  | [] => ret (Some true, s)
  | post :: rest =>
      match praw_post cfg subreddit post with
      | Ret (Some p) =>
          flow <- body p s ;;                                 (* yield *)
          match flow with
          | Next s' => praw_for_break subreddit rest body s'
          | Stop s' => ret (None, s')
          end
      | Ret None => praw_for_break subreddit rest body s
      | _ => ret (Some false, s)
      end
  end.

Definition fetch_subreddit_posts_praw_break {S} (fuel : nat)
           (subreddit time_filter : string) (limit : Z)
           (body : Post.t -> S -> M (Flow S)) (s : S) : M S :=
  reddit <- get_reddit_client env cfg ;;
  match reddit with
  | None => fetch_subreddit_posts_public_break fuel subreddit time_filter limit body s
  | Some r =>
      '(listing, fails) <- praw_call_top env r subreddit time_filter limit ;;
      '(ended, s') <- praw_for_break subreddit listing body s ;;
      match ended with
      | None => ret s'                                        (* the consumer left *)
      | Some completed =>
          if completed && negb fails then ret s'
          else fetch_subreddit_posts_public_break fuel subreddit time_filter limit body s'
      end
  end.

Definition fetch_subreddit_posts_break {S} (fuel : nat)
           (subreddit time_filter : string) (limit : Z)
           (body : Post.t -> S -> M (Flow S)) (s : S) : M S :=
  if api_selected cfg
  then fetch_subreddit_posts_praw_break fuel subreddit time_filter limit body s
  else fetch_subreddit_posts_public_break fuel subreddit time_filter limit body s.

(** [posts.append(post)], the [print] that slices the title, and
    [if len(posts) >= 5: break]. *)
Definition quick_test_body (post : Post.t) (posts : list Post.t) : M (Flow (list Post.t)) :=
  _ <- lift (py_slice (Post.title post) 60) ;;
  ret (if 5 <=? Z.of_nat (List.length (posts ++ [post]))
       then Stop (posts ++ [post])
       else Next (posts ++ [post])).

Definition quick_test (fuel : nat) : M (list Post.t) :=
  fetch_subreddit_posts_break fuel "vosfinances" (TIME_FILTER cfg) 5 quick_test_body [].

End Leaving.

(** A consumer that never leaves. *)
Definition staying {S} (body : Post.t -> S -> M S) (p : Post.t) (s : S) : M (Flow S) :=
  s' <- body p s ;; ret (Next s').

(** Seven items above the threshold on a page that announces more. *)
Definition long_page : list Item * string :=
  (map (fun n => item_scored (Z.of_nat n + 10)) (seq 0 7), "abc").

Definition long_env : Env :=
  scripted [page_response long_page; HttpOk (page_json [item_scored 30] None)].

(** ** Day windows served by the request alone *)

(** The endpoint answers the listing of [sub] by the request alone,
    whatever was asked before and whatever page size is asked: the request
    without token with the first page, the request that carries a page's
    token with the next page, the request after the last page with the
    ending. *)
Fixpoint paged (env : Env) (sub tf : string) (after : option pyval)
         (pages : list (list Item * string)) (e : Ending) : Prop :=
  match pages with
  | [] => forall h size, http env h (TopPage sub tf size after) = ending_response e
  | pg :: rest =>
      (forall h size, http env h (TopPage sub tf size after) = page_response pg) /\
      paged env sub tf (Some (PStr (snd pg))) rest e
  end.

(** What [fetch_top_comment_public] reads in an answer. *)
Definition thread_comment (r : HttpResult) : Res (option Comment.t) :=
  match r with
  | HttpOk data => top_comment_of data
  | HttpFail => Ret None
  end.

(** Every comment thread is answered by the request alone, by a failure
    or a body in which the module reads [comments]. *)
Definition threads (env : Env) (comments : string -> pyval -> option Comment.t) : Prop :=
  forall h sub post_id,
    thread_comment (http env h (CommentThread sub post_id)) = Ret (comments sub post_id).

(** The post as [fetch_new_posts] appends it. *)
Definition enriched (with_comments : bool) (top : pyval -> option Comment.t)
           (p : Post.t) : Post.t :=
  if with_comments
  then match top (Post.id p) with
       | Some c => Post.update p c
       | None => p
       end
  else p.

Definition keep_enriched (cutoff : spec_float) (with_comments : bool)
           (top : pyval -> option Comment.t) (p : Post.t) (acc : list Post.t)
  : list Post.t :=
  if recent cutoff p then acc ++ [enriched with_comments top p] else acc.

(** The recent accepted posts with their top comments, community by
    community. *)
Fixpoint new_posts_expected (cfg : Config) (cutoff : spec_float) (with_comments : bool)
         (comments : string -> pyval -> option Comment.t)
         (subs : list string) (exs : list Exchange) : list Post.t :=
  match subs, exs with
  | sub :: subs', ex :: exs' =>
      map (enriched with_comments (comments sub))
          (filter (recent cutoff) (accepted_posts cfg sub (exchange_items ex)))
      ++ new_posts_expected cfg cutoff with_comments comments subs' exs'
  | _, _ => []
  end.

(** ** Day windows served by the authenticated transport *)

(** A client is stored, or the library builds and tests one whenever
    asked. *)
Definition connects (env : Env) (w : World) : Prop :=
  reddit_instance w <> None \/
  forall log, praw_Reddit env log = true /\ praw_me env log = true.

Definition at_hand (env : Env) (h0 : list Request) (w : World) : Prop :=
  connects env w /\ http_log w = h0.

(** What [fetch_top_comment_praw] makes of a comment forest. *)
Definition praw_top_comment (comments : option (list PrawComment)) : option Comment.t :=
  match comments with
  | Some (top_comment :: _) =>
      Some {| Comment.comment_id := PStr (pc_id top_comment);
              Comment.comment_body :=
                PStr (String.substring 0 1000 (or_empty (pc_body top_comment)));
              Comment.comment_score := PInt (pc_score top_comment);
              Comment.comment_author := author_str (pc_author top_comment) |}
  | _ => None
  end.

Fixpoint praw_posts_expected (cfg : Config) (cutoff : spec_float) (with_comments : bool)
         (answers : pyval -> option (list PrawComment))
         (listing : string -> list Submission) (subs : list string) : list Post.t :=
  match subs with
  | [] => []
  | sub :: subs' =>
      map (enriched with_comments (fun post_id => praw_top_comment (answers post_id)))
          (filter (recent cutoff) (praw_yielded cfg sub (listing sub)))
      ++ praw_posts_expected cfg cutoff with_comments answers listing subs'
  end.

(** ** Clocks and sites of the incremental runs *)

(** 1700090000.5 and 1700090000.0 *)
Definition half_past : spec_float := float_of 3400180001 (-1).
Definition on_the_second : spec_float := float_of 1700090000 0.

(** The first day page and its top comment, served by the request alone. *)
Definition day_site : Env :=
  example_env false false ([], true) None
              (web (map item_json [item_at 50 1700010000; item_at 40 1700000000;
                                   item_at 5 1700050000; item_at 20 1700003600])
                   a_thread).

Definition day_exchanges : list Exchange :=
  [([], LastPage [item_at 50 1700010000; item_at 40 1700000000;
                  item_at 5 1700050000; item_at 20 1700003600]);
   ([], LastPage []); ([], LastPage []); ([], LastPage []); ([], LastPage [])].

(** Submissions created after and exactly at the cutoff of the runs. *)
Definition submission_at (score created : Z) : Submission :=
  {| sub_id := ("p" ++ decimal score)%string; sub_title := "title";
     sub_selftext := Some "text"; sub_score := score; sub_num_comments := 3;
     sub_created_utc := created; sub_permalink := "/r/vosfinances/comments/x/";
     sub_author := Some "alice"; sub_upvote_ratio := PInt 1 |}.

Definition day_listing (sub : string) : list Submission :=
  if (sub =? "vosfinances")%string
  then [submission_at 50 1700010000; submission_at 20 1700003600]
  else [].

Definition day_forest (post_id : pyval) : option (list PrawComment) :=
  Some [{| pc_id := "c1"; pc_body := Some "nice"; pc_score := 7; pc_author := None |}].

Definition day_praw_env : Env :=
  {| http := fun _ _ => HttpFail;
     praw_Reddit := fun _ => true;
     praw_me := fun _ => true;
     praw_top := fun _ _ sub _ _ => (day_listing sub, false);
     praw_comments := fun _ _ post_id => day_forest post_id;
     repr_container := fun _ => "" |}.

(** 1700003600.5 and 1700003600.0: the cutoffs of the two clocks, 24
    hours back. *)
Definition cutoff_half_past : spec_float := float_of 3400007201 (-1).
Definition cutoff_on_the_second : spec_float := float_of 1700003600 0.

(** * Properties *)

Example utc_strftime_epoch : utc_strftime 0 = Some "1970-01-01 00:00:00".
Proof. reflexivity. Qed.

Example utc_strftime_2023 : utc_strftime 1700000000 = Some "2023-11-14 22:13:20".
Proof. reflexivity. Qed.

Example utc_strftime_leap : utc_strftime 951782400 = Some "2000-02-29 00:00:00".
Proof. reflexivity. Qed.

Example utc_strftime_range :
  utc_strftime 253402300799 = Some "9999-12-31 23:59:59" /\
  utc_strftime 253402300800 = None /\
  utc_strftime (-62135596800) <> None /\
  utc_strftime (-62135596801) = None.
Proof. repeat split; try reflexivity. intros H. vm_compute in H. discriminate H. Qed.

(** ** Relating two runs *)

Section Relating.

Variable Rw : World -> World -> Prop.

Lemma mrel_ret {A B} (R : A -> B -> Prop) a b :
  R a b -> mrel Rw R (ret a) (ret b).
Proof. intros H w1 w2 Hw. split; assumption. Qed.

Lemma mrel_bind {A1 A2 B1 B2} (R : A1 -> A2 -> Prop) (Q : B1 -> B2 -> Prop)
      (m1 : M A1) (m2 : M A2) (k1 : A1 -> M B1) (k2 : A2 -> M B2) :
  mrel Rw R m1 m2 ->
  (forall a b, R a b -> mrel Rw Q (k1 a) (k2 b)) ->
  mrel Rw Q (bind m1 k1) (bind m2 k2).
Proof.
  intros Hm Hk w1 w2 Hw. unfold bind.
  specialize (Hm w1 w2 Hw). unfold rel_out in Hm.
  destruct (m1 w1) as [[a| e1 |] w1'], (m2 w2) as [[b| e2 |] w2'];
    simpl in Hm; destruct Hm as [Hw' HR]; try contradiction.
  - apply Hk; assumption.
  - split; assumption.
  - split; [assumption | exact I].
Qed.

Lemma mrel_lift {A} (r : Res A) :
  mrel Rw (fun a b => a = b /\ r = Ret a) (lift r) (lift r).
Proof.
  intros w1 w2 Hw. split; [assumption|].
  destruct r; simpl; auto.
Qed.

Lemma mrel_weaken {A B} (R R' : A -> B -> Prop) m1 m2 :
  (forall a b, R a b -> R' a b) -> mrel Rw R m1 m2 -> mrel Rw R' m1 m2.
Proof.
  intros HR Hm w1 w2 Hw. specialize (Hm w1 w2 Hw).
  destruct Hm as [Hw' Hm]. split; [assumption|].
  destruct (fst (m1 w1)), (fst (m2 w2)); auto.
Qed.

Lemma mrel_try_except {A B} (R : A -> B -> Prop) m1 m2 h1 h2 :
  mrel Rw R m1 m2 ->
  (forall e, match h1 e, h2 e with
             | Some k1, Some k2 => mrel Rw R k1 k2
             | None, None => True
             | _, _ => False
             end) ->
  mrel Rw R (try_except m1 h1) (try_except m2 h2).
Proof.
  intros Hm Hh w1 w2 Hw. unfold try_except.
  specialize (Hm w1 w2 Hw). unfold rel_out in Hm.
  destruct (m1 w1) as [[a| e1 |] w1'], (m2 w2) as [[b| e2 |] w2'];
    simpl in Hm; destruct Hm as [Hw' HR]; try contradiction.
  - split; assumption.
  - subst e2. specialize (Hh e1).
    destruct (h1 e1), (h2 e1); try contradiction.
    + apply Hh; assumption.
    + split; [assumption | reflexivity].
  - split; [assumption | exact I].
Qed.

Lemma mrel_for_in {A S1 S2} (Rs : S1 -> S2 -> Prop) (xs : list A) f1 f2 :
  (forall x s1 s2, In x xs -> Rs s1 s2 -> mrel Rw Rs (f1 x s1) (f2 x s2)) ->
  forall s1 s2, Rs s1 s2 -> mrel Rw Rs (for_in xs f1 s1) (for_in xs f2 s2).
Proof.
  induction xs as [|x xs IH]; intros Hf s1 s2 Hs; simpl.
  - apply mrel_ret; assumption.
  - apply mrel_bind with (R := Rs).
    + apply Hf; [left; reflexivity | assumption].
    + intros a b Hab. apply IH; [|assumption].
      intros y t1 t2 Hy. apply Hf. right; assumption.
Qed.

(** From here on the two worlds have issued the same public requests. *)
Hypothesis Rw_http : forall w1 w2, Rw w1 w2 -> http_log w1 = http_log w2.
Hypothesis Rw_log :
  forall req w1 w2, Rw w1 w2 -> Rw (log_http req w1) (log_http req w2).

Variable env : Env.
Variables cfg1 cfg2 : Config.
Hypothesis same_min : MIN_SCORE cfg1 = MIN_SCORE cfg2.

Lemma requests_get_rel req : mrel Rw eq (requests_get env req) (requests_get env req).
Proof.
  intros w1 w2 Hw. unfold requests_get.
  rewrite (Rw_http Hw).
  destruct (http env (http_log w2) req); (split; [apply Rw_log; assumption | reflexivity]).
Qed.

Lemma public_post_min sub post :
  public_post env cfg1 sub post = public_post env cfg2 sub post.
Proof. unfold public_post. rewrite same_min. reflexivity. Qed.

Lemma public_for_rel {S1 S2} (Rs : S1 -> S2 -> Prop) sub body1 body2 :
  (forall p s1 s2, public_built env cfg1 sub p -> Rs s1 s2 ->
                   mrel Rw Rs (body1 p s1) (body2 p s2)) ->
  forall posts s1 s2 total, Rs s1 s2 ->
    mrel Rw (fun x y => Rs (fst x) (fst y) /\ snd x = snd y)
         (public_for env cfg1 sub posts body1 s1 total)
         (public_for env cfg2 sub posts body2 s2 total).
Proof.
  intros Hbody. induction posts as [|post rest IH]; intros s1 s2 total Hs; simpl.
  - apply mrel_ret. split; [assumption | reflexivity].
  - rewrite <- public_post_min.
    eapply mrel_bind; [apply mrel_lift|].
    intros built ? [<- Hp]. destruct built as [p|].
    + apply mrel_bind with (R := Rs).
      * apply Hbody; [exists post |]; assumption.
      * intros; apply IH; assumption.
    + apply IH; assumption.
Qed.

Lemma public_loop_rel {S1 S2} (Rs : S1 -> S2 -> Prop) sub body1 body2 :
  (forall p s1 s2, public_built env cfg1 sub p -> Rs s1 s2 ->
                   mrel Rw Rs (body1 p s1) (body2 p s2)) ->
  forall fuel tf limit after total s1 s2, Rs s1 s2 ->
    mrel Rw Rs (public_loop env cfg1 fuel sub tf limit after total body1 s1)
            (public_loop env cfg2 fuel sub tf limit after total body2 s2).
Proof.
  intros Hbody. induction fuel as [|fuel IH]; intros tf limit after total s1 s2 Hs; simpl.
  - intros w1 w2 Hw. split; [assumption | exact I].
  - destruct (total <? limit); [|apply mrel_ret; assumption].
    apply mrel_bind with (R := eq).
    + apply mrel_try_except.
      * apply mrel_bind with (R := eq); [apply requests_get_rel|].
        intros data ? <-. apply mrel_ret; reflexivity.
      * intros e. destruct (is_RequestException e); [apply mrel_ret; reflexivity | exact I].
    + intros response ? <-. destruct response as [data|]; [|apply mrel_ret; assumption].
      eapply mrel_bind; [apply mrel_lift|]. intros listing ? [<- _].
      eapply mrel_bind; [apply mrel_lift|]. intros posts ? [<- _].
      destruct (negb (truthy posts)); [apply mrel_ret; assumption|].
      eapply mrel_bind; [apply mrel_lift|]. intros items ? [<- _].
      eapply mrel_bind; [apply public_for_rel; eassumption|].
      intros [s1' t1] [s2' t2] [Hs' Ht]. simpl in Hs', Ht. subst t2.
      eapply mrel_bind; [apply mrel_lift|]. intros listing' ? [<- _].
      eapply mrel_bind; [apply mrel_lift|]. intros after' ? [<- _].
      destruct (negb (truthy after')); [apply mrel_ret; assumption|].
      apply IH; assumption.
Qed.

Lemma fetch_top_comment_public_rel post_id sub :
  mrel Rw eq (fetch_top_comment_public env post_id sub)
          (fetch_top_comment_public env post_id sub).
Proof.
  apply mrel_try_except.
  - apply mrel_bind with (R := eq); [apply requests_get_rel|].
    intros data ? <-. eapply mrel_weaken; [|apply mrel_lift].
    intros a b [H _]; exact H.
  - intros e. destruct (is_RequestException e); [apply mrel_ret; reflexivity | exact I].
Qed.

End Relating.

(** ** What a yielded post looks like *)

Lemma rbind_ret {A B} (r : Res A) (k : A -> Res B) (b : B) :
  rbind r k = Ret b -> exists a, r = Ret a /\ k a = Ret b.
Proof.
  destruct r as [a| |]; simpl; intros H; try discriminate.
  exists a. split; [reflexivity | assumption].
Qed.

Ltac rbind_inv H :=
  repeat match type of H with
         | rbind _ _ = Ret _ =>
             let a := fresh "v" in
             let E := fresh "E" in
             apply rbind_ret in H; destruct H as [a [E H]]
         end.

Lemma substring_length_le (n : nat) (s : string) :
  (String.length (String.substring 0 n s) <= n)%nat.
Proof.
  revert s. induction n as [|n IH]; intros [|c s]; simpl; try lia.
  specialize (IH s). lia.
Qed.

Lemma py_slice_len (v : pyval) (n : nat) (v' : pyval) :
  py_slice v n = Ret v' -> len_le (Z.of_nat n) v'.
Proof.
  destruct v; simpl; intros H; inversion H; subst; clear H.
  - eexists. split; [reflexivity|]. pose proof (substring_length_le n s). lia.
  - eexists. split; [reflexivity|]. pose proof (firstn_le_length n l). lia.
Qed.

Lemma len_le_substring (n : nat) (s : string) :
  len_le (Z.of_nat n) (PStr (String.substring 0 n s)).
Proof.
  eexists. split; [reflexivity|]. pose proof (substring_length_le n s). lia.
Qed.

Lemma public_post_fresh env cfg sub post p :
  public_post env cfg sub post = Ret (Some p) -> fresh_post cfg sub p.
Proof.
  unfold public_post. intros H. rbind_inv H.
  destruct v1; [|discriminate]. rbind_inv H.
  inversion H; subst; clear H.
  repeat split; simpl.
  - exact E1.
  - exact (py_slice_len _ _ E7).
Qed.

Lemma public_post_author env cfg sub post p :
  public_post env cfg sub post = Ret (Some p) ->
  exists post_data,
    py_get post "data" (PDict []) = Ret post_data /\
    py_get post_data "author" PNone = Ret (Post.author p).
Proof.
  unfold public_post. intros H. rbind_inv H.
  destruct v1; [|discriminate]. rbind_inv H.
  inversion H; subst; clear H. simpl.
  exists v. split; assumption.
Qed.

Lemma praw_post_fresh cfg sub post p :
  praw_post cfg sub post = Ret (Some p) ->
  fresh_post cfg sub p /\ is_str (Post.author p).
Proof.
  unfold praw_post. intros H.
  destruct (MIN_SCORE cfg <=? sub_score post) eqn:Hs; [|discriminate].
  destruct (utc_strftime (sub_created_utc post)); [|discriminate].
  inversion H; subst; clear H.
  repeat split; simpl.
  - unfold score_ok. simpl. rewrite Hs. reflexivity.
  - apply (len_le_substring 2000).
  - unfold author_str. destruct (sub_author post); eexists; reflexivity.
Qed.

Lemma built_fresh env cfg sub p : built env cfg sub p -> fresh_post cfg sub p.
Proof.
  intros [[post H] | [post H]].
  - exact (public_post_fresh _ _ _ _ H).
  - exact (proj1 (praw_post_fresh _ _ _ H)).
Qed.

(** ** Two consumers on the same run *)

Lemma rel_out_eq {A} (o1 o2 : Res A * World) : rel_out eq eq o1 o2 -> o1 = o2.
Proof.
  destruct o1 as [r1 w1], o2 as [r2 w2]. intros [Hw Hr]. simpl in Hw, Hr. subst w2.
  destruct r1, r2; try contradiction; subst; reflexivity.
Qed.

Lemma mrel_refl {A} (m : M A) : mrel eq eq m m.
Proof.
  intros w1 w2 <-. split; [reflexivity|].
  destruct (fst (m w1)); auto.
Qed.

Section Consumers.

Variable env : Env.
Variable cfg : Config.
Variables S1 S2 : Type.
Variable Rs : S1 -> S2 -> Prop.
Variable sub : string.
Variable body1 : Post.t -> S1 -> M S1.
Variable body2 : Post.t -> S2 -> M S2.

Hypothesis bodies :
  forall p s1 s2, built env cfg sub p -> Rs s1 s2 ->
                  mrel eq Rs (body1 p s1) (body2 p s2).

Lemma praw_for_rel listing :
  forall s1 s2, Rs s1 s2 ->
    mrel eq (fun x y => fst x = fst y /\ Rs (snd x) (snd y))
         (praw_for cfg sub listing body1 s1)
         (praw_for cfg sub listing body2 s2).
Proof.
  induction listing as [|post rest IH]; intros s1 s2 Hs; simpl.
  - apply mrel_ret. split; [reflexivity | assumption].
  - destruct (praw_post cfg sub post) as [[p|]| |] eqn:Hp.
    + apply mrel_bind with (R := Rs).
      * apply bodies; [right; exists post|]; assumption.
      * intros; apply IH; assumption.
    + apply IH; assumption.
    + apply mrel_ret. split; [reflexivity | assumption].
    + apply mrel_ret. split; [reflexivity | assumption].
Qed.

Lemma fetch_subreddit_posts_public_rel fuel tf limit s1 s2 :
  Rs s1 s2 ->
  mrel eq Rs (fetch_subreddit_posts_public env cfg fuel sub tf limit body1 s1)
             (fetch_subreddit_posts_public env cfg fuel sub tf limit body2 s2).
Proof.
  intros Hs. unfold fetch_subreddit_posts_public.
  apply public_loop_rel; try assumption; try reflexivity.
  - intros w1 w2 <-; reflexivity.
  - intros req w1 w2 <-; reflexivity.
  - intros p t1 t2 Hp Ht. apply bodies; [left|]; assumption.
Qed.

Lemma fetch_subreddit_posts_praw_rel fuel tf limit s1 s2 :
  Rs s1 s2 ->
  mrel eq Rs (fetch_subreddit_posts_praw env cfg fuel sub tf limit body1 s1)
             (fetch_subreddit_posts_praw env cfg fuel sub tf limit body2 s2).
Proof.
  intros Hs. unfold fetch_subreddit_posts_praw.
  apply mrel_bind with (R := eq); [apply mrel_refl|].
  intros reddit ? <-. destruct reddit as [r|].
  - apply mrel_bind with (R := eq); [apply mrel_refl|].
    intros [listing fails] ? <-.
    eapply mrel_bind; [apply praw_for_rel; assumption|].
    intros [c1 t1] [c2 t2] [Hc Ht]. simpl in Hc, Ht. subst c2.
    destruct (c1 && negb fails).
    + apply mrel_ret; assumption.
    + apply fetch_subreddit_posts_public_rel; assumption.
  - apply fetch_subreddit_posts_public_rel; assumption.
Qed.

Lemma fetch_subreddit_posts_rel fuel tf limit s1 s2 :
  Rs s1 s2 ->
  mrel eq Rs (fetch_subreddit_posts env cfg fuel sub tf limit body1 s1)
             (fetch_subreddit_posts env cfg fuel sub tf limit body2 s2).
Proof.
  intros Hs. unfold fetch_subreddit_posts. destruct (api_selected cfg).
  - apply fetch_subreddit_posts_praw_rel; assumption.
  - apply fetch_subreddit_posts_public_rel; assumption.
Qed.

End Consumers.

(** An invariant of the consumer's state that every yield of a fresh post
    preserves holds when the generator returns. *)
Lemma fetch_subreddit_posts_inv {S} (Inv : S -> Prop) env cfg fuel sub tf limit
      (body : Post.t -> S -> M S) (s : S) (w : World) (s' : S) (w' : World) :
  (forall p t u t' u',
      built env cfg sub p -> Inv t -> body p t u = (Ret t', u') -> Inv t') ->
  Inv s ->
  fetch_subreddit_posts env cfg fuel sub tf limit body s w = (Ret s', w') ->
  Inv s'.
Proof.
  intros Hbody Hs Hrun.
  assert (H : mrel eq (fun a b : S => a = b /\ Inv a)
                   (fetch_subreddit_posts env cfg fuel sub tf limit body s)
                   (fetch_subreddit_posts env cfg fuel sub tf limit body s)).
  { apply fetch_subreddit_posts_rel; [|split; [reflexivity | assumption]].
    intros p t1 t2 Hp [<- Ht] u ? <-. split; [reflexivity|].
    destruct (body p t1 u) as [[t'| |] u'] eqn:Hb; simpl; auto.
    split; [reflexivity|]. eapply Hbody; eassumption. }
  specialize (H w w eq_refl). rewrite Hrun in H. destruct H as [_ [_ H]]. exact H.
Qed.

(** Two consumers that act alike on every post the transports can build
    see the same run. *)
Lemma fetch_subreddit_posts_ext {S} env cfg fuel sub tf limit
      (body1 body2 : Post.t -> S -> M S) (s : S) (w : World) :
  (forall p t u, built env cfg sub p -> body1 p t u = body2 p t u) ->
  fetch_subreddit_posts env cfg fuel sub tf limit body1 s w =
  fetch_subreddit_posts env cfg fuel sub tf limit body2 s w.
Proof.
  intros Hbody. apply rel_out_eq.
  apply (@fetch_subreddit_posts_rel env cfg S S eq sub body1 body2); try reflexivity.
  intros p t1 t2 Hp <- u ? <-. rewrite (Hbody p t1 u Hp).
  split; [reflexivity|]. destruct (fst (body2 p t1 u)); auto.
Qed.

(** ** Returned posts *)

Lemma bind_ret_inv {A B} (m : M A) (k : A -> M B) w b w' :
  bind m k w = (Ret b, w') ->
  exists a w1, m w = (Ret a, w1) /\ k a w1 = (Ret b, w').
Proof.
  unfold bind. destruct (m w) as [[a| |] w1]; intros H; try discriminate.
  exists a, w1. split; [reflexivity | assumption].
Qed.

Lemma for_in_inv {A S} (Inv : S -> Prop) (xs : list A) (f : A -> S -> M S) :
  (forall x t u t' u', In x xs -> Inv t -> f x t u = (Ret t', u') -> Inv t') ->
  forall s w s' w', Inv s -> for_in xs f s w = (Ret s', w') -> Inv s'.
Proof.
  induction xs as [|x xs IH]; intros Hf s w s' w' Hs Hrun; simpl in Hrun.
  - inversion Hrun; subst; assumption.
  - apply bind_ret_inv in Hrun. destruct Hrun as [t [u [Hx Hrest]]].
    eapply IH; [| |exact Hrest].
    + intros y; intros. eapply Hf; [right|..]; eassumption.
    + eapply Hf; [left; reflexivity|..]; eassumption.
Qed.

Lemma top_comment_of_ok data c :
  top_comment_of data = Ret (Some c) -> comment_ok c.
Proof.
  unfold top_comment_of. intros H. rbind_inv H.
  destruct (1 <? v); [|discriminate]. rbind_inv H.
  destruct (truthy v2); [|discriminate]. rbind_inv H.
  destruct (py_eq_str v4 "t1"); [|discriminate]. rbind_inv H.
  inversion H; subst; clear H. unfold comment_ok; simpl.
  exact (py_slice_len _ _ E9).
Qed.

Lemma fetch_top_comment_public_ok env post_id sub w c w' :
  fetch_top_comment_public env post_id sub w = (Ret (Some c), w') -> comment_ok c.
Proof.
  unfold fetch_top_comment_public, try_except, bind, requests_get, lift, ret.
  destruct (http env (http_log w) (CommentThread sub post_id)) as [data|]; simpl.
  - destruct (top_comment_of data) as [[c'|]|e|] eqn:Hc; intros H.
    + inversion H; subst. exact (top_comment_of_ok _ Hc).
    + inversion H.
    + destruct (is_RequestException e); inversion H.
    + inversion H.
  - intros H; inversion H.
Qed.

Lemma fetch_top_comment_praw_ok env cfg post_id sub w c w' :
  fetch_top_comment_praw env cfg post_id sub w = (Ret (Some c), w') -> comment_ok c.
Proof.
  unfold fetch_top_comment_praw. intros H.
  apply bind_ret_inv in H. destruct H as [reddit [w1 [_ H]]].
  destruct reddit as [r|].
  - apply bind_ret_inv in H. destruct H as [comments [w2 [_ H]]].
    destruct comments as [[|top rest]|]; inversion H; subst.
    apply (len_le_substring 1000).
  - exact (fetch_top_comment_public_ok _ _ _ _ H).
Qed.

Lemma fetch_top_comment_ok env cfg post_id sub w c w' :
  fetch_top_comment env cfg post_id sub w = (Ret (Some c), w') -> comment_ok c.
Proof.
  unfold fetch_top_comment. destruct (api_selected cfg).
  - apply fetch_top_comment_praw_ok.
  - apply fetch_top_comment_public_ok.
Qed.

(** Enrichment keeps the post's own fields and only adds the comment. *)
Lemma enrich_bare env cfg sub p w p' w' :
  enrich env cfg sub p w = (Ret p', w') ->
  Post.comment p = None ->
  Post.bare p' = p /\ match Post.comment p' with Some c => comment_ok c | None => True end.
Proof.
  unfold enrich. intros H Hnone.
  apply bind_ret_inv in H. destruct H as [top [w1 [Htop H]]].
  inversion H; subst; clear H. destruct top as [c|].
  - split.
    + destruct p; simpl in *; subst; reflexivity.
    + simpl. exact (fetch_top_comment_ok _ _ _ _ _ Htop).
  - split; [|rewrite Hnone; exact I].
    destruct p; simpl in *; subst; reflexivity.
Qed.

Lemma returned_ok_of_bare cfg sub p p' :
  fresh_post cfg sub p -> Post.bare p' = p ->
  match Post.comment p' with Some c => comment_ok c | None => True end ->
  returned_ok cfg p'.
Proof.
  intros [Hscore [Hlen _]] <- Hc.
  unfold score_ok in Hscore. simpl in Hscore, Hlen.
  repeat split; assumption.
Qed.

Lemma all_posts_body_ok env cfg wc sub p acc w acc' w' :
  fresh_post cfg sub p ->
  Forall (returned_ok cfg) acc ->
  all_posts_body env cfg wc sub p acc w = (Ret acc', w') ->
  Forall (returned_ok cfg) acc'.
Proof.
  intros Hp Hacc H. unfold all_posts_body in H.
  apply bind_ret_inv in H. destruct H as [p' [w1 [Hen H]]].
  inversion H; subst; clear H.
  apply Forall_app. split; [assumption|]. constructor; [|constructor].
  destruct wc.
  - destruct (enrich_bare _ _ _ _ _ Hen (proj1 (proj2 (proj2 Hp)))) as [Hb Hc].
    exact (returned_ok_of_bare Hp Hb Hc).
  - inversion Hen; subst.
    apply (returned_ok_of_bare Hp).
    + destruct Hp as [_ [_ [Hn _]]]. destruct p'; simpl in *; subst; reflexivity.
    + destruct Hp as [_ [_ [Hn _]]]. rewrite Hn. exact I.
Qed.

Lemma fetch_all_posts_returned_ok env cfg fuel wc limit w posts w' :
  fetch_all_posts env cfg fuel wc limit w = (Ret posts, w') ->
  Forall (returned_ok cfg) posts.
Proof.
  unfold fetch_all_posts. intros H.
  eapply (for_in_inv (Forall (returned_ok cfg))); [| |exact H]; [|constructor].
  intros sub t u t' u' _ Ht Hrun.
  eapply (@fetch_subreddit_posts_inv _ (Forall (returned_ok cfg))); [|exact Ht|exact Hrun].
  intros p a b a' b' Hp Ha Hb.
  eapply all_posts_body_ok; [apply (built_fresh Hp)|exact Ha|exact Hb].
Qed.

Lemma new_posts_body_ok env cfg cutoff wc sub p acc w acc' w' :
  fresh_post cfg sub p ->
  Forall (returned_ok cfg) acc ->
  new_posts_body env cfg cutoff wc sub p acc w = (Ret acc', w') ->
  Forall (returned_ok cfg) acc'.
Proof.
  intros Hp Hacc H. unfold new_posts_body in H.
  apply bind_ret_inv in H. destruct H as [recent [w1 [Hr H]]].
  destruct recent.
  - eapply all_posts_body_ok; [exact Hp | exact Hacc | exact H].
  - inversion H; subst; assumption.
Qed.

Lemma fetch_new_posts_returned_ok env cfg fuel now since wc w posts w' :
  fetch_new_posts env cfg fuel now since wc w = (Ret posts, w') ->
  Forall (returned_ok cfg) posts.
Proof.
  unfold fetch_new_posts, day_window_loop. intros H.
  apply bind_ret_inv in H. destruct H as [cutoff [w0 [_ H]]].
  eapply (for_in_inv (Forall (returned_ok cfg))); [| |exact H]; [|constructor].
  intros sub t u t' u' _ Ht Hrun.
  eapply (@fetch_subreddit_posts_inv _ (Forall (returned_ok cfg))); [|exact Ht|exact Hrun].
  intros p a b a' b' Hp Ha Hb.
  eapply new_posts_body_ok; [apply (built_fresh Hp)|exact Ha|exact Hb].
Qed.

(** Consumers that act alike on fresh posts see the same run of each
    generator: no other post is ever handed to them. *)
Lemma generators_yield_fresh {S} env cfg fuel sub tf limit
      (body1 body2 : Post.t -> S -> M S) (s : S) (w : World) :
  (forall p t u, fresh_post cfg sub p -> body1 p t u = body2 p t u) ->
  fetch_subreddit_posts_praw env cfg fuel sub tf limit body1 s w =
  fetch_subreddit_posts_praw env cfg fuel sub tf limit body2 s w /\
  fetch_subreddit_posts_public env cfg fuel sub tf limit body1 s w =
  fetch_subreddit_posts_public env cfg fuel sub tf limit body2 s w /\
  fetch_subreddit_posts env cfg fuel sub tf limit body1 s w =
  fetch_subreddit_posts env cfg fuel sub tf limit body2 s w.
Proof.
  intros Hbody.
  assert (Hrel : forall p t1 t2, built env cfg sub p -> t1 = t2 ->
                                 mrel eq eq (body1 p t1) (body2 p t2)).
  { intros p t1 t2 Hp <- u ? <-. rewrite (Hbody p t1 u (built_fresh Hp)).
    split; [reflexivity|]. destruct (fst (body2 p t1 u)); auto. }
  repeat split; apply rel_out_eq.
  - apply (@fetch_subreddit_posts_praw_rel env cfg S S eq sub body1 body2); auto.
  - apply (@fetch_subreddit_posts_public_rel env cfg S S eq sub body1 body2); auto.
  - apply (@fetch_subreddit_posts_rel env cfg S S eq sub body1 body2); auto.
Qed.

(** What [list(generator)] holds is fresh, for each generator. *)
Lemma collected_fresh env cfg fuel sub tf limit w posts w' :
  (fetch_subreddit_posts_praw env cfg fuel sub tf limit collect [] w = (Ret posts, w') \/
   fetch_subreddit_posts_public env cfg fuel sub tf limit collect [] w = (Ret posts, w') \/
   fetch_subreddit_posts env cfg fuel sub tf limit collect [] w = (Ret posts, w')) ->
  Forall (fresh_post cfg sub) posts.
Proof.
  assert (Hrel : forall p (t1 t2 : list Post.t),
             built env cfg sub p ->
             t1 = t2 /\ Forall (fresh_post cfg sub) t1 ->
             mrel eq (fun a b => a = b /\ Forall (fresh_post cfg sub) a)
                  (collect p t1) (collect p t2)).
  { intros p t1 t2 Hp [<- Ht] u ? <-. split; [reflexivity|]. simpl.
    split; [reflexivity|]. apply Forall_app. split; [assumption|].
    constructor; [exact (built_fresh Hp) | constructor]. }
  assert (Hnil : @nil Post.t = [] /\ Forall (fresh_post cfg sub) []) by (split; constructor).
  intros [H | [H | H]].
  - pose proof (@fetch_subreddit_posts_praw_rel env cfg _ _ _ sub collect collect
                  Hrel fuel tf limit [] [] Hnil w w eq_refl) as R.
    rewrite H in R. exact (proj2 (proj2 R)).
  - pose proof (@fetch_subreddit_posts_public_rel env cfg _ _ _ sub collect collect
                  Hrel fuel tf limit [] [] Hnil w w eq_refl) as R.
    rewrite H in R. exact (proj2 (proj2 R)).
  - pose proof (@fetch_subreddit_posts_rel env cfg _ _ _ sub collect collect
                  Hrel fuel tf limit [] [] Hnil w w eq_refl) as R.
    rewrite H in R. exact (proj2 (proj2 R)).
Qed.

(** ** Score filter *)

(** C1. Every post a fetch operation hands over or returns has a score of
    at least [MIN_SCORE], and the filter acts during the fetch: a run of a
    generator (authenticated, public, or the dispatcher) does not depend on
    what its consumer would do with a post below the minimum, so no such
    post is ever yielded; the lists collected from the generators and the
    lists [fetch_all_posts] and [fetch_new_posts] return hold only posts
    that pass the filter. *)
Theorem score_filter_during_fetch (env : Env) (cfg : Config) :
  (forall S fuel sub tf limit (body1 body2 : Post.t -> S -> M S) s w,
      (forall p t u, score_ok cfg p -> body1 p t u = body2 p t u) ->
      fetch_subreddit_posts_praw env cfg fuel sub tf limit body1 s w =
      fetch_subreddit_posts_praw env cfg fuel sub tf limit body2 s w /\
      fetch_subreddit_posts_public env cfg fuel sub tf limit body1 s w =
      fetch_subreddit_posts_public env cfg fuel sub tf limit body2 s w /\
      fetch_subreddit_posts env cfg fuel sub tf limit body1 s w =
      fetch_subreddit_posts env cfg fuel sub tf limit body2 s w) /\
  (forall fuel sub tf limit w posts w',
      fetch_subreddit_posts_praw env cfg fuel sub tf limit collect [] w = (Ret posts, w') \/
      fetch_subreddit_posts_public env cfg fuel sub tf limit collect [] w = (Ret posts, w') \/
      fetch_subreddit_posts env cfg fuel sub tf limit collect [] w = (Ret posts, w') ->
      Forall (score_ok cfg) posts) /\
  (forall fuel with_comments limit w posts w',
      fetch_all_posts env cfg fuel with_comments limit w = (Ret posts, w') ->
      Forall (score_ok cfg) posts) /\
  (forall fuel now since_hours with_comments w posts w',
      fetch_new_posts env cfg fuel now since_hours with_comments w = (Ret posts, w') ->
      Forall (score_ok cfg) posts).
Proof.
  split; [|split; [|split]].
  - intros S fuel sub tf limit body1 body2 s w H.
    apply generators_yield_fresh. intros p t u Hp. apply H. exact (proj1 Hp).
  - intros fuel sub tf limit w posts w' H. apply collected_fresh in H.
    eapply Forall_impl; [|exact H]. intros p Hp; exact (proj1 Hp).
  - intros fuel with_comments limit w posts w' H.
    apply fetch_all_posts_returned_ok in H.
    eapply Forall_impl; [|exact H]. intros p Hp; exact (proj1 Hp).
  - intros fuel now since_hours with_comments w posts w' H.
    apply fetch_new_posts_returned_ok in H.
    eapply Forall_impl; [|exact H]. intros p Hp; exact (proj1 Hp).
Qed.

(** ** Runs of the public pagination against a script of pages *)

Lemma public_post_item env cfg sub it :
  item_dated it ->
  public_post env cfg sub (item_json it) =
  Ret (if accepted cfg it then Some (post_of_item sub it) else None).
Proof.
  unfold item_dated, public_post, accepted, post_of_item. intros Hd. simpl.
  destruct (MIN_SCORE cfg <=? it_score it); [|reflexivity]. simpl.
  destruct (it_created_utc it =? 0); simpl.
  - destruct (utc_strftime (it_created_utc it)); [reflexivity | contradiction].
  - destruct (utc_strftime (it_created_utc it)); [reflexivity | contradiction].
Qed.

Lemma bind_lift_ret {A B} (a : A) (k : A -> M B) : bind (lift (Ret a)) k = k a.
Proof. reflexivity. Qed.

Lemma bind_ret {A B} (a : A) (k : A -> M B) : bind (ret a) k = k a.
Proof. reflexivity. Qed.

Lemma bind_run {A B} (m : M A) (k : A -> M B) w a w1 :
  m w = (Ret a, w1) -> bind m k w = k a w1.
Proof. intros H. unfold bind. rewrite H. reflexivity. Qed.

Lemma issued_zero w : issued 0 w w.
Proof.
  exists []. split; [reflexivity|]. rewrite app_nil_r. destruct w; reflexivity.
Qed.

Lemma issued_step req n w w' :
  issued n (log_http req w) w' -> issued (S n) w w'.
Proof.
  intros [reqs [Hn Hw]]. exists (req :: reqs). split; [simpl; congruence|].
  rewrite Hw. unfold log_http; simpl. rewrite <- app_assoc. reflexivity.
Qed.

Lemma served_head env h0 r rest req :
  served env h0 (r :: rest) -> http env h0 req = r.
Proof.
  intros H. apply (H h0 req 0%nat); [lia | reflexivity].
Qed.

Lemma served_tail env h0 r rest req :
  served env h0 (r :: rest) -> served env (h0 ++ [req]) rest.
Proof.
  intros H h q k r' Hlen Hk. apply (H h q (S k)); [|exact Hk].
  rewrite Hlen, length_app. simpl. lia.
Qed.

Section Script.

Variable env : Env.
Variable cfg : Config.
Variable S : Type.
Variable f : Post.t -> S -> S.
Variable body : Post.t -> S -> M S.
Variable sub tf : string.
Variable limit : Z.

(** On the posts of well-formed items the consumer computes on what it
    is handed and issues no request. *)
Hypothesis body_pure :
  forall it s w, body (post_of_item sub it) s w = (Ret (f (post_of_item sub it) s), w).

Lemma public_for_items items :
  Forall item_dated items ->
  forall s total w,
    public_for env cfg sub (map item_json items) body s total w =
    (Ret (feed f (accepted_posts cfg sub items) s,
          total + Z.of_nat (List.length (filter (accepted cfg) items))), w).
Proof.
  induction 1 as [|it items Hd _ IH]; intros s total w.
  - simpl. unfold ret. rewrite Z.add_0_r. reflexivity.
  - cbn [map public_for]. unfold bind at 1. unfold lift at 1.
    rewrite (public_post_item env cfg sub Hd).
    unfold accepted_posts. cbn [filter].
    destruct (accepted cfg it).
    + unfold bind. rewrite body_pure. rewrite IH.
      cbn [map List.length feed fold_left]. unfold accepted_posts, feed.
      rewrite Nat2Z.inj_succ, <- Z.add_1_l, Z.add_assoc. reflexivity.
    + apply IH.
Qed.

Lemma count_accepted_nonneg items : 0 <= count_accepted cfg items.
Proof. unfold count_accepted. lia. Qed.

Lemma count_accepted_app a b :
  count_accepted cfg (a ++ b) = count_accepted cfg a + count_accepted cfg b.
Proof. unfold count_accepted. rewrite filter_app, length_app. lia. Qed.

Lemma accepted_posts_app a b :
  accepted_posts cfg sub (a ++ b) = accepted_posts cfg sub a ++ accepted_posts cfg sub b.
Proof. unfold accepted_posts. rewrite filter_app, map_app. reflexivity. Qed.

Lemma feed_app a b s : feed f (a ++ b) s = feed f b (feed f a s).
Proof. unfold feed. apply fold_left_app. Qed.

Lemma truthy_items (items : list Item) :
  items <> [] -> truthy (PList (map item_json items)) = true.
Proof. destruct items; [congruence | reflexivity]. Qed.

Lemma truthy_token (a : string) : a <> "" -> truthy (PStr a) = true.
Proof. destruct a; [congruence | reflexivity]. Qed.

Lemma public_loop_ending fuel after total s w e :
  served env (http_log w) [ending_response e] ->
  Forall item_dated (ending_items e) ->
  total < limit ->
  exists w',
    public_loop env cfg (Datatypes.S fuel) sub tf limit after total body s w =
    (Ret (feed f (accepted_posts cfg sub (ending_items e)) s), w') /\ issued 1 w w'.
Proof.
  intros Hserved Hd Hlt.
  exists (log_http (page_request sub tf limit after total) w).
  split; [|eapply issued_step; apply issued_zero].
  cbn [public_loop]. apply Z.ltb_lt in Hlt. rewrite Hlt.
  unfold bind at 1. unfold try_except, bind at 1. unfold requests_get.
  rewrite (served_head _ Hserved).
  destruct e as [items|]; cbn [ending_response ending_items].
  - unfold ret at 1. cbn [page_json py_get assoc String.eqb Ascii.eqb Bool.eqb lift bind].
    destruct items as [|it items].
    + reflexivity.
    + cbn [truthy map negb py_iter]. rewrite bind_lift_ret.
      rewrite <- (map_cons item_json).
      erewrite bind_run by (apply public_for_items; assumption).
      reflexivity.
  - reflexivity.
Qed.

Lemma public_loop_script pages :
  forall fuel after total s w e,
    served env (http_log w) (map page_response pages ++ [ending_response e]) ->
    Forall well_paged pages ->
    Forall item_dated (script_items pages ++ ending_items e) ->
    total + count_accepted cfg (script_items pages) < limit ->
    (List.length pages < fuel)%nat ->
    exists w',
      public_loop env cfg fuel sub tf limit after total body s w =
      (Ret (feed f (accepted_posts cfg sub (script_items pages ++ ending_items e)) s), w') /\
      issued (Datatypes.S (List.length pages)) w w'.
Proof.
  induction pages as [|[items tok] pages IH];
    intros fuel after total s w e Hserved Hpaged Hdated Hlimit Hfuel.
  - destruct fuel as [|fuel]; [simpl in Hfuel; lia|].
    simpl in Hlimit. apply public_loop_ending; try assumption.
    unfold count_accepted in Hlimit. simpl in Hlimit. lia.
  - destruct fuel as [|fuel]; [simpl in Hfuel; lia|].
    inversion Hpaged as [|? ? [Hitems Htok] Hpaged']; subst. simpl in Hitems, Htok.
    change (script_items ((items, tok) :: pages)) with (items ++ script_items pages) in *.
    rewrite <- app_assoc in Hdated. apply Forall_app in Hdated.
    destruct Hdated as [Hd Hdated].
    rewrite count_accepted_app in Hlimit.
    pose proof (count_accepted_nonneg items) as Hn1.
    pose proof (count_accepted_nonneg (script_items pages)) as Hn2.
    set (req := page_request sub tf limit after total).
    destruct (IH fuel (PStr tok) (total + count_accepted cfg items)
                 (feed f (accepted_posts cfg sub items) s) (log_http req w) e) as [w' [Hrun Hiss]].
    + exact (served_tail req Hserved).
    + assumption.
    + assumption.
    + lia.
    + simpl in Hfuel. lia.
    + exists w'. split; [|exact (issued_step Hiss)].
      rewrite <- app_assoc, accepted_posts_app, feed_app, <- Hrun.
      cbn [public_loop]. assert (Hlt : (total <? limit) = true) by (apply Z.ltb_lt; lia).
      rewrite Hlt. unfold bind at 1. unfold try_except, bind at 1. unfold requests_get.
      fold req. rewrite (served_head req Hserved).
      unfold page_response, ret at 1.
      cbn [fst snd page_json py_get assoc String.eqb Ascii.eqb Bool.eqb lift bind token_json].
      rewrite (truthy_items Hitems). cbn [negb py_iter]. rewrite bind_lift_ret.
      erewrite bind_run by (apply public_for_items; assumption).
      cbv beta iota. rewrite bind_lift_ret.
      cbn [py_get assoc String.eqb Ascii.eqb Bool.eqb]. rewrite bind_lift_ret.
      rewrite (truthy_token Htok). reflexivity.
Qed.

End Script.

Lemma feed_collect (posts acc : list Post.t) :
  feed (fun p acc => acc ++ [p]) posts acc = acc ++ posts.
Proof.
  unfold feed. revert acc. induction posts as [|p posts IH]; intros acc; simpl.
  - rewrite app_nil_r. reflexivity.
  - rewrite IH, <- app_assoc. reflexivity.
Qed.

Lemma scripted_served (responses : list HttpResult) :
  served (scripted responses) [] responses.
Proof.
  intros h req k r Hlen Hk. simpl in *. rewrite Hlen.
  apply nth_error_nth. exact Hk.
Qed.

(** ** Public pagination *)

(** C3, amended. Against [N] non-empty pages that carry a continuation
    token followed by a page without one, all of well-formed items, and
    provided fewer than [limit] posts have been accepted when each page is
    requested, the public fetch yields exactly the score-filtered union of
    the pages in order and issues [N + 1] requests: none after the page
    lacking the token. *)
Theorem public_pagination_exact env cfg fuel sub tf limit
        (pages : list (list Item * string)) (last : list Item) w :
  served env (http_log w) (map page_response pages ++ [HttpOk (page_json last None)]) ->
  Forall well_paged pages ->
  Forall item_dated (script_items pages ++ last) ->
  count_accepted cfg (script_items pages) < limit ->
  (List.length pages < fuel)%nat ->
  exists w',
    fetch_subreddit_posts_public env cfg fuel sub tf limit collect [] w =
    (Ret (map (post_of_item sub) (filter (accepted cfg) (script_items pages ++ last))), w') /\
    issued (Datatypes.S (List.length pages)) w w'.
Proof.
  intros Hserved Hpaged Hdated Hlimit Hfuel.
  destruct (@public_loop_script env cfg _ (fun p acc => acc ++ [p]) collect sub tf limit
              (fun p s w => eq_refl) pages fuel PNone 0 [] w (LastPage last))
    as [w' [Hrun Hiss]]; try assumption.
  exists w'. split; [|exact Hiss].
  unfold fetch_subreddit_posts_public. rewrite Hrun, feed_collect. reflexivity.
Qed.

(** ** Request failures during pagination *)

(** C8. When a page request of the public loop fails with a request
    exception, whatever the loop has reached, the call returns normally
    with the consumer's state as the earlier yields left it and only the
    failed request added to the log; so against [N] well-formed pages
    followed by a failing request the fetch returns the accepted posts of
    the [N] pages after [N + 1] requests. *)
Theorem request_failure_aborts_pagination env cfg :
  (forall S fuel sub tf limit after total (body : Post.t -> S -> M S) (s : S) w,
      total < limit ->
      http env (http_log w) (page_request sub tf limit after total) = HttpFail ->
      public_loop env cfg (Datatypes.S fuel) sub tf limit after total body s w =
      (Ret s, log_http (page_request sub tf limit after total) w)) /\
  (forall fuel sub tf limit (pages : list (list Item * string)) w,
      served env (http_log w) (map page_response pages ++ [HttpFail]) ->
      Forall well_paged pages ->
      Forall item_dated (script_items pages) ->
      count_accepted cfg (script_items pages) < limit ->
      (List.length pages < fuel)%nat ->
      exists w',
        fetch_subreddit_posts_public env cfg fuel sub tf limit collect [] w =
        (Ret (map (post_of_item sub) (filter (accepted cfg) (script_items pages))), w') /\
        issued (Datatypes.S (List.length pages)) w w').
Proof.
  split.
  - intros S fuel sub tf limit after total body s w Hlt Hfail.
    cbn [public_loop]. apply Z.ltb_lt in Hlt. rewrite Hlt.
    unfold bind at 1. unfold try_except, bind at 1. unfold requests_get.
    rewrite Hfail. reflexivity.
  - intros fuel sub tf limit pages w Hserved Hpaged Hdated Hlimit Hfuel.
    destruct (@public_loop_script env cfg _ (fun p acc => acc ++ [p]) collect sub tf limit
                (fun p s w => eq_refl) pages fuel PNone 0 [] w Failure)
      as [w' [Hrun Hiss]]; try assumption.
    + simpl. rewrite app_nil_r. assumption.
    + exists w'. split; [|exact Hiss].
      unfold fetch_subreddit_posts_public. rewrite Hrun, feed_collect.
      simpl. rewrite app_nil_r. reflexivity.
Qed.

(** ** Length caps *)

(** C9. The body of every post either transport hands over or an entry
    point returns has length at most 2000, and the body of every comment
    either transport produces, or that is merged into a returned post, has
    length at most 1000. *)
Theorem body_lengths_capped (env : Env) (cfg : Config) :
  (forall S fuel sub tf limit (body1 body2 : Post.t -> S -> M S) s w,
      (forall p t u, len_le 2000 (Post.selftext p) -> body1 p t u = body2 p t u) ->
      fetch_subreddit_posts_praw env cfg fuel sub tf limit body1 s w =
      fetch_subreddit_posts_praw env cfg fuel sub tf limit body2 s w /\
      fetch_subreddit_posts_public env cfg fuel sub tf limit body1 s w =
      fetch_subreddit_posts_public env cfg fuel sub tf limit body2 s w /\
      fetch_subreddit_posts env cfg fuel sub tf limit body1 s w =
      fetch_subreddit_posts env cfg fuel sub tf limit body2 s w) /\
  (forall post_id sub w c w',
      fetch_top_comment_praw env cfg post_id sub w = (Ret (Some c), w') \/
      fetch_top_comment_public env post_id sub w = (Ret (Some c), w') \/
      fetch_top_comment env cfg post_id sub w = (Ret (Some c), w') ->
      len_le 1000 (Comment.comment_body c)) /\
  (forall fuel with_comments limit w posts w',
      fetch_all_posts env cfg fuel with_comments limit w = (Ret posts, w') ->
      Forall caps_ok posts) /\
  (forall fuel now since_hours with_comments w posts w',
      fetch_new_posts env cfg fuel now since_hours with_comments w = (Ret posts, w') ->
      Forall caps_ok posts).
Proof.
  split; [|split; [|split]].
  - intros S fuel sub tf limit body1 body2 s w H.
    apply generators_yield_fresh. intros p t u Hp. apply H. exact (proj1 (proj2 Hp)).
  - intros post_id sub w c w' [H | [H | H]].
    + exact (fetch_top_comment_praw_ok _ _ _ _ _ H).
    + exact (fetch_top_comment_public_ok _ _ _ _ H).
    + exact (fetch_top_comment_ok _ _ _ _ _ H).
  - intros fuel with_comments limit w posts w' H.
    apply fetch_all_posts_returned_ok in H.
    eapply Forall_impl; [|exact H]. intros p Hp; exact (proj2 Hp).
  - intros fuel now since_hours with_comments w posts w' H.
    apply fetch_new_posts_returned_ok in H.
    eapply Forall_impl; [|exact H]. intros p Hp; exact (proj2 Hp).
Qed.

(** ** Concrete runs *)

Lemma score_filter_witness :
  fetch_all_posts spec_env public_cfg 2 false 100 start =
  (Ret [post_of_item "vosfinances" (item_scored 50);
        post_of_item "vosfinances" (item_scored 20)],
   snd (fetch_all_posts spec_env public_cfg 2 false 100 start)) /\
  Forall (score_ok public_cfg)
         [post_of_item "vosfinances" (item_scored 50);
          post_of_item "vosfinances" (item_scored 20)].
Proof.
  assert (E : fetch_all_posts spec_env public_cfg 2 false 100 start =
              (Ret [post_of_item "vosfinances" (item_scored 50);
                    post_of_item "vosfinances" (item_scored 20)],
               snd (fetch_all_posts spec_env public_cfg 2 false 100 start)))
    by (vm_compute; reflexivity).
  split; [exact E|].
  exact (proj1 (proj2 (proj2 (score_filter_during_fetch spec_env public_cfg)))
           _ _ _ _ _ _ E).
Defined.

Lemma spec_example_two_page_requests :
  exists w',
    fetch_subreddit_posts_public spec_env public_cfg 2 "vosfinances" "all" 100 collect [] start =
    (Ret [post_of_item "vosfinances" (item_scored 50);
          post_of_item "vosfinances" (item_scored 20)], w') /\
    issued 2 start w'.
Proof.
  apply (@public_pagination_exact spec_env public_cfg 2 "vosfinances" "all" 100
           [page_one] [item_scored 8] start).
  - apply scripted_served.
  - repeat constructor; discriminate.
  - repeat constructor; intro H; vm_compute in H; discriminate H.
  - reflexivity.
  - simpl. lia.
Defined.

Lemma item_scored_dated (score : Z) : item_dated (item_scored score).
Proof. intros H. vm_compute in H. discriminate H. Qed.

Lemma full_page_dated : Forall item_dated (fst full_page).
Proof.
  unfold full_page. cbn [fst]. apply Forall_map, Forall_forall.
  intros n _. apply item_scored_dated.
Qed.

(** With the default limit of 100 the loop stops once the full first page
    has given a hundred posts: the page without token is never requested
    and its post of score 30 is missing from the result. *)
Lemma pagination_cut_by_limit :
  served more_env (http_log start)
         (map page_response [full_page] ++ [HttpOk (page_json [item_scored 30] None)]) /\
  Forall well_paged [full_page] /\
  Forall item_dated (script_items [full_page] ++ [item_scored 30]) /\
  (List.length [full_page] < 5)%nat /\
  fetch_subreddit_posts_public more_env public_cfg 5 "vosfinances" "all"
                               (POSTS_PER_REQUEST public_cfg) collect [] start =
  (Ret (map (post_of_item "vosfinances") (fst full_page)),
   log_http (TopPage "vosfinances" "all" 100 None) start) /\
  ~ exists w',
      fetch_subreddit_posts_public more_env public_cfg 5 "vosfinances" "all"
                                   (POSTS_PER_REQUEST public_cfg) collect [] start =
      (Ret (map (post_of_item "vosfinances")
                (filter (accepted public_cfg) (script_items [full_page] ++ [item_scored 30]))),
       w') /\
      issued 2 start w'.
Proof.
  split; [apply scripted_served|].
  split; [repeat constructor; discriminate|].
  split.
  { cbn [script_items map List.concat]. rewrite app_nil_r.
    apply Forall_app. split; [apply full_page_dated|].
    constructor; [apply item_scored_dated | constructor]. }
  split; [simpl; lia|].
  split; [vm_compute; reflexivity|].
  intros [w' [H _]].
  apply (f_equal (fun o => match fst o with
                           | Ret posts => List.length posts
                           | _ => 0%nat
                           end)) in H.
  vm_compute in H. discriminate H.
Qed.

Lemma request_failure_witness :
  public_loop broken_env public_cfg 1 "vosfinances" "all" 100 (PStr "abc") 2 collect
              [post_of_item "vosfinances" (item_scored 50);
               post_of_item "vosfinances" (item_scored 20)]
              (log_http (TopPage "vosfinances" "all" 100 None) start) =
  (Ret [post_of_item "vosfinances" (item_scored 50);
        post_of_item "vosfinances" (item_scored 20)],
   log_http (TopPage "vosfinances" "all" 98 (Some (PStr "abc")))
            (log_http (TopPage "vosfinances" "all" 100 None) start)) /\
  exists w',
    fetch_subreddit_posts_public broken_env public_cfg 2 "vosfinances" "all" 100 collect [] start =
    (Ret [post_of_item "vosfinances" (item_scored 50);
          post_of_item "vosfinances" (item_scored 20)], w') /\
    issued 2 start w'.
Proof.
  split.
  - apply (proj1 (request_failure_aborts_pagination broken_env public_cfg)
             (list Post.t) 0%nat "vosfinances" "all" 100 (PStr "abc") 2 collect).
    + reflexivity.
    + reflexivity.
  - apply (proj2 (request_failure_aborts_pagination broken_env public_cfg)
             2%nat "vosfinances" "all" 100 [page_one] start).
    + apply scripted_served.
    + repeat constructor; discriminate.
    + repeat constructor; intro H; vm_compute in H; discriminate H.
    + reflexivity.
    + simpl. lia.
Defined.

Lemma body_lengths_witness :
  fetch_all_posts commented_env public_cfg 1 true 100 start =
  (Ret [Post.update (post_of_item "vosfinances" (item_scored 50)) a_comment],
   snd (fetch_all_posts commented_env public_cfg 1 true 100 start)) /\
  Forall caps_ok [Post.update (post_of_item "vosfinances" (item_scored 50)) a_comment].
Proof.
  assert (E : fetch_all_posts commented_env public_cfg 1 true 100 start =
              (Ret [Post.update (post_of_item "vosfinances" (item_scored 50)) a_comment],
               snd (fetch_all_posts commented_env public_cfg 1 true 100 start)))
    by (vm_compute; reflexivity).
  split; [exact E|].
  exact (proj1 (proj2 (proj2 (body_lengths_capped commented_env public_cfg)))
           _ _ _ _ _ _ E).
Defined.

(** ** Fallback to the public transport *)

Lemma rel_out_same_harvest {A} (Rw : World -> World -> Prop) (o1 o2 : Res A * World) :
  (forall w1 w2, Rw w1 w2 -> http_log w1 = http_log w2) ->
  rel_out Rw eq o1 o2 -> same_harvest o1 o2.
Proof.
  intros HRw [Hw Hr]. split; [|apply HRw; assumption].
  destruct (fst o1), (fst o2); try contradiction; subst; reflexivity.
Qed.

Section FallbackHarvest.

Variable env : Env.
Variable cfg : Config.
Variable Rw : World -> World -> Prop.
Variable with_comments : bool.

Hypothesis Rw_http : forall w1 w2, Rw w1 w2 -> http_log w1 = http_log w2.
Hypothesis Rw_log :
  forall req w1 w2, Rw w1 w2 -> Rw (log_http req w1) (log_http req w2).

(** The generator of the first run behaves as the public one. *)
Hypothesis posts_fall_back :
  forall (body1 body2 : Post.t -> list Post.t -> M (list Post.t)) sub,
    (forall p s1 s2, public_built env cfg sub p -> s1 = s2 ->
                     mrel Rw eq (body1 p s1) (body2 p s2)) ->
    forall fuel tf limit s,
      mrel Rw eq
           (fetch_subreddit_posts env cfg fuel sub tf limit body1 s)
           (fetch_subreddit_posts_public env (public_only cfg) fuel sub tf limit body2 s).

(** So does its comment fetch, when comments are asked for. *)
Hypothesis comment_falls_back :
  with_comments = true ->
  forall post_id sub,
    mrel Rw eq (fetch_top_comment env cfg post_id sub)
               (fetch_top_comment_public env post_id sub).

Lemma all_posts_body_falls_back sub p acc :
  mrel Rw eq (all_posts_body env cfg with_comments sub p acc)
             (all_posts_body env (public_only cfg) with_comments sub p acc).
Proof.
  unfold all_posts_body. apply mrel_bind with (R := eq).
  - destruct with_comments eqn:Hwc.
    + unfold enrich. apply mrel_bind with (R := eq).
      * apply comment_falls_back. reflexivity.
      * intros c ? <-. apply mrel_ret. reflexivity.
    + apply mrel_ret. reflexivity.
  - intros p' ? <-. apply mrel_ret. reflexivity.
Qed.

Lemma fetch_all_posts_falls_back fuel limit :
  mrel Rw eq (fetch_all_posts env cfg fuel with_comments limit)
             (fetch_all_posts env (public_only cfg) fuel with_comments limit).
Proof.
  unfold fetch_all_posts. cbn [SUBREDDITS TIME_FILTER public_only].
  apply mrel_for_in; [|reflexivity].
  intros sub s1 s2 _ <-.
  apply posts_fall_back. intros p t1 t2 _ <-. apply all_posts_body_falls_back.
Qed.

End FallbackHarvest.

Lemma get_reddit_client_cached env cfg w r :
  api_selected cfg = true ->
  reddit_instance w = Some r ->
  get_reddit_client env cfg w = (Ret (Some r), w).
Proof.
  unfold api_selected, get_reddit_client. intros Hsel Hr.
  apply andb_true_iff in Hsel. destruct Hsel as [-> ->]. simpl.
  rewrite Hr. reflexivity.
Qed.

Lemma get_reddit_client_keeps_requests env cfg w :
  exists reddit w', get_reddit_client env cfg w = (Ret reddit, w') /\
                    http_log w' = http_log w.
Proof.
  unfold get_reddit_client.
  destruct (negb (REDDIT_API_ENABLED cfg) || negb (PRAW_AVAILABLE cfg)).
  - eexists; eexists; split; reflexivity.
  - destruct (reddit_instance w).
    + eexists; eexists; split; reflexivity.
    + destruct (praw_Reddit env (praw_log w)).
      * destruct (praw_me env _); eexists; eexists; split; reflexivity.
      * eexists; eexists; split; reflexivity.
Qed.

(** While the constructor raises, no client is obtained and none is kept. *)
Lemma get_reddit_client_unreachable env cfg w :
  (forall h, praw_Reddit env h = false) ->
  reddit_instance w = None ->
  exists w', get_reddit_client env cfg w = (Ret None, w') /\
             http_log w' = http_log w /\ reddit_instance w' = None.
Proof.
  intros Hfail Hnone. unfold get_reddit_client.
  destruct (negb (REDDIT_API_ENABLED cfg) || negb (PRAW_AVAILABLE cfg)).
  - exists w. repeat split; assumption.
  - rewrite Hnone, Hfail. eexists. repeat split; assumption.
Qed.

Lemma same_requests_no_client_log req w1 w2 :
  same_requests_no_client w1 w2 ->
  same_requests_no_client (log_http req w1) (log_http req w2).
Proof.
  intros [Hh Hi]. split; simpl; [rewrite Hh; reflexivity | assumption].
Qed.

Lemma same_requests_log req w1 w2 :
  same_requests w1 w2 -> same_requests (log_http req w1) (log_http req w2).
Proof.
  unfold same_requests. intros Hh. simpl. rewrite Hh. reflexivity.
Qed.

Lemma public_only_min cfg : MIN_SCORE cfg = MIN_SCORE (public_only cfg).
Proof. reflexivity. Qed.

(** With the constructor always raising, the generator is the public one. *)
Lemma posts_unreachable_client env cfg :
  (forall h, praw_Reddit env h = false) ->
  forall (body1 body2 : Post.t -> list Post.t -> M (list Post.t)) sub,
    (forall p s1 s2, public_built env cfg sub p -> s1 = s2 ->
                     mrel same_requests_no_client eq (body1 p s1) (body2 p s2)) ->
    forall fuel tf limit s,
      mrel same_requests_no_client eq
           (fetch_subreddit_posts env cfg fuel sub tf limit body1 s)
           (fetch_subreddit_posts_public env (public_only cfg) fuel sub tf limit body2 s).
Proof.
  intros Hfail body1 body2 sub Hbody fuel tf limit s.
  assert (Hpublic : mrel same_requests_no_client eq
            (fetch_subreddit_posts_public env cfg fuel sub tf limit body1 s)
            (fetch_subreddit_posts_public env (public_only cfg) fuel sub tf limit body2 s)).
  { unfold fetch_subreddit_posts_public.
    apply public_loop_rel; try reflexivity; try assumption.
    - intros w1 w2 [H _]; exact H.
    - intros req w1 w2; apply same_requests_no_client_log. }
  unfold fetch_subreddit_posts. destruct (api_selected cfg); [|exact Hpublic].
  intros w1 w2 [Hh Hi]. unfold fetch_subreddit_posts_praw.
  destruct (get_reddit_client_unreachable env cfg w1 Hfail Hi) as [w1' [Hget [Hh' Hi']]].
  erewrite bind_run by exact Hget. apply Hpublic. split; congruence.
Qed.

Lemma comment_unreachable_client env cfg :
  (forall h, praw_Reddit env h = false) ->
  forall post_id sub,
    mrel same_requests_no_client eq
         (fetch_top_comment env cfg post_id sub)
         (fetch_top_comment_public env post_id sub).
Proof.
  intros Hfail post_id sub.
  assert (Hpublic : mrel same_requests_no_client eq
            (fetch_top_comment_public env post_id sub)
            (fetch_top_comment_public env post_id sub)).
  { apply fetch_top_comment_public_rel.
    - intros w1 w2 [H _]; exact H.
    - intros req w1 w2; apply same_requests_no_client_log. }
  unfold fetch_top_comment. destruct (api_selected cfg); [|exact Hpublic].
  intros w1 w2 [Hh Hi]. unfold fetch_top_comment_praw.
  destruct (get_reddit_client_unreachable env cfg w1 Hfail Hi) as [w1' [Hget [Hh' Hi']]].
  erewrite bind_run by exact Hget. apply Hpublic. split; congruence.
Qed.

(** With every listing request raising at once, the generator runs the
    public fetch from its start, whether or not a client is obtained. *)
Lemma posts_failing_listing env cfg :
  (forall h r sub tf limit, praw_top env h r sub tf limit = ([], true)) ->
  forall (body1 body2 : Post.t -> list Post.t -> M (list Post.t)) sub,
    (forall p s1 s2, public_built env cfg sub p -> s1 = s2 ->
                     mrel same_requests eq (body1 p s1) (body2 p s2)) ->
    forall fuel tf limit s,
      mrel same_requests eq
           (fetch_subreddit_posts env cfg fuel sub tf limit body1 s)
           (fetch_subreddit_posts_public env (public_only cfg) fuel sub tf limit body2 s).
Proof.
  intros Hfail body1 body2 sub Hbody fuel tf limit s.
  assert (Hpublic : mrel same_requests eq
            (fetch_subreddit_posts_public env cfg fuel sub tf limit body1 s)
            (fetch_subreddit_posts_public env (public_only cfg) fuel sub tf limit body2 s)).
  { unfold fetch_subreddit_posts_public.
    apply public_loop_rel; try reflexivity; try assumption.
    - intros w1 w2 H; exact H.
    - intros req w1 w2; apply same_requests_log. }
  unfold fetch_subreddit_posts. destruct (api_selected cfg); [|exact Hpublic].
  intros w1 w2 Hh. unfold fetch_subreddit_posts_praw.
  destruct (get_reddit_client_keeps_requests env cfg w1) as [reddit [w1' [Hget Hh']]].
  erewrite bind_run by exact Hget. destruct reddit as [r|].
  - unfold bind at 1. unfold praw_call_top. rewrite Hfail.
    cbn [praw_for]. rewrite bind_ret. cbn [andb negb].
    apply Hpublic. unfold same_requests in *. simpl. congruence.
  - apply Hpublic. unfold same_requests in *. congruence.
Qed.

(** C2, amended. When every attempt to construct the authenticated client
    raises, so that no client is ever obtained, [fetch_all_posts] returns
    the same ordered list, after the same public requests, as the public
    transport alone; and so it does, when no comments are asked for, if
    every authenticated listing request raises at once.  With a client at
    hand, a comment request that raises gives no comment and issues no
    public request. *)
Theorem fallback_equivalence (env : Env) (cfg : Config) (fuel : nat) (limit : Z) :
  (forall with_comments w,
      (forall h, praw_Reddit env h = false) ->
      reddit_instance w = None ->
      same_harvest (fetch_all_posts env cfg fuel with_comments limit w)
                   (fetch_all_posts env (public_only cfg) fuel with_comments limit w)) /\
  (forall w,
      (forall h r sub tf l, praw_top env h r sub tf l = ([], true)) ->
      same_harvest (fetch_all_posts env cfg fuel false limit w)
                   (fetch_all_posts env (public_only cfg) fuel false limit w)) /\
  (forall post_id sub w r,
      api_selected cfg = true ->
      reddit_instance w = Some r ->
      praw_comments env (praw_log w) r post_id = None ->
      fetch_top_comment env cfg post_id sub w =
      (Ret None, log_praw (CallComments r post_id) w)).
Proof.
  split; [|split].
  - intros with_comments w Hfail Hnone.
    apply (@rel_out_same_harvest _ same_requests_no_client); [intros w1 w2 [H _]; exact H|].
    apply fetch_all_posts_falls_back.
    + apply posts_unreachable_client; exact Hfail.
    + intros _. apply comment_unreachable_client; exact Hfail.
    + split; [reflexivity | assumption].
  - intros w Hfail.
    apply (@rel_out_same_harvest _ same_requests); [intros w1 w2 H; exact H|].
    apply fetch_all_posts_falls_back.
    + apply posts_failing_listing; exact Hfail.
    + discriminate.
    + reflexivity.
  - intros post_id sub w r Hsel Hr Hraise.
    unfold fetch_top_comment. rewrite Hsel. unfold fetch_top_comment_praw.
    erewrite bind_run by (apply get_reddit_client_cached; eassumption).
    unfold bind, praw_call_comments. rewrite Hraise. reflexivity.
Qed.

Lemma fallback_equivalence_witness :
  same_harvest (fetch_all_posts unreachable_env praw_cfg 1 true 100 start)
               (fetch_all_posts unreachable_env (public_only praw_cfg) 1 true 100 start) /\
  same_harvest (fetch_all_posts raising_env praw_cfg 1 false 100 start)
               (fetch_all_posts raising_env (public_only praw_cfg) 1 false 100 start).
Proof.
  split.
  - apply (proj1 (fallback_equivalence unreachable_env praw_cfg 1 100) true start).
    + intros h. reflexivity.
    + reflexivity.
  - apply (proj1 (proj2 (fallback_equivalence raising_env praw_cfg 1 100)) start).
    intros h r sub tf l. reflexivity.
Defined.

(** With the client obtained and every authenticated request raising at
    once, the harvest with comments returns the post without its comment,
    where the public transport alone returns it with the comment merged
    in; the same happens when only the connection test raises. *)
Lemma fallback_loses_comments :
  fst (fetch_all_posts raising_env praw_cfg 1 true 100 start) =
    Ret [post_of_item "vosfinances" (item_scored 50)] /\
  fst (fetch_all_posts unauthenticated_env praw_cfg 1 true 100 start) =
    Ret [post_of_item "vosfinances" (item_scored 50)] /\
  fst (fetch_all_posts raising_env (public_only praw_cfg) 1 true 100 start) =
    Ret [Post.update (post_of_item "vosfinances" (item_scored 50)) a_comment] /\
  ~ same_harvest (fetch_all_posts raising_env praw_cfg 1 true 100 start)
                 (fetch_all_posts raising_env (public_only praw_cfg) 1 true 100 start).
Proof.
  split; [vm_compute; reflexivity|].
  split; [vm_compute; reflexivity|].
  split; [vm_compute; reflexivity|].
  intros [H _]. vm_compute in H. discriminate H.
Qed.

(** ** The cached client *)

Lemma constructor_failure_is_retried env cfg w :
  api_selected cfg = true ->
  reddit_instance w = None ->
  praw_Reddit env (praw_log w) = false ->
  get_reddit_client env cfg w = (Ret None, log_praw CallReddit w) /\
  reddit_instance (log_praw CallReddit w) = None.
Proof.
  unfold api_selected, get_reddit_client. intros Hsel Hnone Hfail.
  apply andb_true_iff in Hsel. destruct Hsel as [-> ->]. simpl.
  rewrite Hnone, Hfail. split; [reflexivity | first [assumption | reflexivity]].
Qed.

Lemma test_failure_is_cached env cfg w :
  api_selected cfg = true ->
  reddit_instance w = None ->
  praw_Reddit env (praw_log w) = true ->
  praw_me env (praw_log w ++ [CallReddit]) = false ->
  exists r w1,
    get_reddit_client env cfg w = (Ret None, w1) /\
    reddit_instance w1 = Some r /\
    get_reddit_client env cfg w1 = (Ret (Some r), w1).
Proof.
  unfold api_selected, get_reddit_client. intros Hsel Hnone Hok Hme.
  apply andb_true_iff in Hsel. destruct Hsel as [-> ->]. simpl.
  rewrite Hnone, Hok. simpl. rewrite Hme.
  eexists. eexists. split; [reflexivity|]. split; reflexivity.
Qed.

(** C6 fails on the code. The constructor returns and the connection test
    raises: the first call answers "no client" but has already stored the
    untested instance in the global, and the next call returns that
    instance without constructing or testing anything (the PRAW log does
    not grow). *)
Theorem failed_test_leaves_client_cached :
  get_reddit_client unauthenticated_env praw_cfg start =
    (Ret None,
     {| http_log := [];
        praw_log := [CallReddit; CallMe {| serial := 0 |}];
        reddit_instance := Some {| serial := 0 |} |}) /\
  get_reddit_client unauthenticated_env praw_cfg
    {| http_log := [];
       praw_log := [CallReddit; CallMe {| serial := 0 |}];
       reddit_instance := Some {| serial := 0 |} |} =
    (Ret (Some {| serial := 0 |}),
     {| http_log := [];
        praw_log := [CallReddit; CallMe {| serial := 0 |}];
        reddit_instance := Some {| serial := 0 |} |}).
Proof. split; reflexivity. Qed.

(** ** Malformed bodies *)

(** Pages that never pass the filter and never end keep the loop going:
    whatever the fuel, the public fetch does not return. *)
Lemma endless_pages_never_return (fuel : nat) :
  forall after w,
    fst (public_loop endless_env public_cfg fuel "vosfinances" "all" 100 after 0
                     collect [] w) = Timeout.
Proof.
  induction fuel as [|fuel IH]; intros after w; [reflexivity|].
  cbn [public_loop]. change (0 <? 100) with true. cbv iota.
  unfold bind at 1. unfold try_except, bind at 1. unfold requests_get.
  change (http endless_env (http_log w)
               (page_request "vosfinances" "all" 100 after 0))
    with (HttpOk (page_json [item_scored 5] (Some "next"))).
  cbv iota. unfold ret at 1. cbv beta iota.
  exact (IH (PStr "next") (log_http (page_request "vosfinances" "all" 100 after 0) w)).
Qed.

(** C4 fails on the code. A comment thread answered by a JSON object with
    two keys passes the [len(data) > 1] test and [data[1]] raises a
    [KeyError], which [except requests.RequestException] does not catch:
    it leaves [fetch_top_comment], [fetch_all_posts] and
    [fetch_new_posts].  A page holding a [null] child raises an
    [AttributeError] out of [fetch_all_posts] in the same way. *)
Theorem malformed_body_raises :
  fst (fetch_top_comment misshapen_env public_cfg (PStr "p50") "vosfinances" start) =
    Raise KeyError /\
  fst (fetch_all_posts misshapen_env public_cfg 1 true 100 start) = Raise KeyError /\
  fst (fetch_new_posts misshapen_env public_cfg 1 (float_of 1700003600 0) 24 true start)
    = Raise KeyError /\
  fst (fetch_all_posts null_child_env public_cfg 1 false 100 start) = Raise AttributeError.
Proof. repeat split; vm_compute; reflexivity. Qed.

(** ** A listing that raises after some yields *)

Lemma bind_assoc {A B C} (m : M A) (k : A -> M B) (h : B -> M C) w :
  bind (bind m k) h w = bind m (fun a => bind (k a) h) w.
Proof.
  unfold bind. destruct (m w) as [[a| |] w1]; reflexivity.
Qed.

Lemma bind_ext {A B} (m : M A) (k1 k2 : A -> M B) w :
  (forall a u, k1 a u = k2 a u) -> bind m k1 w = bind m k2 w.
Proof.
  intros H. unfold bind. destruct (m w) as [[a| |] w1]; [apply H | reflexivity | reflexivity].
Qed.

Lemma praw_for_yielded {S} cfg sub listing (body : Post.t -> S -> M S) :
  forall s w,
    praw_for cfg sub listing body s w =
    bind (for_in (praw_yielded cfg sub listing) body s)
         (fun s' => ret (praw_completes cfg sub listing, s')) w.
Proof.
  induction listing as [|post rest IH]; intros s w; simpl.
  - reflexivity.
  - destruct (praw_post cfg sub post) as [[p|]| |]; simpl.
    + rewrite bind_assoc. apply bind_ext. intros s' u. apply IH.
    + apply IH.
    + reflexivity.
    + reflexivity.
Qed.

(** C7, amended. When the authenticated listing raises after [k] posts
    have been yielded (the listing itself raises after delivering its
    submissions, or a submission's timestamp makes the loop raise), the
    consumer receives those [k] posts and then the whole public fetch of
    the same community, time filter and limit, started from its first
    page: one continuous sequence, in which the public transport serves
    again whatever it holds of the first [k] posts. *)
Theorem praw_failure_restarts_public {S} env cfg fuel sub tf limit
        (body : Post.t -> S -> M S) (s : S) w r listing fails :
  api_selected cfg = true ->
  reddit_instance w = Some r ->
  praw_top env (praw_log w) r sub tf limit = (listing, fails) ->
  fails = true \/ praw_completes cfg sub listing = false ->
  fetch_subreddit_posts_praw env cfg fuel sub tf limit body s w =
  bind (for_in (praw_yielded cfg sub listing) body s)
       (fun s' => fetch_subreddit_posts_public env cfg fuel sub tf limit body s')
       (log_praw (CallTop r sub tf limit) w).
Proof.
  intros Hsel Hr Htop Hraise. unfold fetch_subreddit_posts_praw.
  erewrite bind_run by (apply get_reddit_client_cached; eassumption).
  unfold bind at 1. unfold praw_call_top. rewrite Htop.
  unfold bind at 1. rewrite praw_for_yielded. unfold bind.
  destruct (for_in (praw_yielded cfg sub listing) body s
                   (log_praw (CallTop r sub tf limit) w)) as [[s'| |] w1];
    try reflexivity.
  unfold ret. replace (praw_completes cfg sub listing && negb fails) with false.
  - reflexivity.
  - destruct Hraise as [-> | ->]; [rewrite andb_false_r|]; reflexivity.
Qed.

Lemma praw_failure_witness :
  fetch_subreddit_posts_praw interrupted_env praw_cfg 1 "vosfinances" "all" 100
                             collect [] connected =
  bind (for_in [post_of_item "vosfinances" (item_scored 50)] collect [])
       (fun s' => fetch_subreddit_posts_public interrupted_env praw_cfg 1
                    "vosfinances" "all" 100 collect s')
       (log_praw (CallTop {| serial := 0 |} "vosfinances" "all" 100) connected).
Proof.
  apply (@praw_failure_restarts_public _ interrupted_env praw_cfg 1 "vosfinances" "all" 100
           collect [] connected {| serial := 0 |} [submission_50] true).
  - reflexivity.
  - reflexivity.
  - reflexivity.
  - left. reflexivity.
Defined.

(** The post of score 50, already yielded by the authenticated listing,
    is delivered a second time by the public fetch, which starts at its
    first page with the full limit. *)
Lemma fallback_repeats_yielded_posts :
  fetch_subreddit_posts_praw interrupted_env praw_cfg 1 "vosfinances" "all" 100
                             collect [] start =
  (Ret [post_of_item "vosfinances" (item_scored 50);
        post_of_item "vosfinances" (item_scored 50);
        post_of_item "vosfinances" (item_scored 20)],
   {| http_log := [TopPage "vosfinances" "all" 100 None];
      praw_log := [CallReddit; CallMe {| serial := 0 |};
                   CallTop {| serial := 0 |} "vosfinances" "all" 100];
      reddit_instance := Some {| serial := 0 |} |}) /\
  ~ NoDup [post_of_item "vosfinances" (item_scored 50);
           post_of_item "vosfinances" (item_scored 50);
           post_of_item "vosfinances" (item_scored 20)].
Proof.
  split; [vm_compute; reflexivity|].
  intros H. inversion H as [|? ? Hnotin _]. apply Hnotin. left. reflexivity.
Qed.

(** ** The author field *)

Lemma praw_for_ext {S} cfg sub listing (body1 body2 : Post.t -> S -> M S) :
  (forall p t u, praw_built cfg sub p -> body1 p t u = body2 p t u) ->
  forall s w, praw_for cfg sub listing body1 s w = praw_for cfg sub listing body2 s w.
Proof.
  intros Hbody. induction listing as [|post rest IH]; intros s w; simpl.
  - reflexivity.
  - destruct (praw_post cfg sub post) as [[p|]| |] eqn:Hp; try reflexivity.
    + unfold bind. rewrite (Hbody p s w) by (exists post; exact Hp).
      destruct (body2 p s w) as [[s'| |] w1]; [apply IH | reflexivity | reflexivity].
    + apply IH.
Qed.

Lemma top_comment_of_author data c :
  top_comment_of data = Ret (Some c) ->
  exists second listing comments first comment_data,
    py_item data 1 = Ret second /\
    py_get second "data" (PDict []) = Ret listing /\
    py_get listing "children" (PList []) = Ret comments /\
    py_item comments 0 = Ret first /\
    py_get first "data" (PDict []) = Ret comment_data /\
    py_get comment_data "author" PNone = Ret (Comment.comment_author c).
Proof.
  unfold top_comment_of. intros H. rbind_inv H.
  destruct (1 <? v); [|discriminate]. rbind_inv H.
  destruct (truthy v2); [|discriminate]. rbind_inv H.
  destruct (py_eq_str v4 "t1"); [|discriminate]. rbind_inv H.
  inversion H; subst; clear H. simpl.
  exists v0, v1, v2, v5, v6. repeat split; assumption.
Qed.

(** C10, amended. A post or comment built by the authenticated transport
    carries a string as author, "[deleted]" when the source has none, and
    the consumer of the authenticated listing is handed no other post.  A
    post or comment built by the public transport carries what the
    response holds under its "author" key, as it is: the null value when
    the key is missing. *)
Theorem author_field_by_transport (env : Env) (cfg : Config) :
  (forall sub post p,
      praw_post cfg sub post = Ret (Some p) ->
      Post.author p = PStr (author_or_deleted (sub_author post))) /\
  (forall S sub listing (body1 body2 : Post.t -> S -> M S) s w,
      (forall p t u, is_str (Post.author p) -> body1 p t u = body2 p t u) ->
      praw_for cfg sub listing body1 s w = praw_for cfg sub listing body2 s w) /\
  (forall post_id sub w r c w',
      api_selected cfg = true ->
      reddit_instance w = Some r ->
      fetch_top_comment_praw env cfg post_id sub w = (Ret (Some c), w') ->
      exists top rest,
        praw_comments env (praw_log w) r post_id = Some (top :: rest) /\
        Comment.comment_author c = PStr (author_or_deleted (pc_author top))) /\
  (forall sub post p,
      public_post env cfg sub post = Ret (Some p) ->
      exists post_data,
        py_get post "data" (PDict []) = Ret post_data /\
        py_get post_data "author" PNone = Ret (Post.author p)) /\
  (forall data c,
      top_comment_of data = Ret (Some c) ->
      exists second listing comments first comment_data,
        py_item data 1 = Ret second /\
        py_get second "data" (PDict []) = Ret listing /\
        py_get listing "children" (PList []) = Ret comments /\
        py_item comments 0 = Ret first /\
        py_get first "data" (PDict []) = Ret comment_data /\
        py_get comment_data "author" PNone = Ret (Comment.comment_author c)).
Proof.
  split; [|split; [|split; [|split]]].
  - intros sub post p H. unfold praw_post in H.
    destruct (MIN_SCORE cfg <=? sub_score post); [|discriminate].
    destruct (utc_strftime (sub_created_utc post)); [|discriminate].
    inversion H; subst; clear H. simpl.
    destruct (sub_author post); reflexivity.
  - intros S sub listing body1 body2 s w H. apply praw_for_ext.
    intros p t u [post Hp]. apply H. exact (proj2 (praw_post_fresh _ _ _ Hp)).
  - intros post_id sub w r c w' Hsel Hr H. unfold fetch_top_comment_praw in H.
    erewrite bind_run in H by (apply get_reddit_client_cached; eassumption).
    unfold bind, praw_call_comments in H.
    destruct (praw_comments env (praw_log w) r post_id) as [[|top rest]|];
      inversion H; subst; clear H.
    exists top, rest. split; [reflexivity|]. simpl.
    destruct (pc_author top); reflexivity.
  - intros sub post p H. exact (public_post_author _ _ _ _ H).
  - intros data c H. exact (top_comment_of_author _ H).
Qed.

Lemma author_field_witness :
  Post.author (post_of_item "vosfinances" (item_scored 50)) = PStr "alice" /\
  (exists top rest,
      praw_comments (example_env true true ([], false)
                                 (Some [{| pc_id := "c1"; pc_body := Some "nice";
                                           pc_score := 7; pc_author := None |}])
                                 (web [] a_thread))
                    (praw_log connected) {| serial := 0 |} (PStr "p50") = Some (top :: rest) /\
      PStr "[deleted]" = PStr (author_or_deleted (pc_author top))) /\
  exists post_data,
    py_get anonymous_item "data" (PDict []) = Ret post_data /\
    py_get post_data "author" PNone = Ret PNone.
Proof.
  split; [|split].
  - apply (proj1 (author_field_by_transport interrupted_env praw_cfg)
             "vosfinances" submission_50 (post_of_item "vosfinances" (item_scored 50))).
    reflexivity.
  - apply (proj1 (proj2 (proj2 (author_field_by_transport
             (example_env true true ([], false)
                          (Some [{| pc_id := "c1"; pc_body := Some "nice";
                                    pc_score := 7; pc_author := None |}])
                          (web [] a_thread)) praw_cfg)))
             (PStr "p50") "vosfinances" connected {| serial := 0 |}
             {| Comment.comment_id := PStr "c1"; Comment.comment_body := PStr "nice";
                Comment.comment_score := PInt 7;
                Comment.comment_author := PStr "[deleted]" |}
             (log_praw (CallComments {| serial := 0 |} (PStr "p50")) connected)).
    + reflexivity.
    + reflexivity.
    + reflexivity.
  - apply (proj1 (proj2 (proj2 (proj2 (author_field_by_transport anonymous_env public_cfg))))
             "vosfinances" anonymous_item (Post.bare anonymous_post)).
    reflexivity.
Defined.

(** The public transport builds a post and a comment whose author is the
    null value, not a string. *)
Lemma public_author_may_be_null :
  fst (fetch_all_posts anonymous_env public_cfg 1 true 100 start) = Ret [anonymous_post] /\
  Post.author anonymous_post = PNone /\
  ~ is_str (Post.author anonymous_post) /\
  option_map Comment.comment_author (Post.comment anonymous_post) = Some PNone.
Proof.
  split; [vm_compute; reflexivity|].
  split; [reflexivity|].
  split; [|reflexivity].
  intros [s H]. discriminate H.
Qed.

(** ** Incremental harvest *)

Lemma rel_out_map_out {A B} (f : B -> A) (o1 : Res A * World) (o2 : Res B * World) :
  rel_out eq (fun a b => a = f b) o1 o2 -> o1 = map_out f o2.
Proof.
  destruct o1 as [r1 w1], o2 as [r2 w2]. intros [Hw Hr]. simpl in Hw, Hr. subst w2.
  unfold map_out. simpl. destruct r1, r2; try contradiction; subst; reflexivity.
Qed.

Lemma traced_erases {S} (body : Post.t -> S -> M S) p s1 (s2 : S * list Post.t) :
  s1 = fst s2 ->
  mrel eq (fun a b => a = fst b) (body p s1) (traced body p s2).
Proof.
  intros -> w ? <-. unfold traced, bind, ret.
  destruct (body p (fst s2) w) as [[s'| |] w1]; split; simpl; auto.
Qed.

Lemma fetch_new_posts_erasure env cfg fuel now since_hours with_comments w :
  fetch_new_posts env cfg fuel now since_hours with_comments w =
  map_out fst (fetch_new_posts_traced env cfg fuel now since_hours with_comments w).
Proof.
  unfold fetch_new_posts, fetch_new_posts_traced, bind, lift.
  destruct (float_sub_int now (since_hours * 3600)) as [cutoff| |]; try reflexivity.
  apply rel_out_map_out. unfold day_window_loop.
  apply (@mrel_for_in eq _ _ _ (fun a b => a = fst b)); [|reflexivity|reflexivity].
  intros sub s1 s2 _ Hs.
  apply (@fetch_subreddit_posts_rel env cfg _ _ (fun a b => a = fst b)); [|assumption].
  intros p t1 t2 _ Ht. apply traced_erases. assumption.
Qed.

Lemma filter_snoc {A} (f : A -> bool) (l : list A) (x : A) :
  filter f (l ++ [x]) = if f x then filter f l ++ [x] else filter f l.
Proof.
  rewrite filter_app. simpl. destruct (f x); [reflexivity | apply app_nil_r].
Qed.

Lemma bare_fresh cfg sub p : fresh_post cfg sub p -> Post.bare p = p.
Proof.
  intros [_ [_ [Hn _]]]. destruct p; simpl in *; subst; reflexivity.
Qed.

Lemma traced_new_posts_body_subset env cfg cutoff wc sub p st w st' w' :
  fresh_post cfg sub p ->
  recent_subset cfg cutoff st ->
  traced (new_posts_body env cfg cutoff wc sub) p st w = (Ret st', w') ->
  recent_subset cfg cutoff st'.
Proof.
  intros Hp [Hsub Hscore] H. unfold traced in H.
  apply bind_ret_inv in H. destruct H as [acc' [w1 [Hbody H]]].
  inversion H; subst; clear H. unfold recent_subset. cbn [fst snd].
  split; [|apply Forall_app; split; [assumption | constructor; [exact (proj1 Hp) | constructor]]].
  unfold new_posts_body in Hbody.
  apply bind_ret_inv in Hbody. destruct Hbody as [b [w2 [Hge Hbody]]].
  assert (Hrecent : recent cutoff p = b).
  { unfold recent. unfold lift in Hge. inversion Hge as [[Hr Hw]]. rewrite Hr. reflexivity. }
  rewrite filter_snoc, Hrecent. destruct b.
  - apply bind_ret_inv in Hbody. destruct Hbody as [p' [w3 [Hen Hbody]]].
    inversion Hbody; subst; clear Hbody. rewrite map_app, Hsub. simpl. f_equal. f_equal.
    destruct wc.
    + exact (proj1 (enrich_bare _ _ _ _ _ Hen (proj1 (proj2 (proj2 Hp))))).
    + inversion Hen; subst. exact (bare_fresh Hp).
  - inversion Hbody; subst. exact Hsub.
Qed.

Lemma fetch_new_posts_traced_subset env cfg fuel now since_hours wc w posts seen w' :
  fetch_new_posts_traced env cfg fuel now since_hours wc w = (Ret (posts, seen), w') ->
  exists cutoff,
    float_sub_int now (since_hours * 3600) = Ret cutoff /\
    map Post.bare posts = filter (recent cutoff) seen /\
    Forall (score_ok cfg) seen.
Proof.
  unfold fetch_new_posts_traced. intros H.
  apply bind_ret_inv in H. destruct H as [cutoff [w0 [Hcut H]]].
  unfold lift in Hcut. injection Hcut as Hcut <-.
  exists cutoff. split; [exact Hcut|].
  unfold day_window_loop in H.
  change (recent_subset cfg cutoff (posts, seen)).
  eapply (for_in_inv (recent_subset cfg cutoff)); [| |exact H].
  - intros sub t u t' u' _ Ht Hrun.
    eapply (@fetch_subreddit_posts_inv _ (recent_subset cfg cutoff));
      [|exact Ht|exact Hrun].
    intros p a b a' b' Hp Ha Hb.
    eapply traced_new_posts_body_subset; [apply (built_fresh Hp)|exact Ha|exact Hb].
  - split; [reflexivity | constructor].
Qed.

Lemma new_posts_body_pure env cfg cutoff sub it acc w :
  new_posts_body env cfg cutoff false sub (post_of_item sub it) acc w =
  (Ret (keep_recent cutoff (post_of_item sub it) acc), w).
Proof.
  unfold new_posts_body, keep_recent, recent. simpl.
  destruct (int_ge_float (it_created_utc it) cutoff); reflexivity.
Qed.

Lemma feed_keep_recent cutoff posts acc :
  feed (keep_recent cutoff) posts acc = acc ++ filter (recent cutoff) posts.
Proof.
  unfold feed. revert acc. induction posts as [|p posts IH]; intros acc; simpl.
  - rewrite app_nil_r. reflexivity.
  - rewrite IH. unfold keep_recent. destruct (recent cutoff p).
    + rewrite <- app_assoc. reflexivity.
    + reflexivity.
Qed.

Lemma served_first env h r rest : served env h (r :: rest) -> served env h [r].
Proof.
  intros H h' req k r' Hlen Hk. apply (H h' req k); [assumption|].
  destruct k as [|k]; [exact Hk | destruct k; discriminate Hk].
Qed.

Lemma served_after_one env w w1 r rest :
  issued 1 w w1 -> served env (http_log w) (r :: rest) -> served env (http_log w1) rest.
Proof.
  intros [reqs [Hlen ->]] H. simpl.
  destruct reqs as [|req [|? ?]]; try discriminate Hlen.
  exact (served_tail req H).
Qed.

Lemma issued_trans n m w w1 w2 : issued n w w1 -> issued m w1 w2 -> issued (n + m) w w2.
Proof.
  intros [r1 [H1 ->]] [r2 [H2 ->]]. exists (r1 ++ r2). split.
  - rewrite length_app. congruence.
  - simpl. rewrite app_assoc. reflexivity.
Qed.

Lemma day_window_public_run env cfg fuel cutoff :
  api_selected cfg = false ->
  (0 < fuel)%nat ->
  forall subs pages acc w,
    List.length pages = List.length subs ->
    served env (http_log w) (map single_page pages) ->
    Forall (Forall item_dated) pages ->
    exists w',
      for_in subs
             (fun sub acc =>
                fetch_subreddit_posts env cfg fuel sub "day" 100
                  (new_posts_body env cfg cutoff false sub) acc)
             acc w =
      (Ret (acc ++ day_window_expected cfg cutoff subs pages), w') /\
      issued (List.length subs) w w'.
Proof.
  intros Hsel Hfuel.
  induction subs as [|sub subs IH]; intros pages acc w Hlen Hserved Hdated.
  - exists w. simpl. rewrite app_nil_r. split; [reflexivity | apply issued_zero].
  - destruct pages as [|items pages]; [discriminate Hlen|].
    simpl in Hlen. injection Hlen as Hlen.
    inversion Hdated as [|? ? Hd Hdated']; subst.
    destruct (@public_loop_script env cfg _ (keep_recent cutoff)
                (new_posts_body env cfg cutoff false sub) sub "day" 100
                (fun it s u => new_posts_body_pure env cfg cutoff sub it s u)
                [] fuel PNone 0 acc w (LastPage items))
      as [w1 [Hrun Hiss]].
    + exact (served_first Hserved).
    + constructor.
    + exact Hd.
    + reflexivity.
    + exact Hfuel.
    + destruct (IH pages (acc ++ recent_posts cfg cutoff sub items) w1 Hlen) as [w' [Hrest Hiss']].
      * exact (served_after_one Hiss Hserved).
      * exact Hdated'.
      * exists w'. split; [|exact (issued_trans Hiss Hiss')].
        cbn [for_in]. unfold fetch_subreddit_posts at 1. rewrite Hsel.
        unfold fetch_subreddit_posts_public.
        erewrite bind_run by exact Hrun.
        simpl script_items. simpl ending_items. simpl app at 1.
        rewrite feed_keep_recent.
        change (filter (recent cutoff) (accepted_posts cfg sub items))
          with (recent_posts cfg cutoff sub items).
        rewrite Hrest. simpl. rewrite <- app_assoc. reflexivity.
Qed.

(** *** The clock *)

Example float_sub_int_half_past :
  float_sub_int half_past (24 * 3600) = Ret cutoff_half_past /\
  float_sub_int on_the_second (24 * 3600) = Ret cutoff_on_the_second.
Proof. split; vm_compute; reflexivity. Qed.

Example int_ge_float_boundary :
  int_ge_float 1700003600 cutoff_half_past = false /\
  int_ge_float 1700003601 cutoff_half_past = true /\
  int_ge_float 1700003600 cutoff_on_the_second = true /\
  int_ge_float 1700003599 cutoff_on_the_second = false.
Proof. repeat split. Qed.

Example float_of_int_rounds :
  float_of_int (2 ^ 53 + 1) = Ret (float_of (2 ^ 53) 0) /\
  float_of_int (2 ^ 53 + 3) = Ret (float_of (2 ^ 53 + 4) 0) /\
  float_of_int (2 ^ 1024 - 2 ^ 970 - 1) = Ret (float_of (2 ^ 1024 - 2 ^ 971) 0) /\
  float_of_int (2 ^ 1024 - 2 ^ 970) = Raise OverflowError /\
  float_of_int (- 10 ^ 305 * 3600) = Raise OverflowError.
Proof. repeat split; vm_compute; reflexivity. Qed.

(** The comparison with a float is a threshold on the integers: a
    creation time passes it exactly when it is at or above the cutoff
    rounded up. *)
Lemma int_ge_float_threshold s m e :
  exists k, forall a, int_ge_float a (S754_finite s m e) = (k <=? a).
Proof.
  unfold int_ge_float. destruct (Z.leb_spec 0 e) as [He | He].
  - eexists. intros a. reflexivity.
  - set (v := SpecFloat.cond_Zopp s (Z.pos m)). set (d := 2 ^ (- e)).
    assert (Hd : 0 < d) by (apply Z.pow_pos_nonneg; lia).
    exists ((v + d - 1) / d). intros a.
    pose proof (Z.div_mod (v + d - 1) d ltac:(lia)) as Hdiv.
    pose proof (Z.mod_pos_bound (v + d - 1) d Hd) as Hmod.
    destruct (Z.leb_spec v (a * d)) as [H1 | H1];
      destruct (Z.leb_spec ((v + d - 1) / d) a) as [H2 | H2];
      try reflexivity; exfalso; nia.
Qed.

Lemma int_ge_float_mono a b x :
  a <= b -> int_ge_float a x = true -> int_ge_float b x = true.
Proof.
  intros Hab. destruct x as [s|s| |s m e]; simpl; try (intros H; exact H).
  - intros H. apply Z.leb_le in H. apply Z.leb_le. lia.
  - destruct (int_ge_float_threshold s m e) as [k Hk].
    change (int_ge_float a (S754_finite s m e) = true ->
            int_ge_float b (S754_finite s m e) = true).
    rewrite !Hk. intros H. apply Z.leb_le in H. apply Z.leb_le. lia.
Qed.

(** *** Day windows served by the request alone *)

Section Site.

Variable env : Env.
Variable cfg : Config.
Variable S : Type.
Variable f : Post.t -> S -> S.
Variable body : Post.t -> S -> M S.
Variable sub tf : string.
Variable limit : Z.

(** On the posts of well-formed items the consumer returns what [f]
    computes, whatever requests it issues. *)
Hypothesis body_result :
  forall it s w, exists w',
      body (post_of_item sub it) s w = (Ret (f (post_of_item sub it) s), w').

Lemma public_for_site items :
  Forall item_dated items ->
  forall s total w,
  exists w',
    public_for env cfg sub (map item_json items) body s total w =
    (Ret (feed f (accepted_posts cfg sub items) s, total + count_accepted cfg items), w').
Proof.
  induction 1 as [|it items Hd _ IH]; intros s total w.
  - exists w. simpl. unfold ret, count_accepted. simpl. rewrite Z.add_0_r. reflexivity.
  - cbn [map public_for]. unfold bind at 1. unfold lift at 1.
    rewrite (public_post_item env cfg sub Hd).
    unfold accepted_posts, count_accepted. cbn [filter].
    destruct (accepted cfg it).
    + destruct (body_result it s w) as [w1 Hb].
      destruct (IH (f (post_of_item sub it) s) (total + 1) w1) as [w' Hrun].
      exists w'. unfold bind. rewrite Hb, Hrun.
      cbn [map List.length feed fold_left]. unfold accepted_posts, count_accepted, feed.
      rewrite Nat2Z.inj_succ, <- Z.add_1_l, Z.add_assoc. reflexivity.
    + apply IH.
Qed.

Lemma public_loop_site pages :
  forall fuel after total s w e,
    paged env sub tf (if truthy after then Some after else None) pages e ->
    Forall well_paged pages ->
    Forall item_dated (script_items pages ++ ending_items e) ->
    total + count_accepted cfg (script_items pages) < limit ->
    (List.length pages < fuel)%nat ->
    exists w',
      public_loop env cfg fuel sub tf limit after total body s w =
      (Ret (feed f (accepted_posts cfg sub (script_items pages ++ ending_items e)) s), w').
Proof.
  induction pages as [|[items tok] pages IH];
    intros fuel after total s w e Hpaged Hwell Hdated Hlimit Hfuel;
    (destruct fuel as [|fuel]; [simpl in Hfuel; lia|]).
  - cbn [paged] in Hpaged. cbn [script_items map List.concat app] in *.
    assert (Hlt : (total <? limit) = true).
    { apply Z.ltb_lt. unfold count_accepted in Hlimit. simpl in Hlimit. lia. }
    cbn [public_loop]. rewrite Hlt.
    unfold bind at 1. unfold try_except, bind at 1. unfold requests_get, page_request.
    rewrite Hpaged.
    destruct e as [items|]; cbn [ending_response ending_items] in *.
    + unfold ret at 1. cbn [page_json py_get assoc String.eqb Ascii.eqb Bool.eqb lift bind].
      destruct items as [|it items].
      * eexists. reflexivity.
      * cbn [truthy map negb py_iter]. rewrite bind_lift_ret.
        rewrite <- (map_cons item_json).
        destruct (public_for_site Hdated s total
                    (log_http (TopPage sub tf (Z.min (limit - total) 100)
                                       (if truthy after then Some after else None)) w))
          as [w' Hrun].
        exists w'. erewrite bind_run by exact Hrun. reflexivity.
    + eexists. reflexivity.
  - cbn [paged fst snd] in Hpaged. destruct Hpaged as [Hpage Hrest].
    inversion Hwell as [|? ? [Hitems Htok] Hwell']; subst. simpl in Hitems, Htok.
    change (script_items ((items, tok) :: pages)) with (items ++ script_items pages) in *.
    rewrite <- app_assoc in Hdated. apply Forall_app in Hdated.
    destruct Hdated as [Hd Hdated].
    rewrite (count_accepted_app cfg) in Hlimit.
    pose proof (count_accepted_nonneg cfg items) as Hn1.
    pose proof (count_accepted_nonneg cfg (script_items pages)) as Hn2.
    destruct (public_for_site Hd s total
                (log_http (TopPage sub tf (Z.min (limit - total) 100)
                                   (if truthy after then Some after else None)) w))
      as [w1 Hfor].
    destruct (IH fuel (PStr tok) (total + count_accepted cfg items)
                 (feed f (accepted_posts cfg sub items) s) w1 e) as [w' Hrun].
    + rewrite (truthy_token Htok). exact Hrest.
    + assumption.
    + assumption.
    + lia.
    + simpl in Hfuel. lia.
    + exists w'.
      rewrite <- app_assoc, (accepted_posts_app cfg), feed_app, <- Hrun.
      cbn [public_loop]. assert (Hlt : (total <? limit) = true) by (apply Z.ltb_lt; lia).
      rewrite Hlt. unfold bind at 1. unfold try_except, bind at 1.
      unfold requests_get, page_request. rewrite Hpage.
      unfold page_response, ret at 1.
      cbn [fst snd page_json py_get assoc String.eqb Ascii.eqb Bool.eqb lift bind token_json].
      rewrite (truthy_items Hitems). cbn [negb py_iter]. rewrite bind_lift_ret.
      erewrite bind_run by exact Hfor.
      cbv beta iota. rewrite bind_lift_ret.
      cbn [py_get assoc String.eqb Ascii.eqb Bool.eqb]. rewrite bind_lift_ret.
      rewrite (truthy_token Htok). reflexivity.
Qed.

End Site.

Lemma fetch_top_comment_public_threads env comments post_id sub w :
  threads env comments ->
  fetch_top_comment_public env post_id sub w =
  (Ret (comments sub post_id), log_http (CommentThread sub post_id) w).
Proof.
  intros Ht. specialize (Ht (http_log w) sub post_id).
  unfold fetch_top_comment_public, try_except, bind, requests_get, lift.
  destruct (http env (http_log w) (CommentThread sub post_id)) as [data|];
    cbn [thread_comment] in Ht.
  - rewrite Ht. reflexivity.
  - injection Ht as <-. reflexivity.
Qed.

Lemma new_posts_body_site env cfg cutoff wc comments sub :
  api_selected cfg = false ->
  threads env comments ->
  forall it acc w, exists w',
      new_posts_body env cfg cutoff wc sub (post_of_item sub it) acc w =
      (Ret (keep_enriched cutoff wc (comments sub) (post_of_item sub it) acc), w').
Proof.
  intros Hsel Ht it acc w. unfold new_posts_body, keep_enriched, recent, enriched.
  cbn [post_of_item Post.created_utc Post.id py_ge_float]. rewrite bind_lift_ret.
  destruct (int_ge_float (it_created_utc it) cutoff); [|eexists; reflexivity].
  destruct wc; [|eexists; reflexivity].
  unfold enrich, fetch_top_comment. rewrite Hsel.
  unfold bind. rewrite (fetch_top_comment_public_threads _ _ _ Ht).
  cbn [Post.id]. eexists. reflexivity.
Qed.

Lemma feed_keep_enriched cutoff wc top posts acc :
  feed (keep_enriched cutoff wc top) posts acc =
  acc ++ map (enriched wc top) (filter (recent cutoff) posts).
Proof.
  unfold feed. revert acc. induction posts as [|p posts IH]; intros acc; simpl.
  - rewrite app_nil_r. reflexivity.
  - rewrite IH. unfold keep_enriched. destruct (recent cutoff p).
    + simpl. rewrite <- app_assoc. reflexivity.
    + reflexivity.
Qed.

Lemma new_posts_site_run env cfg fuel cutoff wc comments :
  api_selected cfg = false ->
  threads env comments ->
  forall subs exs,
    Forall2 (fun sub (ex : Exchange) => paged env sub "day" None (fst ex) (snd ex)) subs exs ->
    Forall (exchange_ok cfg 100 fuel) exs ->
    forall acc w,
    exists w',
      for_in subs
             (fun sub acc =>
                fetch_subreddit_posts env cfg fuel sub "day" 100
                  (new_posts_body env cfg cutoff wc sub) acc)
             acc w =
      (Ret (acc ++ new_posts_expected cfg cutoff wc comments subs exs), w').
Proof.
  intros Hsel Ht.
  induction 1 as [|sub [pages e] subs exs Hpaged _ IH]; intros Hok acc w.
  - exists w. simpl. rewrite app_nil_r. reflexivity.
  - inversion Hok as [|? ? [Hwell [Hdated [Hlimit Hfuel]]] Hok']; subst.
    cbn [fst snd] in *.
    destruct (@public_loop_site env cfg _ (keep_enriched cutoff wc (comments sub))
                (new_posts_body env cfg cutoff wc sub) sub "day" 100
                (@new_posts_body_site env cfg cutoff wc comments sub Hsel Ht)
                pages fuel PNone 0 acc w e Hpaged Hwell Hdated)
      as [w1 Hrun]; [lia | exact Hfuel |].
    destruct (IH Hok'
                 (acc ++ map (enriched wc (comments sub))
                             (filter (recent cutoff)
                                     (accepted_posts cfg sub (exchange_items (pages, e)))))
                 w1) as [w' Hrest].
    exists w'. cbn [for_in]. unfold fetch_subreddit_posts at 1. rewrite Hsel.
    unfold fetch_subreddit_posts_public.
    erewrite bind_run by exact Hrun.
    rewrite feed_keep_enriched.
    change (script_items pages ++ ending_items e) with (exchange_items (pages, e)).
    rewrite Hrest. cbn [new_posts_expected]. rewrite <- app_assoc. reflexivity.
Qed.

(** *** Day windows served by the authenticated transport *)

Lemma praw_completes_dated cfg sub listing :
  Forall (fun post => utc_strftime (sub_created_utc post) <> None) listing ->
  praw_completes cfg sub listing = true.
Proof.
  induction 1 as [|post rest Hd _ IH]; simpl; [reflexivity|].
  unfold praw_post. destruct (MIN_SCORE cfg <=? sub_score post); [|exact IH].
  destruct (utc_strftime (sub_created_utc post)); [exact IH | contradiction].
Qed.

Lemma praw_yielded_timed cfg sub listing :
  Forall (fun p => exists z id, Post.created_utc p = PInt z /\ Post.id p = PStr id)
         (praw_yielded cfg sub listing).
Proof.
  induction listing as [|post rest IH]; simpl; [constructor|].
  unfold praw_post at 1.
  destruct (MIN_SCORE cfg <=? sub_score post); [|exact IH].
  destruct (utc_strftime (sub_created_utc post)); [|constructor].
  constructor; [|exact IH]. eexists. eexists. split; reflexivity.
Qed.

Lemma at_hand_log_praw env h0 c w : at_hand env h0 w -> at_hand env h0 (log_praw c w).
Proof. intros [Hc Hh]. split; assumption. Qed.

Lemma get_reddit_client_at_hand env cfg h0 w :
  api_selected cfg = true ->
  at_hand env h0 w ->
  exists r w1,
    get_reddit_client env cfg w = (Ret (Some r), w1) /\ at_hand env h0 w1.
Proof.
  intros Hsel [Hconn Hlog]. unfold get_reddit_client.
  unfold api_selected in Hsel. apply andb_true_iff in Hsel. destruct Hsel as [-> ->].
  cbn [negb orb].
  destruct (reddit_instance w) as [r|] eqn:Hr.
  - exists r, w. split; [reflexivity|]. split; [left; congruence | exact Hlog].
  - destruct Hconn as [Hsome | Halways]; [congruence|].
    rewrite (proj1 (Halways _)), (proj2 (Halways _)).
    eexists. eexists. split; [reflexivity|].
    split; [left; discriminate | exact Hlog].
Qed.

Lemma fetch_top_comment_at_hand env cfg answers h0 post_id sub w :
  api_selected cfg = true ->
  (forall log r id, praw_comments env log r id = answers id) ->
  at_hand env h0 w ->
  exists w',
    fetch_top_comment env cfg post_id sub w = (Ret (praw_top_comment (answers post_id)), w') /\
    at_hand env h0 w'.
Proof.
  intros Hsel Hans Hw. unfold fetch_top_comment. rewrite Hsel.
  unfold fetch_top_comment_praw.
  destruct (get_reddit_client_at_hand cfg Hsel Hw) as [r [w1 [Hget Hw1]]].
  erewrite bind_run by exact Hget.
  unfold bind, praw_call_comments. rewrite Hans.
  exists (log_praw (CallComments r post_id) w1).
  split; [|apply at_hand_log_praw; exact Hw1].
  unfold praw_top_comment. destruct (answers post_id) as [[|top rest]|]; reflexivity.
Qed.

Lemma new_posts_body_at_hand env cfg cutoff wc answers h0 sub p acc w :
  api_selected cfg = true ->
  (forall log r id, praw_comments env log r id = answers id) ->
  (exists z id, Post.created_utc p = PInt z /\ Post.id p = PStr id) ->
  at_hand env h0 w ->
  exists w',
    new_posts_body env cfg cutoff wc sub p acc w =
    (Ret (keep_enriched cutoff wc (fun id => praw_top_comment (answers id)) p acc), w') /\
    at_hand env h0 w'.
Proof.
  intros Hsel Hans [z [id [Hz Hid]]] Hw.
  unfold new_posts_body, keep_enriched, recent, enriched. rewrite Hz.
  cbn [py_ge_float]. rewrite bind_lift_ret.
  destruct (int_ge_float z cutoff); [|exists w; split; [reflexivity | exact Hw]].
  destruct wc; [|exists w; split; [reflexivity | exact Hw]].
  unfold enrich.
  destruct (@fetch_top_comment_at_hand env cfg answers h0 (Post.id p) sub w Hsel Hans Hw)
    as [w' [Hrun Hw']].
  exists w'. split; [|exact Hw'].
  unfold bind. rewrite Hrun. reflexivity.
Qed.

Lemma for_in_feed {S} (Q : World -> Prop) (f : Post.t -> S -> S)
      (body : Post.t -> S -> M S) posts :
  (forall p s w, In p posts -> Q w ->
                 exists w', body p s w = (Ret (f p s), w') /\ Q w') ->
  forall s w, Q w ->
              exists w', for_in posts body s w = (Ret (feed f posts s), w') /\ Q w'.
Proof.
  induction posts as [|p posts IH]; intros Hbody s w Hw.
  - exists w. split; [reflexivity | exact Hw].
  - destruct (Hbody p s w (or_introl eq_refl) Hw) as [w1 [Hb Hw1]].
    destruct (IH (fun q t u Hq => Hbody q t u (or_intror Hq)) (f p s) w1 Hw1)
      as [w' [Hrun Hw']].
    exists w'. split; [|exact Hw'].
    cbn [for_in]. erewrite bind_run by exact Hb. exact Hrun.
Qed.

Lemma new_posts_praw_run env cfg fuel cutoff wc answers listing h0 :
  api_selected cfg = true ->
  (forall log r sub, praw_top env log r sub "day" 100 = (listing sub, false)) ->
  (forall sub, Forall (fun post => utc_strftime (sub_created_utc post) <> None)
                      (listing sub)) ->
  (forall log r id, praw_comments env log r id = answers id) ->
  forall subs acc w,
    at_hand env h0 w ->
    exists w',
      for_in subs
             (fun sub acc =>
                fetch_subreddit_posts env cfg fuel sub "day" 100
                  (new_posts_body env cfg cutoff wc sub) acc)
             acc w =
      (Ret (acc ++ praw_posts_expected cfg cutoff wc answers listing subs), w') /\
      at_hand env h0 w'.
Proof.
  intros Hsel Htop Hdated Hans.
  induction subs as [|sub subs IH]; intros acc w Hw.
  - exists w. simpl. rewrite app_nil_r. split; [reflexivity | exact Hw].
  - destruct (get_reddit_client_at_hand cfg Hsel Hw) as [r [w1 [Hget Hw1]]].
    destruct (@for_in_feed _ (at_hand env h0)
                (keep_enriched cutoff wc (fun id => praw_top_comment (answers id)))
                (new_posts_body env cfg cutoff wc sub)
                (praw_yielded cfg sub (listing sub)))
      with (s := acc) (w := log_praw (CallTop r sub "day" 100) w1)
      as [w2 [Hfor Hw2]].
    + intros p s u Hin Hu.
      apply new_posts_body_at_hand; try assumption.
      exact (proj1 (Forall_forall _ _) (praw_yielded_timed cfg sub (listing sub)) p Hin).
    + apply at_hand_log_praw. exact Hw1.
    + destruct (IH (feed (keep_enriched cutoff wc (fun id => praw_top_comment (answers id)))
                         (praw_yielded cfg sub (listing sub)) acc) w2 Hw2)
        as [w' [Hrest Hw']].
      assert (Hfetch :
                fetch_subreddit_posts env cfg fuel sub "day" 100
                  (new_posts_body env cfg cutoff wc sub) acc w =
                (Ret (feed (keep_enriched cutoff wc
                              (fun id => praw_top_comment (answers id)))
                           (praw_yielded cfg sub (listing sub)) acc), w2)).
      { unfold fetch_subreddit_posts. rewrite Hsel.
        unfold fetch_subreddit_posts_praw.
        erewrite bind_run by exact Hget.
        unfold bind at 1. unfold praw_call_top. rewrite Htop.
        unfold bind at 1. rewrite praw_for_yielded. unfold bind.
        rewrite Hfor, (praw_completes_dated cfg sub (Hdated sub)). reflexivity. }
      exists w'. split; [|exact Hw'].
      cbn [for_in]. erewrite bind_run by exact Hfetch.
      rewrite Hrest, feed_keep_enriched.
      cbn [praw_posts_expected]. rewrite <- app_assoc. reflexivity.
Qed.

(** C5. [fetch_new_posts] returns exactly the posts handed over by the
    day-window fetches (all of which passed the score filter) whose
    creation time is at or after the cutoff [time.time() - since_hours *
    3600], as the binary64 subtraction computes it and the exact
    comparison of an integer with a float decides it, in the order they
    were handed over: ranking order within a community, communities in the
    configured order; enrichment only merges the comment keys in.  When
    [since_hours * 3600] is too large for a float the call raises before
    any request.  Otherwise a result is produced, with or without
    comments: over the public transport when each community's day window is
    served page by page by the request alone (the pages ending in a page
    without token or in a failing request) and the comment threads are
    well formed, and over the authenticated transport when the listings
    end normally; also against a public transport that answers the k-th
    request with one page of the k-th community. *)
Theorem incremental_harvest_exact (env : Env) (cfg : Config) (fuel : nat)
        (now : spec_float) (since_hours : Z) :
  (forall with_comments w,
      fetch_new_posts env cfg fuel now since_hours with_comments w =
      map_out fst (fetch_new_posts_traced env cfg fuel now since_hours with_comments w)) /\
  (forall with_comments w posts seen w',
      fetch_new_posts_traced env cfg fuel now since_hours with_comments w =
      (Ret (posts, seen), w') ->
      exists cutoff,
        float_sub_int now (since_hours * 3600) = Ret cutoff /\
        map Post.bare posts = filter (recent cutoff) seen /\
        Forall (score_ok cfg) seen) /\
  (forall with_comments w e,
      float_sub_int now (since_hours * 3600) = Raise e ->
      fetch_new_posts env cfg fuel now since_hours with_comments w = (Raise e, w)) /\
  (forall cutoff with_comments comments (exs : list Exchange) w,
      api_selected cfg = false ->
      float_sub_int now (since_hours * 3600) = Ret cutoff ->
      Forall2 (fun sub (ex : Exchange) => paged env sub "day" None (fst ex) (snd ex))
              (SUBREDDITS cfg) exs ->
      Forall (exchange_ok cfg 100 fuel) exs ->
      threads env comments ->
      exists w',
        fetch_new_posts env cfg fuel now since_hours with_comments w =
        (Ret (new_posts_expected cfg cutoff with_comments comments (SUBREDDITS cfg) exs),
         w')) /\
  (forall cutoff with_comments answers listing w,
      api_selected cfg = true ->
      float_sub_int now (since_hours * 3600) = Ret cutoff ->
      connects env w ->
      (forall log r sub, praw_top env log r sub "day" 100 = (listing sub, false)) ->
      (forall sub, Forall (fun post => utc_strftime (sub_created_utc post) <> None)
                          (listing sub)) ->
      (forall log r post_id, praw_comments env log r post_id = answers post_id) ->
      exists w',
        fetch_new_posts env cfg fuel now since_hours with_comments w =
        (Ret (praw_posts_expected cfg cutoff with_comments answers listing (SUBREDDITS cfg)),
         w') /\
        http_log w' = http_log w) /\
  (forall cutoff w (pages : list (list Item)),
      api_selected cfg = false ->
      float_sub_int now (since_hours * 3600) = Ret cutoff ->
      (0 < fuel)%nat ->
      List.length pages = List.length (SUBREDDITS cfg) ->
      served env (http_log w) (map single_page pages) ->
      Forall (Forall item_dated) pages ->
      exists w',
        fetch_new_posts env cfg fuel now since_hours false w =
        (Ret (day_window_expected cfg cutoff (SUBREDDITS cfg) pages), w') /\
        issued (List.length (SUBREDDITS cfg)) w w').
Proof.
  split; [|split; [|split; [|split; [|split]]]].
  - intros with_comments w. apply fetch_new_posts_erasure.
  - intros with_comments w posts seen w' H.
    exact (fetch_new_posts_traced_subset _ _ _ _ _ _ _ H).
  - intros with_comments w e Hcut. unfold fetch_new_posts, bind, lift.
    rewrite Hcut. reflexivity.
  - intros cutoff with_comments comments exs w Hsel Hcut Hpaged Hok Ht.
    unfold fetch_new_posts. erewrite bind_run by (unfold lift; rewrite Hcut; reflexivity).
    unfold day_window_loop.
    exact (@new_posts_site_run env cfg fuel cutoff with_comments comments Hsel Ht
             (SUBREDDITS cfg) exs Hpaged Hok [] w).
  - intros cutoff with_comments answers listing w Hsel Hcut Hconn Htop Hdated Hans.
    unfold fetch_new_posts. erewrite bind_run by (unfold lift; rewrite Hcut; reflexivity).
    unfold day_window_loop.
    destruct (@new_posts_praw_run env cfg fuel cutoff with_comments answers listing
                (http_log w) Hsel Htop Hdated Hans (SUBREDDITS cfg) [] w
                (conj Hconn eq_refl)) as [w' [Hrun [_ Hlog]]].
    exists w'. split; [exact Hrun | exact Hlog].
  - intros cutoff w pages Hsel Hcut Hfuel Hlen Hserved Hdated.
    unfold fetch_new_posts. erewrite bind_run by (unfold lift; rewrite Hcut; reflexivity).
    unfold day_window_loop.
    exact (@day_window_public_run env cfg fuel cutoff Hsel Hfuel
             (SUBREDDITS cfg) pages [] w Hlen Hserved Hdated).
Qed.

Lemma incremental_harvest_witness :
  (exists w',
      fetch_new_posts day_env public_cfg 1 on_the_second 24 false start =
      (Ret [post_of_item "vosfinances" (item_at 50 1700010000);
            post_of_item "vosfinances" (item_at 20 1700003600)], w') /\
      issued 5 start w') /\
  (exists w',
      fetch_new_posts day_env public_cfg 1 half_past 24 false start =
      (Ret [post_of_item "vosfinances" (item_at 50 1700010000)], w') /\
      issued 5 start w') /\
  (exists w',
      fetch_new_posts day_site public_cfg 1 half_past 24 true start =
      (Ret [Post.update (post_of_item "vosfinances" (item_at 50 1700010000)) a_comment],
       w')) /\
  (exists w',
      fetch_new_posts day_praw_env praw_cfg 1 on_the_second 24 true start =
      (Ret (praw_posts_expected praw_cfg cutoff_on_the_second true day_forest day_listing
                                (SUBREDDITS praw_cfg)), w') /\
      http_log w' = http_log start) /\
  map Post.id (praw_posts_expected praw_cfg cutoff_on_the_second true day_forest day_listing
                                   (SUBREDDITS praw_cfg)) = [PStr "p50"; PStr "p20"] /\
  (exists cutoff,
      float_sub_int half_past (24 * 3600) = Ret cutoff /\
      map Post.bare [post_of_item "vosfinances" (item_at 50 1700010000)] =
      filter (recent cutoff)
             [post_of_item "vosfinances" (item_at 50 1700010000);
              post_of_item "vosfinances" (item_at 40 1700000000);
              post_of_item "vosfinances" (item_at 20 1700003600)] /\
      Forall (score_ok public_cfg)
             [post_of_item "vosfinances" (item_at 50 1700010000);
              post_of_item "vosfinances" (item_at 40 1700000000);
              post_of_item "vosfinances" (item_at 20 1700003600)]) /\
  fetch_new_posts day_env public_cfg 1 half_past (10 ^ 305) true start =
  (Raise OverflowError, start).
Proof.
  assert (Hdated : Forall (Forall item_dated) day_pages)
    by (repeat constructor; intro H; vm_compute in H; discriminate H).
  split; [|split; [|split; [|split; [|split; [|split]]]]].
  - apply (proj2 (proj2 (proj2 (proj2 (proj2
             (incremental_harvest_exact day_env public_cfg 1 on_the_second 24)))))
             cutoff_on_the_second start day_pages).
    + reflexivity.
    + vm_compute. reflexivity.
    + lia.
    + reflexivity.
    + apply scripted_served.
    + exact Hdated.
  - apply (proj2 (proj2 (proj2 (proj2 (proj2
             (incremental_harvest_exact day_env public_cfg 1 half_past 24)))))
             cutoff_half_past start day_pages).
    + reflexivity.
    + vm_compute. reflexivity.
    + lia.
    + reflexivity.
    + apply scripted_served.
    + exact Hdated.
  - apply (proj1 (proj2 (proj2 (proj2
             (incremental_harvest_exact day_site public_cfg 1 half_past 24))))
             cutoff_half_past true (fun _ _ => Some a_comment) day_exchanges start).
    + reflexivity.
    + vm_compute. reflexivity.
    + repeat constructor; intros h size; reflexivity.
    + repeat constructor; simpl; try lia; intro H; vm_compute in H; discriminate H.
    + intros h sub post_id. reflexivity.
  - apply (proj1 (proj2 (proj2 (proj2 (proj2
             (incremental_harvest_exact day_praw_env praw_cfg 1 on_the_second 24)))))
             cutoff_on_the_second true day_forest day_listing start).
    + reflexivity.
    + vm_compute. reflexivity.
    + right. intros log. split; reflexivity.
    + intros log r sub. reflexivity.
    + intros sub. unfold day_listing. destruct (sub =? "vosfinances")%string.
      * repeat constructor; intro H; vm_compute in H; discriminate H.
      * constructor.
    + intros log r post_id. reflexivity.
  - vm_compute. reflexivity.
  - assert (E : fetch_new_posts_traced day_env public_cfg 1 half_past 24 false start =
                (Ret ([post_of_item "vosfinances" (item_at 50 1700010000)],
                      [post_of_item "vosfinances" (item_at 50 1700010000);
                       post_of_item "vosfinances" (item_at 40 1700000000);
                       post_of_item "vosfinances" (item_at 20 1700003600)]),
                 snd (fetch_new_posts_traced day_env public_cfg 1 half_past 24 false start)))
      by (vm_compute; reflexivity).
    exact (proj1 (proj2 (incremental_harvest_exact day_env public_cfg 1 half_past 24))
             false start _ _ _ E).
  - apply (proj1 (proj2 (proj2
             (incremental_harvest_exact day_env public_cfg 1 half_past (10 ^ 305))))
             true start OverflowError).
    vm_compute. reflexivity.
Defined.

(** * Further properties *)

(** ** What the operations do to the world *)

Section Keeping.

Variable env : Env.
Variable cfg : Config.
Variable P : World -> World -> Prop.

Hypothesis P_refl : forall w, P w w.
Hypothesis P_trans : forall w1 w2 w3, P w1 w2 -> P w2 w3 -> P w1 w3.

Lemma keeps_ret {A} (a : A) : keeps P (ret a).
Proof. intros w. apply P_refl. Qed.

Lemma keeps_lift {A} (r : Res A) : keeps P (lift r).
Proof. intros w. apply P_refl. Qed.

Lemma keeps_bind {A B} (m : M A) (k : A -> M B) :
  keeps P m -> (forall a, keeps P (k a)) -> keeps P (bind m k).
Proof.
  intros Hm Hk w. unfold bind. specialize (Hm w).
  destruct (m w) as [[a| |] w1]; simpl in *; try assumption.
  eapply P_trans; [exact Hm | apply Hk].
Qed.

Lemma keeps_try_except {A} (m : M A) (h : Exn -> option (M A)) :
  keeps P m ->
  (forall e k, h e = Some k -> keeps P k) ->
  keeps P (try_except m h).
Proof.
  intros Hm Hh w. unfold try_except. specialize (Hm w).
  destruct (m w) as [[a|e|] w1]; simpl in *; try assumption.
  destruct (h e) as [k|] eqn:He; simpl; [|assumption].
  eapply P_trans; [exact Hm | exact (Hh e k He w1)].
Qed.

Lemma keeps_for_in {A S} (xs : list A) (f : A -> S -> M S) :
  (forall x s, In x xs -> keeps P (f x s)) ->
  forall s, keeps P (for_in xs f s).
Proof.
  induction xs as [|x xs IH]; intros Hf s; simpl.
  - apply keeps_ret.
  - apply keeps_bind.
    + apply Hf. left; reflexivity.
    + intros s'. apply IH. intros y t Hy. apply Hf. right; assumption.
Qed.

Lemma keeps_requests_get req :
  (forall w, P w (log_http req w)) -> keeps P (requests_get env req).
Proof.
  intros H w. unfold requests_get.
  destruct (http env (http_log w) req); apply H.
Qed.

Lemma keeps_public_for {S} sub posts (body : Post.t -> S -> M S) :
  (forall p s, keeps P (body p s)) ->
  forall s total, keeps P (public_for env cfg sub posts body s total).
Proof.
  intros Hbody. induction posts as [|post rest IH]; intros s total; simpl.
  - apply keeps_ret.
  - apply keeps_bind; [apply keeps_lift|].
    intros [p|]; [|apply IH].
    apply keeps_bind; [apply Hbody|]. intros s'. apply IH.
Qed.

Lemma keeps_bind_post {A B} (Q : A -> Prop) (m : M A) (k : A -> M B) :
  keeps P m ->
  (forall w a w', m w = (Ret a, w') -> Q a) ->
  (forall a, Q a -> keeps P (k a)) ->
  keeps P (bind m k).
Proof.
  intros Hm HQ Hk w. unfold bind. specialize (Hm w). specialize (HQ w).
  destruct (m w) as [[a| |] w1]; simpl in *; try assumption.
  eapply P_trans; [exact Hm | apply Hk; eapply HQ; reflexivity].
Qed.

(** [total_fetched] only grows. *)
Lemma public_for_total_le {S} sub posts (body : Post.t -> S -> M S) :
  forall s total w s' total' w',
    public_for env cfg sub posts body s total w = (Ret (s', total'), w') ->
    total <= total'.
Proof.
  induction posts as [|post rest IH]; intros s total w s' total' w' H; simpl in H.
  - inversion H; subst. lia.
  - apply bind_ret_inv in H. destruct H as [[p|] [w1 [_ H]]].
    + apply bind_ret_inv in H. destruct H as [s1 [w2 [_ H]]].
      apply IH in H. lia.
    + apply IH in H. exact H.
Qed.

Lemma keeps_public_loop {S} sub tf limit (body : Post.t -> S -> M S) :
  (forall after total w,
      0 <= total < limit -> P w (log_http (page_request sub tf limit after total) w)) ->
  (forall p s, keeps P (body p s)) ->
  forall fuel after total s,
    0 <= total ->
    keeps P (public_loop env cfg fuel sub tf limit after total body s).
Proof.
  intros Hreq Hbody.
  induction fuel as [|fuel IH]; intros after total s Hpos; simpl.
  - apply keeps_lift.
  - destruct (total <? limit) eqn:Hlt; [|apply keeps_ret].
    apply Z.ltb_lt in Hlt.
    apply keeps_bind.
    + apply keeps_try_except.
      * apply keeps_bind; [|intros; apply keeps_ret].
        apply keeps_requests_get. intros w. apply Hreq. lia.
      * intros e k He. destruct (is_RequestException e); inversion He. apply keeps_ret.
    + intros [data|]; [|apply keeps_ret].
      apply keeps_bind; [apply keeps_lift|]. intros listing.
      apply keeps_bind; [apply keeps_lift|]. intros posts.
      destruct (negb (truthy posts)); [apply keeps_ret|].
      apply keeps_bind; [apply keeps_lift|]. intros items.
      apply keeps_bind_post with (Q := fun x : S * Z => total <= snd x).
      * apply keeps_public_for; exact Hbody.
      * intros w [s' total'] w' H. exact (public_for_total_le _ _ _ _ _ _ H).
      * intros [s' total'] Hle. simpl in Hle.
        apply keeps_bind; [apply keeps_lift|]. intros listing'.
        apply keeps_bind; [apply keeps_lift|]. intros after'.
        destruct (negb (truthy after')); [apply keeps_ret | apply IH; lia].
Qed.


Lemma keeps_fetch_top_comment_public post_id sub :
  (forall w, P w (log_http (CommentThread sub post_id) w)) ->
  keeps P (fetch_top_comment_public env post_id sub).
Proof.
  intros H. apply keeps_try_except.
  - apply keeps_bind; [apply keeps_requests_get; exact H|].
    intros data. apply keeps_lift.
  - intros e k He. destruct (is_RequestException e); inversion He. apply keeps_ret.
Qed.

(** What PRAW may do when the authenticated transport is selected. *)
Hypothesis P_top :
  api_selected cfg = true ->
  forall r sub tf limit w, P w (log_praw (CallTop r sub tf limit) w).
Hypothesis P_comments :
  api_selected cfg = true ->
  forall r post_id w, P w (log_praw (CallComments r post_id) w).
Hypothesis P_attempt :
  api_selected cfg = true ->
  forall w, reddit_instance w = None ->
    P w (log_praw CallReddit w) /\
    P w (log_praw (CallMe {| serial := List.length (praw_log w) |})
                  (set_instance {| serial := List.length (praw_log w) |}
                                (log_praw CallReddit w))).

Lemma api_selected_cases : api_selected cfg = true \/ api_selected cfg = false.
Proof. destruct (api_selected cfg); auto. Qed.

Lemma get_reddit_client_unselected w :
  api_selected cfg = false -> get_reddit_client env cfg w = (Ret None, w).
Proof.
  unfold api_selected, get_reddit_client. intros H.
  destruct (REDDIT_API_ENABLED cfg), (PRAW_AVAILABLE cfg); try discriminate; reflexivity.
Qed.

Lemma keeps_get_reddit_client : keeps P (get_reddit_client env cfg).
Proof.
  intros w. destruct api_selected_cases as [Hsel|Hsel].
  - unfold get_reddit_client. pose proof Hsel as Hboth. unfold api_selected in Hboth.
    apply andb_true_iff in Hboth. destruct Hboth as [He Ha]. rewrite He, Ha. simpl.
    destruct (reddit_instance w) eqn:Hi; [apply P_refl|].
    destruct (P_attempt Hsel w Hi) as [Hfail Hok].
    destruct (praw_Reddit env (praw_log w)); [|exact Hfail].
    destruct (praw_me env _); exact Hok.
  - rewrite get_reddit_client_unselected by assumption. apply P_refl.
Qed.

Lemma keeps_praw_for {S} sub listing (body : Post.t -> S -> M S) :
  (forall p s, keeps P (body p s)) ->
  forall s, keeps P (praw_for cfg sub listing body s).
Proof.
  intros Hbody. induction listing as [|post rest IH]; intros s; simpl.
  - apply keeps_ret.
  - destruct (praw_post cfg sub post) as [[p|]| |]; try apply keeps_ret; [|apply IH].
    apply keeps_bind; [apply Hbody|]. intros s'. apply IH.
Qed.

(** What the requests of one fetch may do. *)
Section OneFetch.

Variables sub tf : string.
Variable limit : Z.

Hypothesis P_page :
  forall after total w,
    0 <= total < limit -> P w (log_http (page_request sub tf limit after total) w).

Lemma keeps_fetch_subreddit_posts_public {S} fuel (body : Post.t -> S -> M S) s :
  (forall p t, keeps P (body p t)) ->
  keeps P (fetch_subreddit_posts_public env cfg fuel sub tf limit body s).
Proof. intros Hbody. apply keeps_public_loop; try assumption. lia. Qed.

Lemma keeps_fetch_subreddit_posts_praw {S} fuel (body : Post.t -> S -> M S) s :
  (forall p t, keeps P (body p t)) ->
  keeps P (fetch_subreddit_posts_praw env cfg fuel sub tf limit body s).
Proof.
  intros Hbody. destruct api_selected_cases as [Hsel|Hsel].
  - unfold fetch_subreddit_posts_praw.
    apply keeps_bind; [apply keeps_get_reddit_client|].
    intros [r|]; [|apply keeps_fetch_subreddit_posts_public; assumption].
    apply keeps_bind.
    + intros w. apply P_top. exact Hsel.
    + intros [listing fails].
      apply keeps_bind; [apply keeps_praw_for; assumption|].
      intros [completed s']. destruct (completed && negb fails); [apply keeps_ret|].
      apply keeps_fetch_subreddit_posts_public; assumption.
  - intros w. unfold fetch_subreddit_posts_praw.
    erewrite bind_run by (apply get_reddit_client_unselected; exact Hsel).
    apply keeps_fetch_subreddit_posts_public; assumption.
Qed.

Lemma keeps_fetch_subreddit_posts {S} fuel (body : Post.t -> S -> M S) s :
  (forall p t, keeps P (body p t)) ->
  keeps P (fetch_subreddit_posts env cfg fuel sub tf limit body s).
Proof.
  intros Hbody. unfold fetch_subreddit_posts.
  destruct api_selected_cases as [-> | ->].
  - apply keeps_fetch_subreddit_posts_praw; assumption.
  - apply keeps_fetch_subreddit_posts_public; assumption.
Qed.

End OneFetch.

Lemma keeps_fetch_top_comment_praw post_id sub :
  (forall w, P w (log_http (CommentThread sub post_id) w)) ->
  keeps P (fetch_top_comment_praw env cfg post_id sub).
Proof.
  intros Hthread. destruct api_selected_cases as [Hsel|Hsel].
  - unfold fetch_top_comment_praw.
    apply keeps_bind; [apply keeps_get_reddit_client|].
    intros [r|]; [|apply keeps_fetch_top_comment_public; assumption].
    apply keeps_bind.
    + intros w. apply P_comments. exact Hsel.
    + intros [[|top rest]|]; apply keeps_ret.
  - intros w. unfold fetch_top_comment_praw.
    erewrite bind_run by (apply get_reddit_client_unselected; exact Hsel).
    apply keeps_fetch_top_comment_public; assumption.
Qed.

Lemma keeps_fetch_top_comment post_id sub :
  (forall w, P w (log_http (CommentThread sub post_id) w)) ->
  keeps P (fetch_top_comment env cfg post_id sub).
Proof.
  intros Hthread. unfold fetch_top_comment.
  destruct api_selected_cases as [-> | ->].
  - apply keeps_fetch_top_comment_praw; assumption.
  - apply keeps_fetch_top_comment_public; assumption.
Qed.

Lemma keeps_enrich sub post :
  (forall post_id w, P w (log_http (CommentThread sub post_id) w)) ->
  keeps P (enrich env cfg sub post).
Proof.
  intros Hthread. unfold enrich.
  apply keeps_bind; [apply keeps_fetch_top_comment; apply Hthread|].
  intros c. apply keeps_ret.
Qed.

Lemma keeps_all_posts_body with_comments sub post acc :
  (with_comments = true ->
   forall post_id w, P w (log_http (CommentThread sub post_id) w)) ->
  keeps P (all_posts_body env cfg with_comments sub post acc).
Proof.
  intros Hthread. unfold all_posts_body. apply keeps_bind.
  - destruct with_comments; [apply keeps_enrich; apply Hthread; reflexivity | apply keeps_ret].
  - intros p'. apply keeps_ret.
Qed.

Lemma keeps_new_posts_body cutoff with_comments sub post acc :
  (with_comments = true ->
   forall post_id w, P w (log_http (CommentThread sub post_id) w)) ->
  keeps P (new_posts_body env cfg cutoff with_comments sub post acc).
Proof.
  intros Hthread. unfold new_posts_body.
  apply keeps_bind; [apply keeps_lift|]. intros [|]; [|apply keeps_ret].
  apply keeps_bind.
  - destruct with_comments; [apply keeps_enrich; apply Hthread; reflexivity | apply keeps_ret].
  - intros p'. apply keeps_ret.
Qed.

Lemma keeps_fetch_all_posts fuel with_comments limit :
  (forall sub after total w,
      In sub (SUBREDDITS cfg) -> 0 <= total < limit ->
      P w (log_http (page_request sub (TIME_FILTER cfg) limit after total) w)) ->
  (with_comments = true ->
   forall sub post_id w,
     In sub (SUBREDDITS cfg) -> P w (log_http (CommentThread sub post_id) w)) ->
  keeps P (fetch_all_posts env cfg fuel with_comments limit).
Proof.
  intros Hpage Hthread. unfold fetch_all_posts.
  apply keeps_for_in. intros sub acc Hin.
  apply keeps_fetch_subreddit_posts.
  - intros after total w. apply Hpage. exact Hin.
  - intros p t. apply keeps_all_posts_body.
    intros Hwc post_id w. apply Hthread; assumption.
Qed.

Lemma keeps_fetch_new_posts fuel now since_hours with_comments :
  (forall sub after total w,
      In sub (SUBREDDITS cfg) -> 0 <= total < 100 ->
      P w (log_http (page_request sub "day" 100 after total) w)) ->
  (with_comments = true ->
   forall sub post_id w,
     In sub (SUBREDDITS cfg) -> P w (log_http (CommentThread sub post_id) w)) ->
  keeps P (fetch_new_posts env cfg fuel now since_hours with_comments).
Proof.
  intros Hpage Hthread. unfold fetch_new_posts, day_window_loop.
  apply keeps_bind; [apply keeps_lift|]. intros cutoff_time.
  apply keeps_for_in. intros sub acc Hin.
  apply keeps_fetch_subreddit_posts.
  - intros after total w. apply Hpage. exact Hin.
  - intros p t. apply keeps_new_posts_body.
    intros Hwc post_id w. apply Hthread; assumption.
Qed.

End Keeping.

Lemma requests_since_refl ok w : requests_since ok w w.
Proof. exists []. split; [rewrite app_nil_r; reflexivity | constructor]. Qed.

Lemma requests_since_trans ok w1 w2 w3 :
  requests_since ok w1 w2 -> requests_since ok w2 w3 -> requests_since ok w1 w3.
Proof.
  intros [r1 [H1 F1]] [r2 [H2 F2]]. exists (r1 ++ r2). split.
  - rewrite H2, H1, app_assoc. reflexivity.
  - apply Forall_app. split; assumption.
Qed.

Lemma requests_since_log_http (ok : Request -> Prop) req w :
  ok req -> requests_since ok w (log_http req w).
Proof. intros H. exists [req]. split; [reflexivity | constructor; [exact H | constructor]]. Qed.

Lemma requests_since_same_log (ok : Request -> Prop) w w' :
  http_log w' = http_log w -> requests_since ok w w'.
Proof. intros H. exists []. split; [rewrite app_nil_r; exact H | constructor]. Qed.

Lemma harvest_page_request cfg tf with_comments limit sub after total :
  In sub (SUBREDDITS cfg) -> 0 <= total < limit ->
  harvest_request cfg tf with_comments limit (page_request sub tf limit after total).
Proof.
  intros Hin Ht. unfold page_request, harvest_request.
  repeat split; try assumption; lia.
Qed.

(** X1. Whatever the transports answer and however the run ends, every
    request [fetch_all_posts] issues is a listing page of a configured
    community, with the configured time filter and a page size between 1
    and 100 that never exceeds [limit_per_sub], or, only when comments are
    asked for, a comment thread of a configured community. *)
Theorem fetch_all_posts_requests (env : Env) (cfg : Config) (fuel : nat)
        (with_comments : bool) (limit : Z) (w : World) :
  requests_since (harvest_request cfg (TIME_FILTER cfg) with_comments limit)
                 w (snd (fetch_all_posts env cfg fuel with_comments limit w)).
Proof.
  apply (@keeps_fetch_all_posts env cfg
           (requests_since (harvest_request cfg (TIME_FILTER cfg) with_comments limit))).
  - apply requests_since_refl.
  - apply requests_since_trans.
  - intros _ r sub tf l u. apply requests_since_same_log. reflexivity.
  - intros _ r post_id u. apply requests_since_same_log. reflexivity.
  - intros _ u _. split; apply requests_since_same_log; reflexivity.
  - intros sub after total u Hin Ht. apply requests_since_log_http.
    apply harvest_page_request; assumption.
  - intros Hwc sub post_id u Hin. apply requests_since_log_http.
    split; assumption.
Qed.

(** X2. Every request [fetch_new_posts] issues is a listing page of a
    configured community with the time filter "day" and a page size
    between 1 and 100, or, only when comments are asked for, a comment
    thread of a configured community. *)
Theorem fetch_new_posts_requests (env : Env) (cfg : Config) (fuel : nat)
        (now : spec_float) (since_hours : Z) (with_comments : bool) (w : World) :
  requests_since (harvest_request cfg "day" with_comments 100)
                 w (snd (fetch_new_posts env cfg fuel now since_hours with_comments w)).
Proof.
  apply (@keeps_fetch_new_posts env cfg
           (requests_since (harvest_request cfg "day" with_comments 100))).
  - apply requests_since_refl.
  - apply requests_since_trans.
  - intros _ r sub tf l u. apply requests_since_same_log. reflexivity.
  - intros _ r post_id u. apply requests_since_same_log. reflexivity.
  - intros _ u _. split; apply requests_since_same_log; reflexivity.
  - intros sub after total u Hin Ht. apply requests_since_log_http.
    apply harvest_page_request; assumption.
  - intros Hwc sub post_id u Hin. apply requests_since_log_http.
    split; assumption.
Qed.

Lemma client_kept_refl r w : client_kept r w w.
Proof.
  intros H. split; [exact H|]. exists []. split; [rewrite app_nil_r; reflexivity | constructor].
Qed.

Lemma client_kept_trans r w1 w2 w3 :
  client_kept r w1 w2 -> client_kept r w2 w3 -> client_kept r w1 w3.
Proof.
  intros H12 H23 H1. destruct (H12 H1) as [H2 [c1 [L1 F1]]].
  destruct (H23 H2) as [H3 [c2 [L2 F2]]]. split; [exact H3|].
  exists (c1 ++ c2). split.
  - rewrite L2, L1, app_assoc. reflexivity.
  - apply Forall_app. split; assumption.
Qed.

Lemma client_kept_log_http r req w : client_kept r w (log_http req w).
Proof.
  intros H. split; [exact H|]. exists []. split; [rewrite app_nil_r; reflexivity | constructor].
Qed.

Lemma client_kept_log_praw r c w : quiet_call c -> client_kept r w (log_praw c w).
Proof.
  intros Hq H. split; [exact H|]. exists [c]. split; [reflexivity|].
  constructor; [exact Hq | constructor].
Qed.

(** X3. Once a client is stored in [_reddit_instance], it stays the cached
    client through [get_reddit_client], [fetch_top_comment],
    [fetch_all_posts] and [fetch_new_posts], whatever the transports do,
    and none of them constructs or tests a client again: the PRAW calls
    they add are listing and comment requests only. *)
Theorem cached_client_is_kept (env : Env) (cfg : Config) (r : Reddit) (w : World) :
  reddit_instance w = Some r ->
  kept_quietly r w (snd (get_reddit_client env cfg w)) /\
  (forall post_id sub, kept_quietly r w (snd (fetch_top_comment env cfg post_id sub w))) /\
  (forall fuel with_comments limit,
      kept_quietly r w (snd (fetch_all_posts env cfg fuel with_comments limit w))) /\
  (forall fuel now since_hours with_comments,
      kept_quietly r w (snd (fetch_new_posts env cfg fuel now since_hours with_comments w))).
Proof.
  intros Hcached.
  assert (Hattempt : api_selected cfg = true ->
            forall u, reddit_instance u = None ->
              client_kept r u (log_praw CallReddit u) /\
              client_kept r u
                (log_praw (CallMe {| serial := List.length (praw_log u) |})
                   (set_instance {| serial := List.length (praw_log u) |}
                      (log_praw CallReddit u)))).
  { intros _ u Hnone. split; intros Hsome; rewrite Hnone in Hsome; discriminate. }
  assert (Htop : api_selected cfg = true ->
            forall r' sub tf l u, client_kept r u (log_praw (CallTop r' sub tf l) u)).
  { intros _ r' sub tf l u. apply client_kept_log_praw. exact I. }
  assert (Hcomments : api_selected cfg = true ->
            forall r' post_id u, client_kept r u (log_praw (CallComments r' post_id) u)).
  { intros _ r' post_id u. apply client_kept_log_praw. exact I. }
  split; [|split; [|split]].
  - apply (@keeps_get_reddit_client env cfg (client_kept r));
      auto using client_kept_refl.
  - intros post_id sub.
    apply (@keeps_fetch_top_comment env cfg (client_kept r));
      eauto using client_kept_refl, client_kept_trans, client_kept_log_http.
  - intros fuel with_comments limit.
    apply (@keeps_fetch_all_posts env cfg (client_kept r));
      eauto using client_kept_refl, client_kept_trans, client_kept_log_http.
  - intros fuel now since_hours with_comments.
    apply (@keeps_fetch_new_posts env cfg (client_kept r));
      eauto using client_kept_refl, client_kept_trans, client_kept_log_http.
Qed.

Lemma cached_client_witness :
  kept_quietly {| serial := 0 |} connected
               (snd (fetch_all_posts interrupted_env praw_cfg 1 true 100 connected)).
Proof.
  apply (proj1 (proj2 (proj2 (@cached_client_is_kept interrupted_env praw_cfg
                                {| serial := 0 |} connected eq_refl)))).
Defined.

Lemma praw_untouched_refl w : praw_untouched w w.
Proof. split; reflexivity. Qed.

Lemma praw_untouched_trans w1 w2 w3 :
  praw_untouched w1 w2 -> praw_untouched w2 w3 -> praw_untouched w1 w3.
Proof. intros [A B] [C D]. split; congruence. Qed.

Lemma praw_untouched_log_http req w : praw_untouched w (log_http req w).
Proof. split; reflexivity. Qed.

Lemma missing_credentials client_id client_secret praw_available :
  client_id = None \/ client_id = Some "" \/
  client_secret = None \/ client_secret = Some "" \/ praw_available = false ->
  api_selected (config_py (reddit_api_enabled client_id client_secret) praw_available) = false.
Proof.
  intros H. unfold api_selected. simpl.
  destruct client_id as [i|], client_secret as [s|]; simpl; try reflexivity.
  destruct H as [H | [H | [H | [H | H]]]]; try discriminate.
  - inversion H; subst. reflexivity.
  - inversion H; subst. simpl. rewrite andb_false_r. reflexivity.
  - subst. apply andb_false_r.
Qed.

(** X4. When the authenticated transport is not selected, no operation
    ever touches PRAW: [fetch_subreddit_posts], [fetch_top_comment],
    [fetch_all_posts] and [fetch_new_posts] leave the PRAW call log and
    [_reddit_instance] as they were.  That is the case of [config.py]
    whenever [REDDIT_CLIENT_ID] or [REDDIT_CLIENT_SECRET] is unset or
    empty, or PRAW cannot be imported. *)
Theorem public_transport_leaves_praw_alone (env : Env) :
  (forall cfg w,
      api_selected cfg = false ->
      (forall fuel sub tf limit,
          praw_untouched w (snd (fetch_subreddit_posts env cfg fuel sub tf limit collect [] w))) /\
      (forall post_id sub, praw_untouched w (snd (fetch_top_comment env cfg post_id sub w))) /\
      (forall fuel with_comments limit,
          praw_untouched w (snd (fetch_all_posts env cfg fuel with_comments limit w))) /\
      (forall fuel now since_hours with_comments,
          praw_untouched w
            (snd (fetch_new_posts env cfg fuel now since_hours with_comments w)))) /\
  (forall client_id client_secret praw_available,
      client_id = None \/ client_id = Some "" \/
      client_secret = None \/ client_secret = Some "" \/ praw_available = false ->
      api_selected (config_py (reddit_api_enabled client_id client_secret) praw_available)
      = false).
Proof.
  split; [|apply missing_credentials].
  intros cfg w Hsel.
  assert (Hattempt : api_selected cfg = true ->
            forall u, reddit_instance u = None ->
              praw_untouched u (log_praw CallReddit u) /\
              praw_untouched u
                (log_praw (CallMe {| serial := List.length (praw_log u) |})
                   (set_instance {| serial := List.length (praw_log u) |}
                      (log_praw CallReddit u)))) by congruence.
  assert (Htop : api_selected cfg = true ->
            forall r' sub tf l u, praw_untouched u (log_praw (CallTop r' sub tf l) u))
    by congruence.
  assert (Hcomments : api_selected cfg = true ->
            forall r' post_id u, praw_untouched u (log_praw (CallComments r' post_id) u))
    by congruence.
  split; [|split; [|split]].
  - intros fuel sub tf limit.
    apply (@keeps_fetch_subreddit_posts env cfg praw_untouched);
      eauto using praw_untouched_refl, praw_untouched_trans, praw_untouched_log_http.
    intros p t u. apply praw_untouched_refl.
  - intros post_id sub.
    apply (@keeps_fetch_top_comment env cfg praw_untouched);
      eauto using praw_untouched_refl, praw_untouched_trans, praw_untouched_log_http.
  - intros fuel with_comments limit.
    apply (@keeps_fetch_all_posts env cfg praw_untouched);
      eauto using praw_untouched_refl, praw_untouched_trans, praw_untouched_log_http.
  - intros fuel now since_hours with_comments.
    apply (@keeps_fetch_new_posts env cfg praw_untouched);
      eauto using praw_untouched_refl, praw_untouched_trans, praw_untouched_log_http.
Qed.

Lemma public_transport_witness :
  praw_untouched start (snd (fetch_all_posts commented_env public_cfg 1 true 100 start)) /\
  api_selected (config_py (reddit_api_enabled (Some "id") None) true) = false.
Proof.
  split.
  - apply (proj1 (proj2 (proj2 (proj1 (public_transport_leaves_praw_alone commented_env)
                                      public_cfg start eq_refl)))).
  - apply (proj2 (public_transport_leaves_praw_alone commented_env)).
    right. right. left. reflexivity.
Defined.

(** ** Pagination against the limit *)

Section Pages.

Variable env : Env.
Variable cfg : Config.
Variable S : Type.
Variable f : Post.t -> S -> S.
Variable body : Post.t -> S -> M S.
Variable sub tf : string.
Variable limit : Z.

Hypothesis body_pure :
  forall it s w, body (post_of_item sub it) s w = (Ret (f (post_of_item sub it) s), w).

(** One turn of the loop on a non-empty page that carries a token. *)
Lemma public_loop_page fuel after total s w items tok :
  total < limit ->
  http env (http_log w) (page_request sub tf limit after total) =
    page_response (items, tok) ->
  items <> [] -> tok <> "" -> Forall item_dated items ->
  public_loop env cfg (Datatypes.S fuel) sub tf limit after total body s w =
  public_loop env cfg fuel sub tf limit (PStr tok)
              (total + count_accepted cfg items) body
              (feed f (accepted_posts cfg sub items) s)
              (log_http (page_request sub tf limit after total) w).
Proof.
  intros Hlt Hresp Hitems Htok Hd.
  cbn [public_loop]. apply Z.ltb_lt in Hlt. rewrite Hlt.
  unfold bind at 1. unfold try_except, bind at 1. unfold requests_get.
  rewrite Hresp. unfold page_response, ret at 1.
  cbn [fst snd page_json py_get assoc String.eqb Ascii.eqb Bool.eqb lift bind token_json].
  rewrite (truthy_items Hitems). cbn [negb py_iter]. rewrite bind_lift_ret.
  erewrite bind_run by (apply public_for_items; eassumption).
  cbv beta iota. rewrite bind_lift_ret.
  cbn [py_get assoc String.eqb Ascii.eqb Bool.eqb]. rewrite bind_lift_ret.
  rewrite (truthy_token Htok). reflexivity.
Qed.

Lemma public_loop_pages pages :
  forall rest fuel after total s w,
    served env (http_log w) (map page_response pages ++ rest) ->
    Forall well_paged pages ->
    Forall item_dated (script_items pages) ->
    requested cfg limit total pages ->
    exists w',
      issued (List.length pages) w w' /\
      served env (http_log w') rest /\
      public_loop env cfg (List.length pages + fuel) sub tf limit after total body s w =
      public_loop env cfg fuel sub tf limit (last_token after pages)
                  (total + count_accepted cfg (script_items pages)) body
                  (feed f (accepted_posts cfg sub (script_items pages)) s) w'.
Proof.
  induction pages as [|[items tok] pages IH];
    intros rest fuel after total s w Hserved Hpaged Hdated Hreq.
  - exists w. split; [apply issued_zero|]. split; [exact Hserved|].
    simpl. unfold count_accepted. simpl. rewrite Z.add_0_r. reflexivity.
  - inversion Hpaged as [|? ? [Hitems Htok] Hpaged']; subst. simpl in Hitems, Htok.
    change (script_items ((items, tok) :: pages)) with (items ++ script_items pages) in *.
    apply Forall_app in Hdated. destruct Hdated as [Hd Hdated].
    destruct Hreq as [Hlt Hreq]. cbn [fst] in Hreq.
    set (req := page_request sub tf limit after total).
    destruct (IH rest fuel (PStr tok) (total + count_accepted cfg items)
                 (feed f (accepted_posts cfg sub items) s) (log_http req w))
      as [w' [Hiss [Hserved' Hrun]]]; try assumption.
    { exact (served_tail req Hserved). }
    exists w'. split; [exact (issued_step Hiss)|]. split; [exact Hserved'|].
    cbn [List.length Nat.add].
    rewrite (@public_loop_page _ after total s w items tok); try assumption.
    + fold req. rewrite Hrun.
      rewrite count_accepted_app, accepted_posts_app, feed_app, Z.add_assoc.
      reflexivity.
    + exact (served_head req Hserved).
Qed.

End Pages.

Lemma requested_below cfg limit pages :
  forall total, requested cfg limit total pages -> pages <> [] -> total < limit.
Proof.
  destruct pages as [|pg rest]; intros total H Hne; [congruence | exact (proj1 H)].
Qed.

(** X5. The limit is looked at between pages only.  Against non-empty
    pages of well-formed items that carry a token, each requested while
    fewer than [limit] posts were accepted, the public fetch stops as soon
    as the accepted posts reach [limit]: it yields every accepted post of
    the pages it fetched, the last page in full even beyond [limit], and
    issues no further request.  With a limit of zero or less it issues no
    request at all. *)
Theorem pagination_stops_at_limit env cfg fuel sub tf limit
        (pages : list (list Item * string)) (rest : list HttpResult) w :
  served env (http_log w) (map page_response pages ++ rest) ->
  Forall well_paged pages ->
  Forall item_dated (script_items pages) ->
  requested cfg limit 0 pages ->
  limit <= count_accepted cfg (script_items pages) ->
  (List.length pages < fuel)%nat ->
  exists w',
    fetch_subreddit_posts_public env cfg fuel sub tf limit collect [] w =
    (Ret (map (post_of_item sub) (filter (accepted cfg) (script_items pages))), w') /\
    issued (List.length pages) w w'.
Proof.
  intros Hserved Hpaged Hdated Hreq Hlimit Hfuel.
  destruct (@public_loop_pages env cfg _ (fun p acc => acc ++ [p]) collect sub tf limit
              (fun it s u => eq_refl) pages rest (fuel - List.length pages) PNone 0 [] w)
    as [w' [Hiss [_ Hrun]]]; try assumption.
  exists w'. split; [|exact Hiss].
  unfold fetch_subreddit_posts_public.
  replace fuel with (List.length pages + (fuel - List.length pages))%nat at 1 by lia.
  rewrite Hrun. rewrite feed_collect. simpl app.
  destruct (fuel - List.length pages)%nat as [|n] eqn:Hn; [lia|].
  cbn [public_loop].
  assert (Hge : (0 + count_accepted cfg (script_items pages) <? limit) = false)
    by (apply Z.ltb_ge; lia).
  rewrite Hge. reflexivity.
Qed.

(** X6. A page without item wrappers ends the pagination, with or without
    a continuation token: after [N] well-formed pages, an answer whose
    "children" are missing, empty or otherwise falsy (the "data" object
    itself may be missing) makes the public fetch return the accepted
    posts of the [N] pages after [N + 1] requests. *)
Theorem empty_page_ends_pagination env cfg fuel sub tf limit
        (pages : list (list Item * string)) (data posts : pyval) w :
  served env (http_log w) (map page_response pages ++ [HttpOk data]) ->
  Forall well_paged pages ->
  Forall item_dated (script_items pages) ->
  requested cfg limit 0 pages ->
  count_accepted cfg (script_items pages) < limit ->
  children_of data = Ret posts ->
  truthy posts = false ->
  (List.length pages < fuel)%nat ->
  exists w',
    fetch_subreddit_posts_public env cfg fuel sub tf limit collect [] w =
    (Ret (map (post_of_item sub) (filter (accepted cfg) (script_items pages))), w') /\
    issued (Datatypes.S (List.length pages)) w w'.
Proof.
  intros Hserved Hpaged Hdated Hreq Hlimit Hchildren Hfalsy Hfuel.
  destruct (@public_loop_pages env cfg _ (fun p acc => acc ++ [p]) collect sub tf limit
              (fun it s u => eq_refl) pages [HttpOk data]
              (fuel - List.length pages) PNone 0 [] w)
    as [w1 [Hiss [Hserved' Hrun]]]; try assumption.
  set (after := last_token PNone pages) in *.
  set (total := 0 + count_accepted cfg (script_items pages)) in *.
  exists (log_http (page_request sub tf limit after total) w1).
  split.
  - unfold fetch_subreddit_posts_public.
    replace fuel with (List.length pages + (fuel - List.length pages))%nat at 1 by lia.
    rewrite Hrun. rewrite feed_collect. simpl app.
    destruct (fuel - List.length pages)%nat as [|n] eqn:Hn; [lia|].
    cbn [public_loop].
    assert (Hlt : (total <? limit) = true) by (apply Z.ltb_lt; unfold total; lia).
    rewrite Hlt.
    unfold bind at 1. unfold try_except, bind at 1. unfold requests_get.
    rewrite (served_head _ Hserved'). unfold ret at 1. cbv beta iota.
    unfold children_of in Hchildren. apply rbind_ret in Hchildren.
    destruct Hchildren as [listing [Hl Hc]].
    rewrite Hl, bind_lift_ret, Hc, bind_lift_ret, Hfalsy. reflexivity.
  - replace (Datatypes.S (List.length pages)) with (List.length pages + 1)%nat by lia.
    apply (issued_trans Hiss). eapply issued_step. apply issued_zero.
Qed.

Lemma pagination_stops_witness :
  (exists w',
      fetch_subreddit_posts_public more_env public_cfg 5 "vosfinances" "all" 100
                                   collect [] start =
      (Ret (map (post_of_item "vosfinances")
                (filter (accepted public_cfg) (script_items [full_page]))), w') /\
      issued 1 start w') /\
  (exists w',
      fetch_subreddit_posts_public spec_env public_cfg 1 "vosfinances" "all" 0
                                   collect [] start =
      (Ret [], w') /\
      issued 0 start w').
Proof.
  split.
  - apply (@pagination_stops_at_limit more_env public_cfg 5 "vosfinances" "all" 100
             [full_page] [HttpOk (page_json [item_scored 30] None)] start).
    + apply scripted_served.
    + repeat constructor; discriminate.
    + cbn [script_items map List.concat]. rewrite app_nil_r. apply full_page_dated.
    + split; [reflexivity | exact I].
    + vm_compute. discriminate.
    + simpl. lia.
  - apply (@pagination_stops_at_limit spec_env public_cfg 1 "vosfinances" "all" 0
             [] [page_response page_one; HttpOk (page_json [item_scored 8] None)] start).
    + apply scripted_served.
    + constructor.
    + constructor.
    + exact I.
    + vm_compute. discriminate.
    + simpl. lia.
Defined.

Lemma empty_page_witness :
  exists w',
    fetch_subreddit_posts_public emptied_env public_cfg 2 "vosfinances" "all" 100
                                 collect [] start =
    (Ret [post_of_item "vosfinances" (item_scored 50);
          post_of_item "vosfinances" (item_scored 20)], w') /\
    issued 2 start w'.
Proof.
  apply (@empty_page_ends_pagination emptied_env public_cfg 2 "vosfinances" "all" 100
           [page_one] (PDict []) (PList []) start).
  - apply scripted_served.
  - repeat constructor; discriminate.
  - repeat constructor; intro H; vm_compute in H; discriminate H.
  - split; [reflexivity | exact I].
  - reflexivity.
  - reflexivity.
  - reflexivity.
  - simpl. lia.
Defined.

(** ** Missing and null keys of a page item *)

(** X7. The defaults of [.get] stand for missing keys only.  An item
    without "data", or whose data has no "score", counts as score 0 and is
    dropped when [MIN_SCORE] is positive; an accepted item that has a
    score and none of the other keys gives a post with empty body, zero
    counts, no creation time and the null value for id, title and author;
    but a "data" or a "selftext" that is present and null raises. *)
Theorem missing_keys_take_defaults (env : Env) (cfg : Config) (sub : string) :
  (forall kv, assoc "data" kv = None -> 0 < MIN_SCORE cfg ->
              public_post env cfg sub (PDict kv) = Ret None) /\
  (forall kv d, assoc "data" kv = Some (PDict d) -> assoc "score" d = None ->
                0 < MIN_SCORE cfg ->
                public_post env cfg sub (PDict kv) = Ret None) /\
  (forall kv d score,
      assoc "data" kv = Some (PDict d) -> assoc "score" d = Some score ->
      py_ge score (MIN_SCORE cfg) = Ret true ->
      Forall (fun key => assoc key d = None) optional_keys ->
      public_post env cfg sub (PDict kv) = Ret (Some (default_post sub score))) /\
  (forall kv, assoc "data" kv = Some PNone ->
              public_post env cfg sub (PDict kv) = Raise AttributeError) /\
  (forall kv d score,
      assoc "data" kv = Some (PDict d) -> assoc "score" d = Some score ->
      py_ge score (MIN_SCORE cfg) = Ret true ->
      assoc "created_utc" d = None ->
      assoc "selftext" d = Some PNone ->
      public_post env cfg sub (PDict kv) = Raise TypeError).
Proof.
  split; [|split; [|split; [|split]]].
  - intros kv Hdata Hmin. unfold public_post. simpl. rewrite Hdata. simpl.
    apply Z.leb_gt in Hmin. rewrite Hmin. reflexivity.
  - intros kv d Hdata Hscore Hmin. unfold public_post. simpl. rewrite Hdata. simpl.
    rewrite Hscore. simpl. apply Z.leb_gt in Hmin. rewrite Hmin. reflexivity.
  - intros kv d score Hdata Hscore Hge Hnone. unfold public_post. simpl.
    rewrite Hdata. simpl. rewrite Hscore. cbn [rbind]. rewrite Hge. cbn [rbind].
    rewrite Forall_forall in Hnone.
    rewrite !Hnone by (simpl; tauto). reflexivity.
  - intros kv Hdata. unfold public_post. simpl. rewrite Hdata. reflexivity.
  - intros kv d score Hdata Hscore Hge Hcreated Hself. unfold public_post. simpl.
    rewrite Hdata. simpl. rewrite Hscore. cbn [rbind]. rewrite Hge. cbn [rbind].
    rewrite Hcreated. simpl. rewrite Hself. reflexivity.
Qed.

Lemma missing_keys_witness :
  public_post spec_env public_cfg "vosfinances" (PDict []) = Ret None /\
  public_post spec_env public_cfg "vosfinances"
              (PDict [("data", PDict [("score", PInt 50)])]) =
  Ret (Some (default_post "vosfinances" (PInt 50))) /\
  public_post spec_env public_cfg "vosfinances"
              (PDict [("data", PDict [("score", PInt 50); ("selftext", PNone)])]) =
  Raise TypeError.
Proof.
  split; [|split].
  - apply (proj1 (missing_keys_take_defaults spec_env public_cfg "vosfinances"));
      reflexivity.
  - apply (proj1 (proj2 (proj2 (missing_keys_take_defaults spec_env public_cfg "vosfinances")))
             [("data", PDict [("score", PInt 50)])] [("score", PInt 50)] (PInt 50));
      try reflexivity.
    repeat constructor.
  - apply (proj2 (proj2 (proj2 (proj2
             (missing_keys_take_defaults spec_env public_cfg "vosfinances"))))
             [("data", PDict [("score", PInt 50); ("selftext", PNone)])]
             [("score", PInt 50); ("selftext", PNone)] (PInt 50));
      reflexivity.
Defined.

(** ** The public comment fetch *)

Lemma fetch_top_comment_public_body env post_id sub w data c :
  http env (http_log w) (CommentThread sub post_id) = HttpOk data ->
  top_comment_of data = Ret c ->
  fetch_top_comment_public env post_id sub w =
  (Ret c, log_http (CommentThread sub post_id) w).
Proof.
  intros Hhttp Hc. unfold fetch_top_comment_public, try_except, bind, requests_get, lift.
  rewrite Hhttp, Hc. reflexivity.
Qed.

(** X8. [fetch_top_comment_public] issues exactly one request, whatever
    comes of it.  It returns absent when the request fails, when the body
    has fewer than two elements, when the thread holds no comment, and
    when the first child is not of kind "t1", whatever follows it; when
    the first child is a "t1" comment it returns that comment with its
    body cut to 1000 characters, whatever follows it. *)
Theorem top_comment_public_results (env : Env) (post_id : pyval) (sub : string) (w : World) :
  snd (fetch_top_comment_public env post_id sub w) =
    log_http (CommentThread sub post_id) w /\
  (http env (http_log w) (CommentThread sub post_id) = HttpFail ->
   fst (fetch_top_comment_public env post_id sub w) = Ret None) /\
  (forall data n,
      http env (http_log w) (CommentThread sub post_id) = HttpOk data ->
      py_len data = Ret n -> n <= 1 ->
      fst (fetch_top_comment_public env post_id sub w) = Ret None) /\
  (http env (http_log w) (CommentThread sub post_id) = HttpOk (thread_json []) ->
   fst (fetch_top_comment_public env post_id sub w) = Ret None) /\
  (forall first rest kind,
      http env (http_log w) (CommentThread sub post_id) =
        HttpOk (thread_json (first :: rest)) ->
      py_get first "kind" PNone = Ret kind -> py_eq_str kind "t1" = false ->
      fst (fetch_top_comment_public env post_id sub w) = Ret None) /\
  (forall cid text author score rest,
      http env (http_log w) (CommentThread sub post_id) =
        HttpOk (thread_json (comment_json cid (PStr text) author score :: rest)) ->
      fst (fetch_top_comment_public env post_id sub w) =
      Ret (Some {| Comment.comment_id := cid;
                   Comment.comment_body := PStr (String.substring 0 1000 text);
                   Comment.comment_score := PInt score;
                   Comment.comment_author := author |})).
Proof.
  split; [|split; [|split; [|split; [|split]]]].
  - unfold fetch_top_comment_public, try_except, bind, requests_get, lift.
    destruct (http env (http_log w) (CommentThread sub post_id)) as [data|]; [|reflexivity].
    destruct (top_comment_of data) as [c|e|]; try reflexivity.
    destruct (is_RequestException e); reflexivity.
  - intros Hfail. unfold fetch_top_comment_public, try_except, bind, requests_get.
    rewrite Hfail. reflexivity.
  - intros data n Hhttp Hlen Hn.
    rewrite (@fetch_top_comment_public_body env post_id sub w data None Hhttp);
      [reflexivity|].
    unfold top_comment_of. rewrite Hlen. cbn [rbind].
    assert (Hle : (1 <? n) = false) by (apply Z.ltb_ge; lia).
    rewrite Hle. reflexivity.
  - intros Hhttp.
    rewrite (@fetch_top_comment_public_body env post_id sub w _ None Hhttp); reflexivity.
  - intros first rest kind Hhttp Hkind Hnot.
    rewrite (@fetch_top_comment_public_body env post_id sub w _ None Hhttp);
      [reflexivity|].
    unfold top_comment_of, thread_json. simpl. rewrite Hkind. cbn [rbind].
    rewrite Hnot. reflexivity.
  - intros cid text author score rest Hhttp.
    erewrite fetch_top_comment_public_body; [reflexivity | exact Hhttp | reflexivity].
Qed.

Lemma top_comment_public_witness :
  fst (fetch_top_comment_public unreachable_env (PStr "p50") "vosfinances" start) =
  Ret (Some a_comment) /\
  fst (fetch_top_comment_public broken_env (PStr "p50") "vosfinances"
         (log_http (TopPage "vosfinances" "all" 100 None) start)) = Ret None /\
  fst (fetch_top_comment_public
         (example_env false false ([], true) None
            (web [] (HttpOk (thread_json [PDict [("kind", PStr "more")];
                                          comment_json (PStr "c1") (PStr "nice")
                                                       (PStr "bob") 7]))))
         (PStr "p50") "vosfinances" start) = Ret None.
Proof.
  split; [|split].
  - apply (proj2 (proj2 (proj2 (proj2 (proj2
             (top_comment_public_results unreachable_env (PStr "p50") "vosfinances" start)))))
             (PStr "c1") "nice" (PStr "bob") 7 []).
    reflexivity.
  - apply (proj1 (proj2 (top_comment_public_results broken_env (PStr "p50") "vosfinances"
                           (log_http (TopPage "vosfinances" "all" 100 None) start)))).
    reflexivity.
  - apply (proj1 (proj2 (proj2 (proj2 (proj2
             (top_comment_public_results _ (PStr "p50") "vosfinances" start)))))
             (PDict [("kind", PStr "more")])
             [comment_json (PStr "c1") (PStr "nice") (PStr "bob") 7] (PStr "more"));
      reflexivity.
Defined.

(** ** The full harvest *)

Lemma fetch_all_posts_erasure env cfg fuel with_comments limit w :
  fetch_all_posts env cfg fuel with_comments limit w =
  map_out fst (fetch_all_posts_traced env cfg fuel with_comments limit w).
Proof.
  apply rel_out_map_out.
  unfold fetch_all_posts, fetch_all_posts_traced.
  apply (@mrel_for_in eq _ _ _ (fun a b => a = fst b)); [|reflexivity|reflexivity].
  intros sub s1 s2 _ Hs.
  apply (@fetch_subreddit_posts_rel env cfg _ _ (fun a b => a = fst b)); [|assumption].
  intros p t1 t2 _ Ht. apply traced_erases. assumption.
Qed.

Lemma traced_all_posts_body_bare env cfg wc sub p (st : list Post.t * list Post.t) w st' w' :
  fresh_post cfg sub p ->
  map Post.bare (fst st) = snd st ->
  traced (all_posts_body env cfg wc sub) p st w = (Ret st', w') ->
  map Post.bare (fst st') = snd st'.
Proof.
  intros Hp Hst H. unfold traced in H.
  apply bind_ret_inv in H. destruct H as [acc' [w1 [Hbody H]]].
  inversion H; subst; clear H. cbn [fst snd].
  unfold all_posts_body in Hbody.
  apply bind_ret_inv in Hbody. destruct Hbody as [p' [w2 [Hen Hbody]]].
  inversion Hbody; subst; clear Hbody. rewrite map_app, Hst. simpl. f_equal. f_equal.
  destruct wc.
  - exact (proj1 (enrich_bare _ _ _ _ _ Hen (proj1 (proj2 (proj2 Hp))))).
  - inversion Hen; subst. exact (bare_fresh Hp).
Qed.

(** X9. [fetch_all_posts] returns every post its generators hand over, in
    the order they are handed over, none dropped, repeated or reordered:
    the returned list, with the merged comment keys taken off, is the
    sequence of yielded posts. *)
Theorem all_yielded_posts_are_returned (env : Env) (cfg : Config) (fuel : nat)
        (with_comments : bool) (limit : Z) (w : World) :
  fetch_all_posts env cfg fuel with_comments limit w =
    map_out fst (fetch_all_posts_traced env cfg fuel with_comments limit w) /\
  (forall posts seen w',
      fetch_all_posts_traced env cfg fuel with_comments limit w = (Ret (posts, seen), w') ->
      map Post.bare posts = seen).
Proof.
  split; [apply fetch_all_posts_erasure|].
  intros posts seen w' H. unfold fetch_all_posts_traced in H.
  change (map Post.bare (fst (posts, seen)) = snd (posts, seen)).
  eapply (for_in_inv (fun st : list Post.t * list Post.t => map Post.bare (fst st) = snd st));
    [| |exact H]; [|reflexivity].
  intros sub t u t' u' _ Ht Hrun.
  eapply (@fetch_subreddit_posts_inv _
            (fun st : list Post.t * list Post.t => map Post.bare (fst st) = snd st));
    [|exact Ht|exact Hrun].
  intros p a b a' b' Hp Ha Hb.
  eapply traced_all_posts_body_bare; [apply (built_fresh Hp)|exact Ha|exact Hb].
Qed.

Lemma all_yielded_witness :
  fetch_all_posts_traced commented_env public_cfg 1 true 100 start =
  (Ret ([Post.update (post_of_item "vosfinances" (item_scored 50)) a_comment],
        [post_of_item "vosfinances" (item_scored 50)]),
   snd (fetch_all_posts_traced commented_env public_cfg 1 true 100 start)) /\
  map Post.bare [Post.update (post_of_item "vosfinances" (item_scored 50)) a_comment] =
  [post_of_item "vosfinances" (item_scored 50)].
Proof.
  assert (E : fetch_all_posts_traced commented_env public_cfg 1 true 100 start =
              (Ret ([Post.update (post_of_item "vosfinances" (item_scored 50)) a_comment],
                    [post_of_item "vosfinances" (item_scored 50)]),
               snd (fetch_all_posts_traced commented_env public_cfg 1 true 100 start)))
    by (vm_compute; reflexivity).
  split; [exact E|].
  exact (proj2 (all_yielded_posts_are_returned commented_env public_cfg 1 true 100 start)
           _ _ _ E).
Defined.

Lemma served_app_l env h a b : served env h (a ++ b) -> served env h a.
Proof.
  intros H h' req k r Hlen Hk. apply (H h' req k r Hlen).
  rewrite nth_error_app1; [exact Hk|]. apply nth_error_Some. congruence.
Qed.

Lemma served_after env n w w' a b :
  issued n w w' -> List.length a = n ->
  served env (http_log w) (a ++ b) -> served env (http_log w') b.
Proof.
  intros [reqs [Hn ->]] Ha H h req k r Hlen Hk. simpl in Hlen.
  apply (H h req (List.length a + k)%nat r).
  - rewrite Hlen, length_app. lia.
  - rewrite nth_error_app2 by lia.
    replace (List.length a + k - List.length a)%nat with k by lia. exact Hk.
Qed.

Lemma all_posts_public_run env cfg fuel tf limit :
  api_selected cfg = false ->
  forall subs exs acc w,
    List.length exs = List.length subs ->
    served env (http_log w) (List.concat (map exchange_responses exs)) ->
    Forall (exchange_ok cfg limit fuel) exs ->
    exists w',
      for_in subs
             (fun sub acc =>
                fetch_subreddit_posts env cfg fuel sub tf limit
                  (all_posts_body env cfg false sub) acc)
             acc w =
      (Ret (acc ++ harvest_expected cfg subs exs), w') /\
      issued (List.length (List.concat (map exchange_responses exs))) w w'.
Proof.
  intros Hsel.
  induction subs as [|sub subs IH]; intros exs acc w Hlen Hserved Hok.
  - destruct exs; [|discriminate Hlen].
    exists w. simpl. rewrite app_nil_r. split; [reflexivity | apply issued_zero].
  - destruct exs as [|[pages e] exs]; [discriminate Hlen|].
    simpl in Hlen. injection Hlen as Hlen.
    inversion Hok as [|? ? [Hpaged [Hdated [Hlimit Hfuel]]] Hok']; subst.
    cbn [fst snd] in Hpaged, Hdated, Hlimit, Hfuel.
    cbn [map List.concat] in Hserved.
    destruct (@public_loop_script env cfg _ (fun p a => a ++ [p])
                (all_posts_body env cfg false sub) sub tf limit
                (fun it s u => eq_refl) pages fuel PNone 0 acc w e)
      as [w1 [Hrun Hiss]]; try assumption.
    + eapply served_app_l; exact Hserved.
    + destruct (IH exs (acc ++ accepted_posts cfg sub (exchange_items (pages, e))) w1 Hlen)
        as [w' [Hrest Hiss']]; [|exact Hok'|].
      * eapply (@served_after env _ w w1 (exchange_responses (pages, e)));
          [exact Hiss| |exact Hserved].
        unfold exchange_responses. rewrite length_app, length_map. simpl. lia.
      * exists w'. split.
        -- cbn [for_in]. unfold fetch_subreddit_posts at 1. rewrite Hsel.
           unfold fetch_subreddit_posts_public.
           erewrite bind_run by exact Hrun.
           rewrite feed_collect.
           change (script_items pages ++ ending_items e)
             with (exchange_items (pages, e)).
           rewrite Hrest. simpl. rewrite <- app_assoc. reflexivity.
        -- cbn [map List.concat]. rewrite length_app.
           replace (List.length (exchange_responses (pages, e)))
             with (Datatypes.S (List.length pages)).
           ++ exact (issued_trans Hiss Hiss').
           ++ unfold exchange_responses. rewrite length_app, length_map. simpl. lia.
Qed.

(** X10. Over the public transport and without comments, when the
    endpoint answers each configured community in turn with well-formed
    pages that end in a page without token or in a failing request,
    [fetch_all_posts] returns the accepted posts community by community in
    the configured order, each community's in page order; a community
    whose request fails gives what came before the failure, and the
    communities after it are harvested all the same. *)
Theorem harvest_in_community_order env cfg fuel limit (exs : list Exchange) w :
  api_selected cfg = false ->
  List.length exs = List.length (SUBREDDITS cfg) ->
  served env (http_log w) (List.concat (map exchange_responses exs)) ->
  Forall (exchange_ok cfg limit fuel) exs ->
  exists w',
    fetch_all_posts env cfg fuel false limit w =
    (Ret (harvest_expected cfg (SUBREDDITS cfg) exs), w') /\
    issued (List.length (List.concat (map exchange_responses exs))) w w'.
Proof.
  intros Hsel Hlen Hserved Hok. unfold fetch_all_posts.
  exact (@all_posts_public_run env cfg fuel (TIME_FILTER cfg) limit Hsel
           (SUBREDDITS cfg) exs [] w Hlen Hserved Hok).
Qed.

Lemma harvest_order_witness :
  exists w',
    fetch_all_posts harvest_env public_cfg 2 false 100 start =
    (Ret [post_of_item "vosfinances" (item_scored 50);
          post_of_item "vosfinances" (item_scored 20);
          post_of_item "Bogleheads" (item_scored 30)], w') /\
    issued 6 start w'.
Proof.
  apply (@harvest_in_community_order harvest_env public_cfg 2 100 harvest_exchanges start).
  - reflexivity.
  - reflexivity.
  - apply scripted_served.
  - repeat constructor; simpl; try discriminate; try lia;
      try (intro H; vm_compute in H; discriminate H).
Defined.

(** ** A listing that ends normally *)




(** ** Building the client *)

(** X12. [get_reddit_client] never raises.  With the library selected and
    no client stored, a constructor that raises leaves nothing stored, so
    the next call runs the constructor again; a constructor and a
    connection test that both succeed store the client, and the next call
    returns it without any further call to the library. *)
Theorem client_construction_outcomes env cfg w :
  api_selected cfg = true ->
  reddit_instance w = None ->
  (exists o, fst (get_reddit_client env cfg w) = Ret o) /\
  (praw_Reddit env (praw_log w) = false ->
   get_reddit_client env cfg w = (Ret None, log_praw CallReddit w) /\
   exists calls,
     praw_log (snd (get_reddit_client env cfg (log_praw CallReddit w))) =
     praw_log w ++ CallReddit :: CallReddit :: calls) /\
  (praw_Reddit env (praw_log w) = true ->
   praw_me env (praw_log w ++ [CallReddit]) = true ->
   exists r w',
     get_reddit_client env cfg w = (Ret (Some r), w') /\
     praw_log w' = praw_log w ++ [CallReddit; CallMe r] /\
     http_log w' = http_log w /\
     get_reddit_client env cfg w' = (Ret (Some r), w')).
Proof.
  intros Hsel Hnone.
  assert (Hflags : negb (REDDIT_API_ENABLED cfg) || negb (PRAW_AVAILABLE cfg) = false).
  { unfold api_selected in Hsel. apply andb_true_iff in Hsel.
    destruct Hsel as [-> ->]. reflexivity. }
  split; [|split].
  - unfold get_reddit_client. rewrite Hflags, Hnone.
    destruct (praw_Reddit env (praw_log w)); [|eexists; reflexivity].
    match goal with |- context [if ?b then _ else _] => destruct b end;
      eexists; reflexivity.
  - intros Hfail.
    destruct (constructor_failure_is_retried env cfg w Hsel Hnone Hfail) as [Hrun Hstill].
    split; [exact Hrun|].
    unfold get_reddit_client. rewrite Hflags, Hstill.
    destruct (praw_Reddit env (praw_log (log_praw CallReddit w))).
    + match goal with |- context [if ?b then _ else _] => destruct b end;
        eexists; simpl; rewrite <- !app_assoc; reflexivity.
    + eexists. simpl. rewrite <- !app_assoc. reflexivity.
  - intros Hok Hme. unfold get_reddit_client. rewrite Hflags, Hnone, Hok.
    simpl. rewrite Hme.
    eexists. eexists. split; [reflexivity|].
    simpl. rewrite <- app_assoc. repeat split.
Qed.

Lemma client_construction_witness :
  get_reddit_client unreachable_env praw_cfg start = (Ret None, log_praw CallReddit start) /\
  exists calls,
    praw_log (snd (get_reddit_client unreachable_env praw_cfg (log_praw CallReddit start))) =
    praw_log start ++ CallReddit :: CallReddit :: calls.
Proof.
  exact (proj1 (proj2 (@client_construction_outcomes unreachable_env praw_cfg start
                         eq_refl eq_refl)) eq_refl).
Defined.

(** ** Community names *)

Lemma append_empty_r (s : string) : (s ++ "")%string = s.
Proof. induction s as [|c s IH]; simpl; [reflexivity | now rewrite IH]. Qed.

Lemma repeat_class_spec cls k :
  forall hi lo s,
    repeat_class cls lo hi k s = true <->
    exists core rest,
      s = (core ++ rest)%string /\
      (lo <= String.length core <= hi)%nat /\
      string_forall cls core = true /\
      k rest = true.
Proof.
  assert (Hstop : forall lo s, (lo =? 0)%nat && k s = true ->
                               forall hi, exists core rest,
                                 s = (core ++ rest)%string /\
                                 (lo <= String.length core <= hi)%nat /\
                                 string_forall cls core = true /\ k rest = true).
  { intros lo s H hi. apply andb_true_iff in H. destruct H as [Hlo Hk].
    apply Nat.eqb_eq in Hlo. exists EmptyString, s. simpl.
    repeat split; [lia | lia | assumption]. }
  induction hi as [|hi IH]; intros lo s.
  - simpl. split; [intros H; exact (Hstop lo s H 0%nat)|].
    intros [core [rest [-> [Hlen [_ Hk]]]]].
    destruct core; [|simpl in Hlen; lia]. simpl in *.
    rewrite Hk. replace lo with 0%nat by lia. reflexivity.
  - destruct s as [|c s]; cbn [repeat_class].
    + split; [intros H; exact (Hstop lo EmptyString H (Datatypes.S hi))|].
      intros [core [rest [Heq [Hlen [_ Hk]]]]].
      destruct core; [|discriminate Heq]. simpl in *. subst rest.
      rewrite Hk. replace lo with 0%nat by lia. reflexivity.
    + destruct (cls c) eqn:Hc.
      * rewrite orb_true_iff, IH. split.
        -- intros [[core [rest [-> [Hlen [Hall Hk]]]]] | H].
           ++ exists (String c core), rest. simpl. rewrite Hc, Hall.
              repeat split; [lia | lia | assumption].
           ++ exact (Hstop lo (String c s) H (Datatypes.S hi)).
        -- intros [core [rest [Heq [Hlen [Hall Hk]]]]].
           destruct core as [|c' core].
           ++ right. simpl in *. subst rest. rewrite Hk.
              replace lo with 0%nat by lia. reflexivity.
           ++ left. simpl in Heq. injection Heq as -> ->.
              simpl in Hall. apply andb_true_iff in Hall.
              exists core, rest. simpl in Hlen.
              repeat split; [lia | lia | tauto | assumption].
      * split; [intros H; exact (Hstop lo (String c s) H (Datatypes.S hi))|].
        intros [core [rest [Heq [Hlen [Hall Hk]]]]].
        destruct core as [|c' core].
        -- simpl in *. subst rest. rewrite Hk.
           replace lo with 0%nat by lia. reflexivity.
        -- simpl in Heq. injection Heq as -> ->. simpl in Hall.
           rewrite Hc in Hall. discriminate Hall.
Qed.

Lemma dollar_spec rest : dollar rest = true <-> rest = "" \/ rest = newline.
Proof.
  unfold dollar. rewrite orb_true_iff, !String.eqb_eq. reflexivity.
Qed.

(** X13. [validate_subreddit_name] accepts exactly the names made of 3 to
    21 letters, digits and underscores, and the same names followed by one
    newline ([$] also matches before a final newline); the communities of
    [config.py] all pass, so the filtered [SUBREDDITS] is the raw list. *)
Theorem validate_subreddit_name_accepts (name : string) :
  (validate_subreddit_name name = true <->
   exists core,
     (name = core \/ name = (core ++ newline)%string) /\
     (3 <= String.length core <= 21)%nat /\
     string_forall name_char core = true) /\
  forall api_enabled praw_available,
    SUBREDDITS (config_py api_enabled praw_available) =
    filter validate_subreddit_name _raw_subreddits.
Proof.
  split; [|intros; reflexivity].
  unfold validate_subreddit_name. rewrite repeat_class_spec. split.
  - intros [core [rest [-> [Hlen [Hall Hk]]]]]. exists core.
    apply dollar_spec in Hk. destruct Hk as [-> | ->].
    + rewrite append_empty_r. tauto.
    + tauto.
  - intros [core [[-> | ->] [Hlen Hall]]].
    + exists core, EmptyString. rewrite append_empty_r. repeat split; tauto.
    + exists core, newline. repeat split; tauto.
Qed.

(** ** Reading the record store *)

Section Paging.

Variables (db : Store) (view : option string -> list pyval).
Variables (page : nat) (where_ : option string).
Variable loop : nat -> Z -> list pyval -> list Query -> Res (list pyval) * list Query.

Hypothesis page_pos : (0 < page)%nat.
Hypothesis db_holds : holds db view.
Hypothesis loop_step :
  forall fuel offset acc log r,
    db log (mk_query page where_ offset) = Ret r ->
    status_code r = 200 ->
    loop (Datatypes.S fuel) offset acc log =
    match read_page r with
    | Ret None => (Ret acc, log ++ [mk_query page where_ offset])
    | Ret (Some (items, n)) =>
        if n <? Z.of_nat page
        then (Ret (acc ++ items), log ++ [mk_query page where_ offset])
        else loop fuel (offset + Z.of_nat page) (acc ++ items)
                  (log ++ [mk_query page where_ offset])
    | Raise e => (Raise e, log ++ [mk_query page where_ offset])
    | Timeout => (Timeout, log ++ [mk_query page where_ offset])
    end.

Lemma loop_reads_from :
  forall fuel k acc log,
    (List.length (skipn (page * k) (view where_)) / page < fuel)%nat ->
    loop fuel (Z.of_nat page * Z.of_nat k) acc log =
    (Ret (acc ++ skipn (page * k) (view where_)),
     log ++ map (fun i => mk_query page where_ (Z.of_nat page * Z.of_nat i))
                (seq k (List.length (skipn (page * k) (view where_)) / page + 1))).
Proof.
  induction fuel as [|fuel IH]; intros k acc log Hfuel; [lia|].
  destruct (db_holds log (mk_query page where_ (Z.of_nat page * Z.of_nat k)))
    as [r [data [Hr [Hst [Hj Hl]]]]].
  rewrite (loop_step fuel acc Hr Hst).
  unfold read_page. rewrite Hj. cbn [rbind]. rewrite Hl. cbn [rbind].
  unfold page_of. cbn [q_limit q_offset q_where mk_query].
  replace (Z.to_nat (Z.of_nat page * Z.of_nat k)) with (page * k)%nat by lia.
  rewrite Nat2Z.id.
  remember (skipn (page * k) (view where_)) as t eqn:Ht.
  destruct t as [|x t'].
  - rewrite firstn_nil. cbn [truthy]. rewrite app_nil_r.
    cbn [List.length]. rewrite Nat.Div0.div_0_l. reflexivity.
  - assert (Hne : truthy (PList (firstn page (x :: t'))) = true).
    { destruct page; [lia | reflexivity]. }
    rewrite Hne. cbn [py_iter py_len rbind]. rewrite length_firstn.
    destruct (Z.ltb_spec (Z.of_nat (Nat.min page (List.length (x :: t')))) (Z.of_nat page))
      as [Hlt | Hge].
    + assert (Hshort : (List.length (x :: t') < page)%nat) by lia.
      rewrite firstn_all2 by lia.
      rewrite Nat.div_small by exact Hshort. reflexivity.
    + assert (Hlong : (page <= List.length (x :: t'))%nat) by lia.
      assert (Hskip : skipn (page * Datatypes.S k) (view where_) = skipn page (x :: t')).
      { rewrite Ht, skipn_skipn. f_equal. lia. }
      assert (Hdiv : (List.length (x :: t') / page =
                      Datatypes.S (List.length (skipn page (x :: t')) / page))%nat).
      { rewrite length_skipn.
        replace (List.length (x :: t'))
          with (1 * page + (List.length (x :: t') - page))%nat at 1 by lia.
        rewrite Nat.div_add_l by lia. reflexivity. }
      replace (Z.of_nat page * Z.of_nat k + Z.of_nat page)
        with (Z.of_nat page * Z.of_nat (Datatypes.S k)) by lia.
      rewrite IH by (rewrite Hskip; lia).
      rewrite Hskip, Hdiv, <- !app_assoc, firstn_skipn.
      reflexivity.
Qed.

Lemma loop_reads_view fuel log :
  (List.length (view where_) / page < fuel)%nat ->
  loop fuel 0 [] log =
  (Ret (view where_), log ++ reading page where_ (List.length (view where_))).
Proof.
  intros Hfuel.
  replace 0 with (Z.of_nat page * Z.of_nat 0) by lia.
  assert (H0 : skipn (page * 0) (view where_) = view where_).
  { replace (page * 0)%nat with 0%nat by lia. reflexivity. }
  rewrite loop_reads_from by (rewrite H0; exact Hfuel).
  rewrite H0. reflexivity.
Qed.

End Paging.

Lemma table_store_holds view : holds (table_store view) view.
Proof. intros log q. eexists. eexists. repeat split. Qed.

Lemma read_page_no_list (r : Response) kv :
  json r = Ret (PDict kv) -> assoc "list" kv = None -> read_page r = Ret None.
Proof. intros Hj Hk. unfold read_page. rewrite Hj. simpl. rewrite Hk. reflexivity. Qed.

Lemma get_autre_posts_step db fuel offset acc log r :
  db log (mk_query 100 (Some "(category,eq,Autre)") offset) = Ret r ->
  status_code r = 200 ->
  get_autre_posts_loop db (Datatypes.S fuel) offset acc log =
  match read_page r with
  | Ret None => (Ret acc, log ++ [mk_query 100 (Some "(category,eq,Autre)") offset])
  | Ret (Some (items, n)) =>
      if n <? Z.of_nat 100
      then (Ret (acc ++ items), log ++ [mk_query 100 (Some "(category,eq,Autre)") offset])
      else get_autre_posts_loop db fuel (offset + Z.of_nat 100) (acc ++ items)
             (log ++ [mk_query 100 (Some "(category,eq,Autre)") offset])
  | Raise e => (Raise e, log ++ [mk_query 100 (Some "(category,eq,Autre)") offset])
  | Timeout => (Timeout, log ++ [mk_query 100 (Some "(category,eq,Autre)") offset])
  end.
Proof.
  intros Hr _. cbn [get_autre_posts_loop].
  change {| q_limit := 100; q_offset := offset; q_where := Some "(category,eq,Autre)" |}
    with (mk_query 100 (Some "(category,eq,Autre)") offset).
  rewrite Hr. cbn [rbind]. reflexivity.
Qed.

(** X14. [get_autre_posts] against a store that answers every request
    with the slice asked for returns the records selected by
    [(category,eq,Autre)], all of them once and in the store's order, after
    [n / 100 + 1] requests at offsets 0, 100, 200, ... for [n] records
    (one more request than pages when [n] is a multiple of 100).  It never
    looks at the status of an answer: an answer without a ["list"] ends
    the reading with the records read so far, as an exhausted store does. *)
Theorem get_autre_posts_reads_all db view fuel log :
  holds db view ->
  (List.length (view (Some "(category,eq,Autre)")) / 100 < fuel)%nat ->
  get_autre_posts db fuel log =
    (Ret (view (Some "(category,eq,Autre)")),
     log ++ reading 100 (Some "(category,eq,Autre)")
                    (List.length (view (Some "(category,eq,Autre)")))) /\
  forall (other : Store) offset acc log' r kv,
    other log' (mk_query 100 (Some "(category,eq,Autre)") offset) = Ret r ->
    json r = Ret (PDict kv) -> assoc "list" kv = None ->
    get_autre_posts_loop other fuel offset acc log' =
    (Ret acc, log' ++ [mk_query 100 (Some "(category,eq,Autre)") offset]).
Proof.
  intros Hholds Hfuel. split.
  - unfold get_autre_posts.
    apply (@loop_reads_view db view 100 (Some "(category,eq,Autre)")
             (get_autre_posts_loop db)); [lia | exact Hholds | | exact Hfuel].
    intros. apply get_autre_posts_step; assumption.
  - intros other offset acc log' r kv Hr Hj Hk.
    destruct fuel as [|fuel']; [lia|].
    cbn [get_autre_posts_loop].
    change {| q_limit := 100; q_offset := offset; q_where := Some "(category,eq,Autre)" |}
      with (mk_query 100 (Some "(category,eq,Autre)") offset).
    rewrite Hr. cbn [rbind]. rewrite (read_page_no_list r Hj Hk). reflexivity.
Qed.

Lemma get_autre_posts_witness :
  get_autre_posts (table_store wide_view) 2 [] =
  (Ret (wide_view (Some "(category,eq,Autre)")),
   [] ++ reading 100 (Some "(category,eq,Autre)") 150) /\
  get_autre_posts_loop (refusing_store 401) 2 0 [] [] =
  (Ret [], [] ++ [mk_query 100 (Some "(category,eq,Autre)") 0]).
Proof.
  assert (Hfuel : (List.length (wide_view (Some "(category,eq,Autre)")) / 100 < 2)%nat)
    by (vm_compute; lia).
  destruct (@get_autre_posts_reads_all (table_store wide_view) wide_view 2 []
              (table_store_holds wide_view) Hfuel) as [Hall Hstop].
  split.
  - exact Hall.
  - exact (Hstop (refusing_store 401) 0 [] [] _ _ eq_refl eq_refl eq_refl).
Defined.

Lemma get_db_posts_step db fuel offset acc log r :
  db log (mk_query 100 None offset) = Ret r ->
  status_code r = 200 ->
  get_db_posts_loop db (Datatypes.S fuel) 100 offset acc log =
  match read_page r with
  | Ret None => (Ret acc, log ++ [mk_query 100 None offset])
  | Ret (Some (items, n)) =>
      if n <? Z.of_nat 100
      then (Ret (acc ++ items), log ++ [mk_query 100 None offset])
      else get_db_posts_loop db fuel 100 (offset + Z.of_nat 100) (acc ++ items)
             (log ++ [mk_query 100 None offset])
  | Raise e => (Raise e, log ++ [mk_query 100 None offset])
  | Timeout => (Timeout, log ++ [mk_query 100 None offset])
  end.
Proof.
  intros Hr _. cbn [get_db_posts_loop].
  change {| q_limit := 100; q_offset := offset; q_where := None |}
    with (mk_query 100 None offset).
  rewrite Hr. cbn [rbind]. reflexivity.
Qed.

Lemma needs_update_dict kv :
  needs_update (PDict kv) =
  Ret (lacks "extracted_data" (PDict kv) || lacks "montant_max" (PDict kv)).
Proof.
  unfold needs_update, lacks, py_get. cbn [rbind].
  destruct (assoc "extracted_data" kv) as [e|]; [|reflexivity].
  destruct (truthy e); [|reflexivity].
  cbn [rbind negb orb]. destruct (assoc "montant_max" kv); reflexivity.
Qed.

Lemma keep_needing_update_dicts records :
  Forall is_dict records ->
  keep_needing_update records =
  Ret (filter (fun r => lacks "extracted_data" r || lacks "montant_max" r) records).
Proof.
  induction 1 as [|r rest Hr _ IH]; [reflexivity|].
  destruct r as [| | | | |kv]; try contradiction.
  cbn [keep_needing_update filter]. rewrite needs_update_dict, IH. cbn [rbind].
  destruct (lacks "extracted_data" (PDict kv) || lacks "montant_max" (PDict kv));
    reflexivity.
Qed.

(** X15. [get_db_posts_needing_update] against a store that answers
    every request with the slice asked for reads the whole table by pages
    of 100 ([n / 100 + 1] requests for [n] records) and returns, in the
    table's order, exactly the records whose ["extracted_data"] or
    ["montant_max"] is missing, null, empty or zero. *)
Theorem get_db_posts_needing_update_selects db view fuel log :
  holds db view ->
  Forall is_dict (view None) ->
  (List.length (view None) / 100 < fuel)%nat ->
  get_db_posts_needing_update db fuel log =
  (Ret (filter (fun r => lacks "extracted_data" r || lacks "montant_max" r) (view None)),
   log ++ reading 100 None (List.length (view None))).
Proof.
  intros Hholds Hdicts Hfuel. unfold get_db_posts_needing_update.
  rewrite (@loop_reads_view db view 100 None
             (fun fuel => get_db_posts_loop db fuel 100));
    [| lia | exact Hholds | | exact Hfuel].
  - rewrite (keep_needing_update_dicts Hdicts). reflexivity.
  - intros. apply get_db_posts_step; assumption.
Qed.

Lemma get_db_posts_needing_update_witness :
  get_db_posts_needing_update (table_store small_view) 1 [] =
  (Ret [record 2 (PStr "") PNone; record 3 (PStr "{}") PNone],
   [] ++ reading 100 None 3).
Proof.
  apply (@get_db_posts_needing_update_selects (table_store small_view) small_view 1 []
           (table_store_holds small_view)).
  - repeat constructor.
  - vm_compute. lia.
Defined.

Lemma fetch_posts_step db fuel offset acc log r :
  db log (mk_query 1000 None offset) = Ret r ->
  status_code r = 200 ->
  fetch_posts_loop db (Datatypes.S fuel) offset acc log =
  match read_page r with
  | Ret None => (Ret acc, log ++ [mk_query 1000 None offset])
  | Ret (Some (items, n)) =>
      if n <? Z.of_nat 1000
      then (Ret (acc ++ items), log ++ [mk_query 1000 None offset])
      else fetch_posts_loop db fuel (offset + Z.of_nat 1000) (acc ++ items)
             (log ++ [mk_query 1000 None offset])
  | Raise e => (Raise e, log ++ [mk_query 1000 None offset])
  | Timeout => (Timeout, log ++ [mk_query 1000 None offset])
  end.
Proof.
  intros Hr Hst. cbn [fetch_posts_loop].
  change {| q_limit := 1000; q_offset := offset; q_where := None |}
    with (mk_query 1000 None offset).
  rewrite Hr, Hst. reflexivity.
Qed.

(** X16. [dashboard.fetch_posts] sends nothing and returns the empty
    list when the token or the table id is unset or empty.  Otherwise,
    against a store that answers every request with the slice asked for,
    it returns the whole table in order after [n / 1000 + 1] requests; and
    an answer whose status is not 200 ends the reading with the records
    read so far, whatever its body. *)
Theorem fetch_posts_reads_table token table_id db view fuel log :
  holds db view ->
  (List.length (view None) / 1000 < fuel)%nat ->
  fetch_posts token table_id db fuel log =
    (if unset token || unset table_id then (Ret [], log)
     else (Ret (view None), log ++ reading 1000 None (List.length (view None)))) /\
  forall (other : Store) offset acc log' r,
    other log' (mk_query 1000 None offset) = Ret r ->
    status_code r <> 200 ->
    fetch_posts_loop other fuel offset acc log' =
    (Ret acc, log' ++ [mk_query 1000 None offset]).
Proof.
  intros Hholds Hfuel. split.
  - unfold fetch_posts. destruct (unset token || unset table_id); [reflexivity|].
    apply (@loop_reads_view db view 1000 None (fetch_posts_loop db));
      [lia | exact Hholds | | exact Hfuel].
    intros. apply fetch_posts_step; assumption.
  - intros other offset acc log' r Hr Hst.
    destruct fuel as [|fuel']; [lia|].
    cbn [fetch_posts_loop].
    change {| q_limit := 1000; q_offset := offset; q_where := None |}
      with (mk_query 1000 None offset).
    rewrite Hr. apply Z.eqb_neq in Hst. rewrite Hst. reflexivity.
Qed.

Lemma fetch_posts_witness :
  fetch_posts (Some "token") (Some "table") (table_store wide_view) 1 [] =
  (Ret (wide_view None), [] ++ reading 1000 None 150) /\
  fetch_posts (Some "token") None (table_store wide_view) 1 [] = (Ret [], []) /\
  fetch_posts_loop (refusing_store 401) 1 0 [] [] = (Ret [], [] ++ [mk_query 1000 None 0]).
Proof.
  assert (Hfuel : (List.length (wide_view None) / 1000 < 1)%nat) by (vm_compute; lia).
  split; [|split].
  - exact (proj1 (@fetch_posts_reads_table (Some "token") (Some "table")
                    (table_store wide_view) wide_view 1 []
                    (table_store_holds wide_view) Hfuel)).
  - exact (proj1 (@fetch_posts_reads_table (Some "token") None
                    (table_store wide_view) wide_view 1 []
                    (table_store_holds wide_view) Hfuel)).
  - apply (proj2 (@fetch_posts_reads_table (Some "token") (Some "table")
                    (table_store wide_view) wide_view 1 []
                    (table_store_holds wide_view) Hfuel)
             (refusing_store 401) 0 [] [] _ eq_refl).
    simpl. lia.
Defined.

(** ** Dictionaries keyed by values *)

Lemma key_eqb_eq a b : key_eqb a b = true <-> a = b.
Proof.
  destruct a, b; simpl; split; intros H; try discriminate; try reflexivity.
  - apply Z.eqb_eq in H. now subst.
  - injection H as ->. apply Z.eqb_refl.
  - apply String.eqb_eq in H. now subst.
  - injection H as ->. apply String.eqb_refl.
Qed.

Lemma key_eqb_refl a : key_eqb a a = true.
Proof. now apply key_eqb_eq. Qed.

Lemma key_eqb_neq a b : key_eqb a b = false <-> a <> b.
Proof.
  split.
  - intros H E. apply key_eqb_eq in E. congruence.
  - intros H. destruct (key_eqb a b) eqn:E; [|reflexivity].
    apply key_eqb_eq in E. contradiction.
Qed.

Lemma lookup_store {V} k k' (v : V) d :
  lookup k (store k' v d) = if key_eqb k' k then Some v else lookup k d.
Proof.
  induction d as [|[k'' v''] d IH]; simpl; [reflexivity|].
  destruct (key_eqb k'' k') eqn:E1; simpl.
  - apply key_eqb_eq in E1. subst k''.
    destruct (key_eqb k' k); reflexivity.
  - rewrite IH. destruct (key_eqb k'' k) eqn:E2; [|reflexivity].
    apply key_eqb_eq in E2. subst k''.
    destruct (key_eqb k' k) eqn:E3; [|reflexivity].
    apply key_eqb_eq in E3. subst k'. rewrite key_eqb_refl in E1. discriminate E1.
Qed.

Lemma lookup_none_keys {V} k (d : list (Key * V)) :
  lookup k d = None <-> ~ In k (map fst d).
Proof.
  induction d as [|[k' v] d IH]; simpl; [tauto|].
  destruct (key_eqb k' k) eqn:E.
  - apply key_eqb_eq in E. split; [discriminate | intros H; exfalso; apply H; now left].
  - apply key_eqb_neq in E. rewrite IH. tauto.
Qed.

Lemma keys_store {V} k (v : V) d :
  map fst (store k v d) =
  match lookup k d with Some _ => map fst d | None => map fst d ++ [k] end.
Proof.
  induction d as [|[k' v'] d IH]; simpl; [reflexivity|].
  destruct (key_eqb k' k) eqn:E; simpl; [reflexivity|].
  rewrite IH. destruct (lookup k d); reflexivity.
Qed.

Lemma NoDup_store {V} k (v : V) d :
  NoDup (map fst d) -> NoDup (map fst (store k v d)).
Proof.
  intros H. rewrite keys_store. destruct (lookup k d) eqn:E; [exact H|].
  apply lookup_none_keys in E.
  apply NoDup_app; [exact H | repeat constructor; intros [] | ].
  intros x Hx [<- | []]. contradiction.
Qed.

(** ** Loading the raw files *)

Lemma add_post_ok post all_posts :
  post_ok post -> add_post post all_posts = Ret (file_post all_posts post).
Proof.
  destruct post as [| | | | |kv]; try contradiction.
  unfold post_ok, add_post, file_post, id_key, py_get. cbn [rbind].
  destruct (assoc "id" kv) as [v|]; [|reflexivity].
  destruct v as [|b|z|s|l|d]; intros Hok; cbn [truthy py_hash rbind].
  - reflexivity.
  - destruct b; [|reflexivity]. destruct (lookup _ all_posts); reflexivity.
  - destruct (negb (z =? 0)); [|reflexivity]. destruct (lookup _ all_posts); reflexivity.
  - destruct (negb (s =? "")%string); [|reflexivity].
    destruct (lookup _ all_posts); reflexivity.
  - destruct l; [reflexivity | contradiction].
  - destruct d; [reflexivity | contradiction].
Qed.

Lemma add_posts_ok posts :
  Forall post_ok posts ->
  forall all_posts, add_posts posts all_posts = Ret (fold_left file_post posts all_posts).
Proof.
  induction 1 as [|post rest Hok _ IH]; intros all_posts; [reflexivity|].
  cbn [add_posts fold_left]. rewrite (add_post_ok post all_posts Hok). cbn [rbind]. apply IH.
Qed.

Lemma load_all_raw_posts_from_ok files postss :
  Forall2 file_holds files postss ->
  Forall post_ok (List.concat postss) ->
  forall all_posts,
    load_all_raw_posts_from files all_posts =
    Ret (fold_left file_post (List.concat postss) all_posts).
Proof.
  induction 1 as [|file posts files postss Hfile _ IH]; intros Hok all_posts;
    [reflexivity|].
  cbn [List.concat] in *. apply Forall_app in Hok. destruct Hok as [Hposts Hrest].
  rewrite fold_left_app. cbn [load_all_raw_posts_from].
  destruct Hfile as [-> | [[kv [-> Hkv]] | [-> [data [-> Hnone]]]]]; cbn [rbind file_posts].
  - cbn [py_iter rbind]. rewrite (add_posts_ok Hposts). cbn [rbind]. apply IH, Hrest.
  - rewrite Hkv. cbn [py_iter rbind]. rewrite (add_posts_ok Hposts). cbn [rbind].
    apply IH, Hrest.
  - rewrite Hnone. cbn [fold_left]. apply IH, Hrest.
Qed.

Lemma lookup_filed k posts :
  forall all_posts,
    lookup k (fold_left file_post posts all_posts) =
    match lookup k all_posts with
    | Some v => Some v
    | None => find (filed_under k) posts
    end.
Proof.
  induction posts as [|post rest IH]; intros all_posts; cbn [fold_left find].
  - destruct (lookup k all_posts); reflexivity.
  - rewrite IH. unfold file_post, filed_under.
    destruct (id_key post) as [k'|]; [|reflexivity].
    destruct (lookup k' all_posts) eqn:Hk'.
    + destruct (lookup k all_posts) eqn:Hk; [reflexivity|].
      destruct (key_eqb k' k) eqn:E; [|reflexivity].
      apply key_eqb_eq in E. congruence.
    + rewrite lookup_store. destruct (key_eqb k' k) eqn:E.
      * apply key_eqb_eq in E. subst k'. rewrite Hk'. reflexivity.
      * reflexivity.
Qed.

Lemma NoDup_filed posts :
  forall all_posts,
    NoDup (map fst all_posts) -> NoDup (map fst (fold_left file_post posts all_posts)).
Proof.
  induction posts as [|post rest IH]; intros all_posts H; [exact H|].
  cbn [fold_left]. apply IH. unfold file_post.
  destruct (id_key post) as [k|]; [|exact H].
  destruct (lookup k all_posts); [exact H | apply NoDup_store, H].
Qed.

(** X17. When every raw file loads and is either a list of posts, an
    object with a ["posts"] list, or of another shape (then skipped), and
    every post is an object with a hashable id, [load_all_raw_posts]
    returns a dictionary without repeated keys in which each id is bound
    to the first post, in file order then post order, that carries this
    id: a later post with the same id never replaces it, and posts whose
    id is missing, null or empty are not indexed. *)
Theorem load_all_raw_posts_first_wins (files : list (Res pyval)) (postss : list (list pyval)) :
  Forall2 file_holds files postss ->
  Forall post_ok (List.concat postss) ->
  exists all_posts,
    load_all_raw_posts files = Ret all_posts /\
    NoDup (map fst all_posts) /\
    forall k, lookup k all_posts = find (filed_under k) (List.concat postss).
Proof.
  intros Hfiles Hok. eexists. split; [|split].
  - unfold load_all_raw_posts. apply (load_all_raw_posts_from_ok Hfiles Hok).
  - apply NoDup_filed. constructor.
  - intros k. rewrite lookup_filed. reflexivity.
Qed.

Lemma load_all_raw_posts_witness :
  exists all_posts,
    load_all_raw_posts raw_files = Ret all_posts /\
    NoDup (map fst all_posts) /\
    forall k, lookup k all_posts =
              find (filed_under k)
                   (List.concat [[raw_post (PStr "a") "first"; raw_post PNone "no id"]; [];
                                 [raw_post (PStr "a") "second"; raw_post (PStr "b") "third"]]).
Proof.
  apply (@load_all_raw_posts_first_wins raw_files
           [[raw_post (PStr "a") "first"; raw_post PNone "no id"]; [];
            [raw_post (PStr "a") "second"; raw_post (PStr "b") "third"]]).
  - constructor; [|constructor; [|constructor; [|constructor]]].
    + right. left. eexists. split; reflexivity.
    + right. right. split; [reflexivity|]. eexists. split; reflexivity.
    + left. reflexivity.
  - simpl. repeat constructor.
Defined.

(** ** Counting the categories *)

Lemma sum_counts_store k v d :
  sum_counts (store k v d) = sum_counts d - get_count k d + v.
Proof.
  unfold sum_counts, get_count.
  induction d as [|[k' v'] d IH]; simpl; [lia|].
  destruct (key_eqb k' k); simpl; [lia | rewrite IH; lia].
Qed.

Lemma get_count_nonneg k d :
  Forall (fun kv : Key * Z => 0 < snd kv) d -> 0 <= get_count k d.
Proof.
  unfold get_count. induction 1 as [|[k' v'] d Hv _ IH]; simpl; [lia|].
  destruct (key_eqb k' k); [simpl in Hv; lia | exact IH].
Qed.

Lemma positive_store k v d :
  0 < v ->
  Forall (fun kv : Key * Z => 0 < snd kv) d ->
  Forall (fun kv : Key * Z => 0 < snd kv) (store k v d).
Proof.
  intros Hv. induction 1 as [|[k' v'] d Hv' Hd IH]; simpl.
  - repeat constructor. exact Hv.
  - destruct (key_eqb k' k); constructor; assumption.
Qed.

Lemma count_post_ok post categories k :
  category_key post = Some k ->
  count_post post categories = Ret (store k (get_count k categories + 1) categories).
Proof.
  unfold category_key, count_post. destruct post as [| | | | |kv]; try discriminate.
  cbn [py_get rbind].
  destruct (py_hash (match assoc "category" kv with Some v => v | None => PStr "Autre" end))
    as [k'| |]; try discriminate.
  intros H. injection H as ->. reflexivity.
Qed.

Lemma count_categories_ok posts :
  Forall (fun post => category_key post <> None) posts ->
  forall categories,
    NoDup (map fst categories) ->
    Forall (fun kv => 0 < snd kv) categories ->
    exists categories',
      count_categories posts categories = Ret categories' /\
      NoDup (map fst categories') /\
      Forall (fun kv => 0 < snd kv) categories' /\
      sum_counts categories' = sum_counts categories + Z.of_nat (List.length posts) /\
      forall k, get_count k categories' =
                get_count k categories +
                Z.of_nat (List.length (filter (counted_under k) posts)).
Proof.
  induction 1 as [|post rest Hkey _ IH]; intros categories Hnd Hpos.
  - exists categories. simpl. repeat split; try assumption; intros; lia.
  - destruct (category_key post) as [k|] eqn:Hk; [|contradiction].
    assert (Hget : 0 <= get_count k categories) by (apply get_count_nonneg, Hpos).
    destruct (IH (store k (get_count k categories + 1) categories))
      as [c' [Hrun [Hnd' [Hpos' [Hsum Hcount]]]]].
    + apply NoDup_store, Hnd.
    + apply positive_store; [lia | exact Hpos].
    + exists c'. cbn [count_categories]. rewrite (count_post_ok post categories Hk).
      cbn [rbind]. repeat split; try assumption.
      * rewrite Hsum, sum_counts_store. cbn [List.length]. lia.
      * intros k0. rewrite Hcount. unfold get_count at 1. rewrite lookup_store.
        cbn [filter]. unfold counted_under at 2. rewrite Hk.
        destruct (key_eqb k k0) eqn:E.
        -- apply key_eqb_eq in E. subst k0. cbn [List.length]. lia.
        -- unfold get_count. lia.
Qed.

(** X18. The category count of [run_grepr], over posts that are objects
    with a hashable category, gives a dictionary without repeated keys
    where each category is bound to the (positive) number of posts that
    carry it, a post without ["category"] counting under ["Autre"]; the
    counts add up to the number of posts. *)
Theorem category_breakdown_counts (posts : list pyval) :
  Forall (fun post => category_key post <> None) posts ->
  exists categories,
    category_breakdown posts = Ret categories /\
    NoDup (map fst categories) /\
    Forall (fun kv => 0 < snd kv) categories /\
    sum_counts categories = Z.of_nat (List.length posts) /\
    forall k, get_count k categories =
              Z.of_nat (List.length (filter (counted_under k) posts)).
Proof.
  intros Hposts.
  destruct (count_categories_ok Hposts (categories := [])) as [c [Hrun [Hnd [Hpos [Hsum Hcount]]]]];
    [constructor | constructor |].
  exists c. split; [exact Hrun|]. split; [exact Hnd|]. split; [exact Hpos|].
  split; [exact Hsum | exact Hcount].
Qed.

Lemma category_breakdown_witness :
  exists categories,
    category_breakdown (uncategorized 3) = Ret categories /\
    NoDup (map fst categories) /\
    Forall (fun kv => 0 < snd kv) categories /\
    sum_counts categories = Z.of_nat (List.length (uncategorized 3)) /\
    forall k, get_count k categories =
              Z.of_nat (List.length (filter (counted_under k) (uncategorized 3))).
Proof.
  apply category_breakdown_counts.
  repeat constructor; discriminate.
Defined.

(** ** Leaving a generator *)

Section Staying.

Variables (env : Env) (cfg : Config) (S : Type).
Variable sub : string.
Variable body : Post.t -> S -> M S.

Lemma public_for_break_staying posts :
  forall s total w,
    public_for_break env cfg sub posts (staying body) s total w =
    bind (public_for env cfg sub posts body s total)
         (fun st => ret (Next (fst st), snd st)) w.
Proof.
  induction posts as [|post rest IH]; intros s total w; [reflexivity|].
  cbn [public_for_break public_for]. unfold staying, bind, lift, ret in *.
  destruct (public_post env cfg sub post) as [[p|]| |]; try reflexivity.
  - destruct (body p s w) as [[s'| |] w1]; try reflexivity. apply IH.
  - apply IH.
Qed.

Lemma public_loop_break_staying fuel tf limit :
  forall after total s w,
    public_loop_break env cfg fuel sub tf limit after total (staying body) s w =
    public_loop env cfg fuel sub tf limit after total body s w.
Proof.
  induction fuel as [|fuel IH]; intros after total s w; [reflexivity|].
  cbn [public_loop_break public_loop].
  destruct (total <? limit); [|reflexivity].
  unfold bind, lift.
  destruct (try_except _ _ w) as [[[data|]| |] w1]; try reflexivity.
  destruct (py_get data "data" (PDict [])) as [listing| |]; try reflexivity.
  destruct (py_get listing "children" (PList [])) as [posts| |]; try reflexivity.
  destruct (negb (truthy posts)); [reflexivity|].
  destruct (py_iter posts) as [items| |]; try reflexivity.
  rewrite public_for_break_staying. unfold bind, ret.
  destruct (public_for env cfg sub items body s total w1) as [[[s' total']| |] w2];
    try reflexivity.
  cbn [fst snd].
  destruct (py_get listing "after" PNone) as [after'| |]; try reflexivity.
  destruct (negb (truthy after')); [reflexivity|]. apply IH.
Qed.

Lemma praw_for_break_staying listing :
  forall s w,
    praw_for_break cfg sub listing (staying body) s w =
    bind (praw_for cfg sub listing body s)
         (fun st => ret (Some (fst st), snd st)) w.
Proof.
  induction listing as [|post rest IH]; intros s w; [reflexivity|].
  cbn [praw_for_break praw_for]. unfold staying, bind, ret in *.
  destruct (praw_post cfg sub post) as [[p|]| |]; try reflexivity.
  - destruct (body p s w) as [[s'| |] w1]; try reflexivity. apply IH.
  - apply IH.
Qed.

Lemma fetch_subreddit_posts_break_staying fuel tf limit s w :
  fetch_subreddit_posts_break env cfg fuel sub tf limit (staying body) s w =
  fetch_subreddit_posts env cfg fuel sub tf limit body s w.
Proof.
  unfold fetch_subreddit_posts_break, fetch_subreddit_posts.
  unfold fetch_subreddit_posts_praw_break, fetch_subreddit_posts_praw.
  unfold fetch_subreddit_posts_public_break, fetch_subreddit_posts_public.
  destruct (api_selected cfg); [|apply public_loop_break_staying].
  unfold bind.
  destruct (get_reddit_client env cfg w) as [[[r|]| |] w1]; try reflexivity;
    [|apply public_loop_break_staying].
  unfold praw_call_top.
  destruct (praw_top env (praw_log w1) r sub tf limit) as [listing fails].
  rewrite praw_for_break_staying. unfold bind, ret.
  destruct (praw_for cfg sub listing body s (log_praw (CallTop r sub tf limit) w1))
    as [[[completed s']| |] w2]; try reflexivity.
  cbn [fst snd].
  destruct (completed && negb fails); [reflexivity|]. apply public_loop_break_staying.
Qed.

End Staying.

Section LeavingInv.

Variables (env : Env) (cfg : Config) (S : Type).
Variables I J : S -> Prop.
Variable sub : string.
Variable body : Post.t -> S -> M (Flow S).

Hypothesis body_inv :
  forall p s w flow w',
    I s -> body p s w = (Ret flow, w') ->
    match flow with Next s' => I s' | Stop s' => J s' end.

Lemma public_for_break_inv posts :
  forall s total w flow total' w',
    I s ->
    public_for_break env cfg sub posts body s total w = (Ret (flow, total'), w') ->
    match flow with Next s' => I s' | Stop s' => J s' end.
Proof.
  induction posts as [|post rest IH]; intros s total w flow total' w' Hs Hrun;
    cbn [public_for_break] in Hrun.
  - inversion Hrun; subst. exact Hs.
  - unfold bind, lift in Hrun.
    destruct (public_post env cfg sub post) as [[p|]| |]; try discriminate.
    + destruct (body p s w) as [[[s1|s1]| |] w1] eqn:Hb; try discriminate.
      * eapply IH; [|exact Hrun]. exact (body_inv Hs Hb).
      * inversion Hrun; subst. exact (body_inv Hs Hb).
    + eapply IH; eassumption.
Qed.

Lemma public_loop_break_inv fuel tf limit :
  forall after total s w s' w',
    I s ->
    public_loop_break env cfg fuel sub tf limit after total body s w = (Ret s', w') ->
    I s' \/ J s'.
Proof.
  induction fuel as [|fuel IH]; intros after total s w s' w' Hs Hrun; [discriminate|].
  cbn [public_loop_break] in Hrun.
  destruct (total <? limit); [|inversion Hrun; subst; left; exact Hs].
  unfold bind at 1 in Hrun.
  destruct (try_except _ _ w) as [[[data|]| |] w1]; try discriminate;
    [|inversion Hrun; subst; left; exact Hs].
  unfold bind at 1 in Hrun. unfold lift at 1 in Hrun.
  destruct (py_get data "data" (PDict [])) as [listing| |]; try discriminate.
  unfold bind at 1 in Hrun. unfold lift at 1 in Hrun.
  destruct (py_get listing "children" (PList [])) as [posts| |]; try discriminate.
  destruct (negb (truthy posts)); [inversion Hrun; subst; left; exact Hs|].
  unfold bind at 1 in Hrun. unfold lift at 1 in Hrun.
  destruct (py_iter posts) as [items| |]; try discriminate.
  unfold bind at 1 in Hrun.
  destruct (public_for_break env cfg sub items body s total w1)
    as [[[flow total']| |] w2] eqn:Hfor; try discriminate.
  pose proof (@public_for_break_inv items s total w1 flow total' w2 Hs Hfor) as Hflow.
  destruct flow as [s1|s1].
  - rewrite bind_lift_ret in Hrun.
    unfold bind at 1 in Hrun. unfold lift at 1 in Hrun.
    destruct (py_get listing "after" PNone) as [after'| |]; try discriminate.
    destruct (negb (truthy after')); [inversion Hrun; subst; left; exact Hflow|].
    eapply IH; eassumption.
  - inversion Hrun; subst. right. exact Hflow.
Qed.

Lemma praw_for_break_inv listing :
  forall s w ended s' w',
    I s ->
    praw_for_break cfg sub listing body s w = (Ret (ended, s'), w') ->
    match ended with Some _ => I s' | None => J s' end.
Proof.
  induction listing as [|post rest IH]; intros s w ended s' w' Hs Hrun;
    cbn [praw_for_break] in Hrun.
  - inversion Hrun; subst. exact Hs.
  - destruct (praw_post cfg sub post) as [[p|]| |].
    + unfold bind in Hrun.
      destruct (body p s w) as [[[s1|s1]| |] w1] eqn:Hb; try discriminate.
      * eapply IH; [|exact Hrun]. exact (body_inv Hs Hb).
      * inversion Hrun; subst. exact (body_inv Hs Hb).
    + eapply IH; eassumption.
    + inversion Hrun; subst. exact Hs.
    + inversion Hrun; subst. exact Hs.
Qed.

Lemma fetch_subreddit_posts_break_inv fuel tf limit s w s' w' :
  I s ->
  fetch_subreddit_posts_break env cfg fuel sub tf limit body s w = (Ret s', w') ->
  I s' \/ J s'.
Proof.
  intros Hs Hrun. unfold fetch_subreddit_posts_break in Hrun.
  destruct (api_selected cfg); [|eapply public_loop_break_inv; eassumption].
  unfold fetch_subreddit_posts_praw_break in Hrun.
  unfold bind at 1 in Hrun.
  destruct (get_reddit_client env cfg w) as [[[r|]| |] w1]; try discriminate;
    [|eapply public_loop_break_inv; eassumption].
  unfold bind at 1 in Hrun. unfold praw_call_top in Hrun.
  destruct (praw_top env (praw_log w1) r sub tf limit) as [listing fails].
  unfold bind at 1 in Hrun.
  destruct (praw_for_break cfg sub listing body s (log_praw (CallTop r sub tf limit) w1))
    as [[[ended s1]| |] w2] eqn:Hfor; try discriminate.
  pose proof (@praw_for_break_inv listing s _ ended s1 w2 Hs Hfor) as Hended.
  destruct ended as [completed|].
  - destruct (completed && negb fails).
    + inversion Hrun; subst. left. exact Hended.
    + eapply public_loop_break_inv; eassumption.
  - inversion Hrun; subst. right. exact Hended.
Qed.

End LeavingInv.

Lemma quick_test_body_flow post posts w flow w' :
  (List.length posts < 5)%nat ->
  quick_test_body post posts w = (Ret flow, w') ->
  match flow with
  | Next posts' => (List.length posts' < 5)%nat
  | Stop posts' => (List.length posts' <= 5)%nat
  end.
Proof.
  intros Hlen. unfold quick_test_body, bind, lift, ret.
  destruct (py_slice (Post.title post) 60); try discriminate.
  destruct (Z.leb_spec 5 (Z.of_nat (List.length (posts ++ [post])))) as [Hge | Hlt];
    intros H; inversion H; subst; rewrite length_app in *; simpl in *; lia.
Qed.

Lemma firstn_exact {A} (l r : list A) n : List.length l = n -> firstn n (l ++ r) = l.
Proof.
  intros <-. rewrite firstn_app, firstn_all, Nat.sub_diag, firstn_O, app_nil_r.
  reflexivity.
Qed.

Lemma public_for_break_quick env cfg sub items :
  forall posts total w,
    Forall item_dated items ->
    (List.length posts < 5)%nat ->
    (5 <= List.length posts + List.length (filter (accepted cfg) items))%nat ->
    exists total',
      public_for_break env cfg sub (map item_json items) quick_test_body posts total w =
      (Ret (Stop (firstn 5 (posts ++ accepted_posts cfg sub items)), total'), w).
Proof.
  induction items as [|it items IH]; intros posts total w Hdated Hlen Hcount.
  - simpl in Hcount. lia.
  - inversion Hdated as [|? ? Hd Hrest]; subst.
    cbn [map public_for_break]. rewrite (public_post_item env cfg sub Hd).
    rewrite bind_lift_ret. unfold accepted_posts. cbn [filter] in *.
    destruct (accepted cfg it).
    + cbn [map]. unfold bind at 1. unfold quick_test_body at 1.
      cbn [post_of_item Post.title py_slice lift bind ret].
      destruct (Z.leb_spec 5 (Z.of_nat (List.length (posts ++ [post_of_item sub it]))))
        as [Hge | Hlt].
      * exists total. unfold ret.
        change (post_of_item sub it :: map (post_of_item sub) (filter (accepted cfg) items))
          with ([post_of_item sub it] ++ map (post_of_item sub) (filter (accepted cfg) items)).
        rewrite app_assoc, firstn_exact; [reflexivity|].
        rewrite length_app in *. simpl in *. lia.
      * destruct (IH (posts ++ [post_of_item sub it]) (total + 1) w Hrest) as [total' Hrun].
        -- rewrite length_app in *. simpl in *. lia.
        -- rewrite length_app. simpl in *. lia.
        -- exists total'. rewrite Hrun. rewrite <- app_assoc. reflexivity.
    + apply IH; assumption.
Qed.

(** X19. [quick_test] returns at most five posts, whatever the transports
    do.  Over the public transport it asks for a page of five, and when
    that page holds five accepted well-formed items or more it returns the
    first five after this single request, whatever else the page holds and
    whether or not it announces a next page.  The loop slices the title of
    each post it receives: a post whose title cannot be sliced (an item
    without ["title"] gives [None]) makes [quick_test] raise. *)
Theorem quick_test_takes_five (env : Env) (cfg : Config) (fuel : nat) (w : World) :
  (forall posts w',
      quick_test env cfg fuel w = (Ret posts, w') -> (List.length posts <= 5)%nat) /\
  (forall items after,
      api_selected cfg = false ->
      http env (http_log w) (TopPage "vosfinances" (TIME_FILTER cfg) 5 None) =
        HttpOk (page_json items after) ->
      Forall item_dated items ->
      5 <= count_accepted cfg items ->
      quick_test env cfg (Datatypes.S fuel) w =
      (Ret (firstn 5 (accepted_posts cfg "vosfinances" items)),
       log_http (TopPage "vosfinances" (TIME_FILTER cfg) 5 None) w)) /\
  (forall data item rest p e,
      api_selected cfg = false ->
      http env (http_log w) (TopPage "vosfinances" (TIME_FILTER cfg) 5 None) = HttpOk data ->
      children_of data = Ret (PList (item :: rest)) ->
      public_post env cfg "vosfinances" item = Ret (Some p) ->
      py_slice (Post.title p) 60 = Raise e ->
      fst (quick_test env cfg (Datatypes.S fuel) w) = Raise e).
Proof.
  split; [|split].
  - intros posts w' Hrun. unfold quick_test in Hrun.
    destruct (@fetch_subreddit_posts_break_inv env cfg _
                (fun posts : list Post.t => (List.length posts < 5)%nat)
                (fun posts : list Post.t => (List.length posts <= 5)%nat)
                "vosfinances" quick_test_body quick_test_body_flow
                fuel (TIME_FILTER cfg) 5 [] w posts w') as [H | H];
      [simpl; lia | exact Hrun | lia | exact H].
  - intros items after Hsel Hhttp Hdated Hcount.
    unfold quick_test, fetch_subreddit_posts_break. rewrite Hsel.
    unfold fetch_subreddit_posts_public_break. cbn [public_loop_break].
    change (0 <? 5) with true. cbv iota.
    unfold bind at 1. unfold try_except, bind at 1. unfold requests_get.
    change (page_request "vosfinances" (TIME_FILTER cfg) 5 PNone 0)
      with (TopPage "vosfinances" (TIME_FILTER cfg) 5 None).
    rewrite Hhttp. cbn [ret].
    assert (Hne : items <> []).
    { intros ->. unfold count_accepted in Hcount. simpl in Hcount. lia. }
    unfold page_json. cbn [py_get assoc String.eqb Ascii.eqb Bool.eqb lift bind].
    rewrite (truthy_items Hne). cbn [negb py_iter lift bind].
    destruct (@public_for_break_quick env cfg "vosfinances" items [] 0
                (log_http (TopPage "vosfinances" (TIME_FILTER cfg) 5 None) w) Hdated)
      as [total' Hrun].
    + simpl. lia.
    + unfold count_accepted in Hcount. simpl. lia.
    + unfold bind at 1. rewrite Hrun. reflexivity.
  - intros data item rest p e Hsel Hhttp Hchildren Hpost Hslice.
    unfold quick_test, fetch_subreddit_posts_break. rewrite Hsel.
    unfold fetch_subreddit_posts_public_break. cbn [public_loop_break].
    change (0 <? 5) with true. cbv iota.
    unfold bind at 1. unfold try_except, bind at 1. unfold requests_get.
    change (page_request "vosfinances" (TIME_FILTER cfg) 5 PNone 0)
      with (TopPage "vosfinances" (TIME_FILTER cfg) 5 None).
    rewrite Hhttp. cbn [ret].
    unfold children_of in Hchildren.
    unfold bind at 1. unfold lift at 1.
    destruct (py_get data "data" (PDict [])) as [listing| |]; try discriminate.
    cbn [rbind] in Hchildren.
    unfold bind at 1. unfold lift at 1. rewrite Hchildren.
    cbn [truthy negb py_iter lift bind public_for_break].
    unfold bind at 1. unfold bind at 1. unfold lift at 1. rewrite Hpost.
    unfold bind at 1. unfold quick_test_body, bind at 1. unfold lift at 1.
    rewrite Hslice. reflexivity.
Qed.

Lemma quick_test_witness :
  quick_test long_env public_cfg 1 start =
  (Ret (firstn 5 (accepted_posts public_cfg "vosfinances" (fst long_page))),
   log_http (TopPage "vosfinances" (TIME_FILTER public_cfg) 5 None) start).
Proof.
  apply (proj1 (proj2 (quick_test_takes_five long_env public_cfg 0 start))
           (fst long_page) (Some (snd long_page))).
  - reflexivity.
  - reflexivity.
  - repeat constructor; intro H; vm_compute in H; discriminate H.
  - vm_compute. discriminate.
Defined.
